(** * The Cosmos chain context of the Wormhole Connect SDK

    A shallow embedding of [sdk/src/contexts/cosmos/context.ts]: the
    address codec ([formatAddress], [parseAddress]), the synthetic asset id
    ([buildTokenId], [formatAssetAddress]), foreign-asset resolution,
    [redeem], [isTransferCompleted], [getVaa] and the cached network client.

    JavaScript strings are [string]s of one-byte characters (addresses,
    denominations and hex strings are ASCII), byte arrays ([Uint8Array],
    [Buffer]) are [list byte], numbers used with bit operators are [Z]. *)

From Stdlib Require Import ZArith NArith List Ascii String Bool Lia.
From Stdlib Require Import Init.Byte.
From stdpp Require Import base option list strings gmap.

Local Open Scope string_scope.
Local Open Scope list_scope.
Local Open Scope Z_scope.

(** ** Bytes *)

Module Bytes.

Definition to_Z (b : byte) : Z := Z.of_N (Byte.to_N b).

Definition of_Z (z : Z) : byte :=
  match Byte.of_N (Z.to_N (z mod 256)) with
  | Some b => b
  | None => x00
  end.

(** [Buffer.from(s, 'utf-8')] on an ASCII string. *)
Definition of_string (s : string) : list byte := list_byte_of_string s.

(** [buf.slice(n)]: the bytes from index [n] on. *)
Definition slice_from (n : nat) (b : list byte) : list byte := skipn n b.

End Bytes.

(** ** Hexadecimal strings *)

Module Hex.

Definition digit (n : Z) : ascii :=
  ascii_of_nat (Z.to_nat (if n <? 10 then 48 + n else 87 + n)).

(** The value of a hex digit, upper or lower case. *)
Definition value (c : ascii) : option Z :=
  let n := Z.of_nat (nat_of_ascii c) in
  if (48 <=? n) && (n <=? 57) then Some (n - 48)
  else if (97 <=? n) && (n <=? 102) then Some (n - 87)
  else if (65 <=? n) && (n <=? 70) then Some (n - 55)
  else None.

Definition of_byte (b : byte) : string :=
  String (digit (Bytes.to_Z b / 16)) (String (digit (Bytes.to_Z b mod 16)) "").

(** The lowercase hex digits of a byte array, without the [0x]. *)
Fixpoint encode (bs : list byte) : string :=
  match bs with
  | [] => ""
  | b :: bs' => of_byte b +:+ encode bs'
  end.

(** [Buffer.from(s, 'hex')]: two digits a byte; an odd last digit is
    dropped and decoding stops at the first pair that is not hex. *)
Fixpoint decode (s : string) : list byte :=
  match s with
  | String a (String b rest) =>
      match value a, value b with
      | Some h, Some l => Bytes.of_Z (16 * h + l) :: decode rest
      | _, _ => []
      end
  | _ => []
  end.

(** ethers' [isHexString] on the part after [0x]. *)
Fixpoint all_digits (s : string) : bool :=
  match s with
  | "" => true
  | String c rest => bool_decide (is_Some (value c)) && all_digits rest
  end.

End Hex.

(** ** JavaScript string helpers *)

Module Js.

(** [s.startsWith(p)] *)
Definition startsWith (p s : string) : bool := String.prefix p s.

(** [s.substring(n)] *)
Fixpoint substring_from (n : nat) (s : string) : string :=
  match n, s with
  | O, _ => s
  | S n', String _ rest => substring_from n' rest
  | S _, "" => ""
  end.

(** Truthiness of a string value: the empty string is falsy. *)
Definition truthy (s : string) : bool := negb (String.eqb s "").

End Js.

(** ** Keccak-256

    [keccak256] comes from the ethers package, a dependency of the SDK. It
    hashes a byte array with Keccak-256 (rate 136 bytes, padding
    [0x01 .. 0x80], 24 rounds of Keccak-f[1600] on 25 lanes of 64 bits) and
    returns [0x] followed by the 64 hex digits of the digest. The permutation
    is written after the Keccak reference: theta, rho and pi, chi, iota. *)

Module Keccak.

Definition w64 (z : Z) : Z := Z.land z 0xFFFFFFFFFFFFFFFF.

Definition rotl (z : Z) (n : Z) : Z :=
  w64 (Z.lor (Z.shiftl z n) (Z.shiftr z (64 - n))).

Definition lane (st : list Z) (x y : nat) : Z :=
  nth ((x mod 5) + 5 * (y mod 5))%nat st 0.

Definition rotation : list Z :=
  [ 0;  1; 62; 28; 27;
   36; 44;  6; 55; 20;
    3; 10; 43; 25; 39;
   41; 45; 15; 21;  8;
   18;  2; 61; 56; 14].

Definition round_constants : list Z :=
  [0x0000000000000001; 0x0000000000008082; 0x800000000000808A;
   0x8000000080008000; 0x000000000000808B; 0x0000000080000001;
   0x8000000080008081; 0x8000000000008009; 0x000000000000008A;
   0x0000000000000088; 0x0000000080008009; 0x000000008000000A;
   0x000000008000808B; 0x800000000000008B; 0x8000000000008089;
   0x8000000000008003; 0x8000000000008002; 0x8000000000000080;
   0x000000000000800A; 0x800000008000000A; 0x8000000080008081;
   0x8000000000008080; 0x0000000080000001; 0x8000000080008008].

Definition column (st : list Z) (x : nat) : Z :=
  Z.lxor (lane st x 0) (Z.lxor (lane st x 1) (Z.lxor (lane st x 2)
    (Z.lxor (lane st x 3) (lane st x 4)))).

Definition theta (st : list Z) : list Z :=
  map (fun i : nat =>
         let x := (i mod 5)%nat in
         let d := Z.lxor (column st (x + 4)) (rotl (column st (x + 1)) 1) in
         Z.lxor (nth i st 0) d)
      (seq 0 25).

(** rho and pi: lane [(x, y)] moves to [(y, 2x + 3y)], rotated. *)
Definition rho_pi (st : list Z) : list Z :=
  map (fun i : nat =>
         let x' := (i mod 5)%nat in
         let y' := (i / 5)%nat in
         (* the source lane (x, y) with y = x' and 2x + 3y = y' (mod 5) *)
         let x := ((x' + 3 * y') mod 5)%nat in
         let y := x' in
         rotl (lane st x y) (nth (x + 5 * y)%nat rotation 0))
      (seq 0 25).

Definition chi (st : list Z) : list Z :=
  map (fun i : nat =>
         let x := (i mod 5)%nat in
         let y := (i / 5)%nat in
         Z.lxor (lane st x y)
                (Z.land (w64 (Z.lnot (lane st (x + 1) y))) (lane st (x + 2) y)))
      (seq 0 25).

Definition iota (rc : Z) (st : list Z) : list Z :=
  match st with
  | [] => []
  | a :: rest => Z.lxor a rc :: rest
  end.

Definition round (st : list Z) (rc : Z) : list Z :=
  iota rc (chi (rho_pi (theta st))).

Definition keccak_f (st : list Z) : list Z :=
  fold_left round round_constants st.

(** Eight bytes, little endian, as a lane. *)
Definition lane_of_bytes (bs : list byte) : Z :=
  fold_right (fun b acc => Bytes.to_Z b + 256 * acc) 0 bs.

Definition bytes_of_lane (z : Z) : list byte :=
  map (fun i : nat => Bytes.of_Z (Z.shiftr z (8 * Z.of_nat i))) (seq 0 8).

Fixpoint lanes_of_block (n : nat) (bs : list byte) : list Z :=
  match n with
  | O => []
  | S n' => lane_of_bytes (firstn 8 bs) :: lanes_of_block n' (skipn 8 bs)
  end.

(** xor a 136-byte block into the first 17 lanes, then permute. *)
Definition absorb_block (st : list Z) (block : list byte) : list Z :=
  let ls := lanes_of_block 17 block in
  keccak_f (map (fun i : nat => Z.lxor (nth i st 0) (nth i ls 0)) (seq 0 25)).

Definition rate : nat := 136.

(** The message followed by the padding, a whole number of blocks. *)
Definition pad (msg : list byte) : list byte :=
  let r := (rate - (length msg mod rate))%nat in
  if Nat.eqb r 1 then msg ++ [x81]
  else msg ++ [x01] ++ repeat x00 (r - 2) ++ [x80].

Fixpoint absorb (fuel : nat) (st : list Z) (bs : list byte) : list Z :=
  match fuel with
  | O => st
  | S fuel' =>
      match bs with
      | [] => st
      | _ => absorb fuel' (absorb_block st (firstn rate bs)) (skipn rate bs)
      end
  end.

Definition digest (msg : list byte) : list byte :=
  let p := pad msg in
  let st := absorb (S (length p / rate)) (repeat 0 25) p in
  flat_map bytes_of_lane (firstn 4 st).

(** [keccak256(data)] of ethers. *)
Definition keccak256 (data : list byte) : string :=
  "0x" +:+ Hex.encode (digest data).

End Keccak.

(** ** Chains and errors *)

(** [ChainName | ChainId]: a chain is named or numbered. *)
Inductive Chain : Type :=
| ChainName (name : string)
| ChainId (id : N).

#[global] Instance Chain_eq_dec : EqDecision Chain.
Proof. solve_decision. Defined.

(** The errors the context throws, one constructor a [throw] site, and
    [Thrown] for an error raised by a library or by the rest of the SDK.
    [AttestationUnavailable] is the error the specification names for an
    attestation fetch that has spent its retry budget; no [throw] of the
    context raises it. *)
Inductive Error : Type :=
| MethodNotImplemented
| NotImplemented
| PrefixNotFound (c : Chain)
| NativeDenomNotFound (c : Chain)
| TokenBridgeNotFound
| NoTokenBridge (name : string)
| TokenNotRegistered
| RpcNotConfigured
| TxNotFound
| SequenceNotFound
| EmitterNotFound
| AttestationUnavailable
| Thrown (msg : string).

Inductive result (A : Type) : Type :=
| Ok (a : A)
| Err (e : Error).

Arguments Ok {A} a.
Arguments Err {A} e.

Definition result_bind {A B : Type} (r : result A) (f : A -> result B) : result B :=
  match r with
  | Ok a => f a
  | Err e => Err e
  end.

Declare Scope result_scope.
Delimit Scope result_scope with result.
Notation "'let?' x := r 'in' k" :=
  (result_bind r (fun x => k))
    (at level 10, x pattern, r at level 100, k at level 200) : result_scope.

(** ** Bech32

    The [bech32] package, a dependency, behind [cosmos.canonicalAddress] and
    [cosmos.humanAddress] of the Wormhole SDK: [encode], [decode], and the
    conversion [convert] between 8-bit bytes and 5-bit words, statement by
    statement as the package has them. *)

Module Bech32.
Local Open Scope result_scope.

Definition ALPHABET : string := "qpzry9x8gf2tvdw0s3jn54khce6mua7l".

Definition LIMIT : nat := 90.

(** [ALPHABET.charAt(x)] *)
Definition charAt (x : Z) : string :=
  match String.get (Z.to_nat x) ALPHABET with
  | Some c => String c ""
  | None => ""
  end.

(** [ALPHABET_MAP[c]] *)
Definition ALPHABET_MAP (c : ascii) : option Z :=
  (fix find (s : string) (i : Z) : option Z :=
     match s with
     | "" => None
     | String a rest => if Ascii.eqb a c then Some i else find rest (i + 1)
     end) ALPHABET 0.

Definition code (c : ascii) : Z := Z.of_nat (nat_of_ascii c).

Definition lower (c : ascii) : ascii :=
  if (65 <=? code c) && (code c <=? 90)
  then ascii_of_nat (nat_of_ascii c + 32) else c.

Definition upper (c : ascii) : ascii :=
  if (97 <=? code c) && (code c <=? 122)
  then ascii_of_nat (nat_of_ascii c - 32) else c.

Fixpoint map_chars (f : ascii -> ascii) (s : string) : string :=
  match s with
  | "" => ""
  | String c rest => String (f c) (map_chars f rest)
  end.

Definition toLowerCase : string -> string := map_chars lower.
Definition toUpperCase : string -> string := map_chars upper.

Definition polymodStep (pre : Z) : Z :=
  let b := Z.shiftr pre 25 in
  Z.lxor (Z.shiftl (Z.land pre 0x1FFFFFF) 5)
 (Z.lxor (Z.land (- (Z.land (Z.shiftr b 0) 1)) 0x3b6a57b2)
 (Z.lxor (Z.land (- (Z.land (Z.shiftr b 1) 1)) 0x26508e6d)
 (Z.lxor (Z.land (- (Z.land (Z.shiftr b 2) 1)) 0x1ea119fa)
 (Z.lxor (Z.land (- (Z.land (Z.shiftr b 3) 1)) 0x3d4233dd)
         (Z.land (- (Z.land (Z.shiftr b 4) 1)) 0x2a1462b3))))).

Definition chars (s : string) : list ascii := list_ascii_of_string s.

Definition prefixChk (prefix : string) : result Z :=
  let? chk :=
    fold_left (fun (acc : result Z) (c : ascii) =>
                 let? chk := acc in
                 if (code c <? 33) || (code c >? 126)
                 then Err (Thrown ("Invalid prefix (" +:+ prefix +:+ ")"))
                 else Ok (Z.lxor (polymodStep chk) (Z.shiftr (code c) 5)))
              (chars prefix) (Ok 1) in
  let chk := polymodStep chk in
  Ok (fold_left (fun chk c => Z.lxor (polymodStep chk) (Z.land (code c) 0x1f))
                (chars prefix) chk).

(** The six checksum characters of a finished checksum state. *)
Definition checksum_chars (chk : Z) : string :=
  String.concat ""
    (map (fun i : Z => charAt (Z.land (Z.shiftr chk ((5 - i) * 5)) 0x1f))
         [0; 1; 2; 3; 4; 5]).

Fixpoint encode_words (words : list Z) (chk : Z) (out : string)
  : result (Z * string) :=
  match words with
  | [] => Ok (chk, out)
  | x :: rest =>
      if negb (Z.shiftr x 5 =? 0) then Err (Thrown "Non 5-bit word")
      else encode_words rest (Z.lxor (polymodStep chk) x) (out +:+ charAt x)
  end.

Definition encode (prefix : string) (words : list Z) : result string :=
  if (LIMIT <? String.length prefix + 7 + length words)%nat
  then Err (Thrown "Exceeds length limit")
  else
    let prefix := toLowerCase prefix in
    let? chk := prefixChk prefix in
    let? (chk, out) := encode_words words chk (prefix +:+ "1") in
    let chk := Nat.iter 6 polymodStep chk in
    let chk := Z.lxor chk 1 in
    Ok (out +:+ checksum_chars chk).

(** [str.lastIndexOf('1')] *)
Fixpoint lastIndexOf1 (s : string) (i : nat) : option nat :=
  match s with
  | "" => None
  | String c rest =>
      match lastIndexOf1 rest (S i) with
      | Some j => Some j
      | None => if Ascii.eqb c "1" then Some i else None
      end
  end.

Fixpoint decode_words (wordChars : list ascii) (chk : Z) (words : list Z)
  : result (Z * list Z) :=
  match wordChars with
  | [] => Ok (chk, words)
  | c :: rest =>
      match ALPHABET_MAP c with
      | None => Err (Thrown ("Unknown character " +:+ String c ""))
      | Some v =>
          let chk := Z.lxor (polymodStep chk) v in
          (* the last six characters are the checksum *)
          if (length rest <? 6)%nat then decode_words rest chk words
          else decode_words rest chk (words ++ [v])
      end
  end.

Definition decode (str : string) : result (string * list Z) :=
  if (String.length str <? 8)%nat then Err (Thrown (str +:+ " too short"))
  else if (LIMIT <? String.length str)%nat then Err (Thrown "Exceeds length limit")
  else
    let lowered := toLowerCase str in
    let uppered := toUpperCase str in
    if negb (String.eqb str lowered) && negb (String.eqb str uppered)
    then Err (Thrown ("Mixed-case string " +:+ str))
    else
      let str := lowered in
      match lastIndexOf1 str 0 with
      | None => Err (Thrown ("No separator character for " +:+ str))
      | Some O => Err (Thrown ("Missing prefix for " +:+ str))
      | Some split =>
          let prefix := String.substring 0 split str in
          let wordChars := Js.substring_from (S split) str in
          if (String.length wordChars <? 6)%nat then Err (Thrown "Data too short")
          else
            let? chk := prefixChk prefix in
            let? (chk, words) := decode_words (chars wordChars) chk [] in
            if negb (chk =? 1) then Err (Thrown ("Invalid checksum for " +:+ str))
            else Ok (prefix, words)
      end.

(** The loop of [convert]: [value] and [bits] carry the bits not yet
    written out; [value] is kept as a 32-bit integer, as [<<] and [|] do. *)
Definition int32 (z : Z) : Z := (z + 2 ^ 31) mod 2 ^ 32 - 2 ^ 31.

Fixpoint drain (fuel : nat) (outBits value bits : Z) (acc : list Z) : Z * list Z :=
  match fuel with
  | O => (bits, acc)
  | S fuel' =>
      if bits >=? outBits
      then drain fuel' outBits value (bits - outBits)
                 (acc ++ [Z.land (Z.shiftr value (bits - outBits)) (Z.shiftl 1 outBits - 1)])
      else (bits, acc)
  end.

Fixpoint convert_loop (data : list Z) (inBits outBits value bits : Z)
         (acc : list Z) : Z * Z * list Z :=
  match data with
  | [] => (value, bits, acc)
  | d :: rest =>
      let value := int32 (Z.lor (int32 (Z.shiftl value inBits)) d) in
      let bits := bits + inBits in
      let '(bits, acc) := drain (Z.to_nat (bits / outBits)) outBits value bits acc in
      convert_loop rest inBits outBits value bits acc
  end.

Definition convert (data : list Z) (inBits outBits : Z) (pad : bool)
  : result (list Z) :=
  let maxV := Z.shiftl 1 outBits - 1 in
  let '(value, bits, acc) := convert_loop data inBits outBits 0 0 [] in
  if pad then
    if bits >? 0
    then Ok (acc ++ [Z.land (int32 (Z.shiftl value (outBits - bits))) maxV])
    else Ok acc
  else
    if bits >=? inBits then Err (Thrown "Excess padding")
    else if negb (Z.land (int32 (Z.shiftl value (outBits - bits))) maxV =? 0)
         then Err (Thrown "Non-zero padding")
         else Ok acc.

(** A 5-bit word. *)
Definition word5 (x : Z) : Prop := 0 <= x < 32.

Definition toWords (bytes : list Z) : result (list Z) := convert bytes 8 5 true.
Definition fromWords (words : list Z) : result (list Z) := convert words 5 8 false.

End Bech32.

(** ** [cosmos.canonicalAddress] and [cosmos.humanAddress] *)

Module cosmos.
Local Open Scope result_scope.

(** [new Uint8Array(bech32.fromWords(bech32.decode(humanAddress).words))] *)
Definition canonicalAddress (humanAddress : string) : result (list byte) :=
  let? (_, words) := Bech32.decode humanAddress in
  let? bytes := Bech32.fromWords words in
  Ok (map Bytes.of_Z bytes).

(** [bech32.encode(hrp, bech32.toWords(canonicalAddress))]; the data is
    what indexing the argument yields, element by element. *)
Definition humanAddress (hrp : string) (canonicalAddress : list Z) : result string :=
  let? words := Bech32.toWords canonicalAddress in
  Bech32.encode hrp words.

End cosmos.

(** ** Base64, as [base64.encode] of ethers and [buf.toString('base64')] *)

Module Base64.

Definition alphabet : string :=
  "ABCDEFGHIJKLMNOPQRSTUVWXYZabcdefghijklmnopqrstuvwxyz0123456789+/".

Definition char (n : Z) : string :=
  match String.get (Z.to_nat (Z.land n 63)) alphabet with
  | Some c => String c ""
  | None => ""
  end.

Fixpoint encode (bs : list byte) : string :=
  match bs with
  | [] => ""
  | [a] =>
      let n := Bytes.to_Z a * 65536 in
      char (Z.shiftr n 18) +:+ char (Z.shiftr n 12) +:+ "=="
  | [a; b] =>
      let n := Bytes.to_Z a * 65536 + Bytes.to_Z b * 256 in
      char (Z.shiftr n 18) +:+ char (Z.shiftr n 12) +:+ char (Z.shiftr n 6) +:+ "="
  | a :: b :: c :: rest =>
      let n := Bytes.to_Z a * 65536 + Bytes.to_Z b * 256 + Bytes.to_Z c in
      char (Z.shiftr n 18) +:+ char (Z.shiftr n 12) +:+ char (Z.shiftr n 6)
        +:+ char n +:+ encode rest
  end.

End Base64.

(** ** Values the context exchanges with the rest of the SDK *)

(** [TokenId]: a token's home chain and its address there. *)
Record TokenId : Type := { tokenChain : Chain; tokenAddress : string }.

(** The contracts configured for a chain; every entry is optional. *)
Record Contracts : Type := { core : option string; token_bridge : option string }.

(** A connected [CosmWasmClient]; it talks to the endpoint it was created for. *)
Record CosmWasmClient : Type := { endpoint : string }.

#[global] Instance CosmWasmClient_eq_dec : EqDecision CosmWasmClient.
Proof. solve_decision. Defined.

(** The messages of [queryContractSmart] this context sends. *)
Inductive QueryMsg : Type :=
| wrapped_registry (chain : N) (address : string)
| is_vaa_redeemed (vaa : string).

(** What the context asks of the network, in the order it asks. *)
Inductive Request : Type :=
| Connect (rpc : string)
| QueryContractSmart (client : CosmWasmClient) (address : string) (msg : QueryMsg)
| GetTx (client : CosmWasmClient) (txId : string)
| GetSignedVAA (hosts : list string) (emitterChain : N)
               (emitterAddress : string) (sequence : string).

(** Transaction logs, as [cosmosLogs.parseRawLog] returns them. *)
Record Attribute : Type := { key : string; value : string }.
Record Event : Type := { type : string; attributes : list Attribute }.
Record Log : Type := { msg_index : Z; log : string; events : list Event }.

Record IndexedTx : Type := { height : Z; hash : string; rawLog : string }.

(** A parsed attestation and the transfer its payload carries. *)
Record ParsedVaa : Type := {
  emitterChain : N;
  emitterAddress : list byte;
  sequence : Z;
  payload : list byte
}.

Record TokenTransfer : Type := {
  payloadType : Z;
  amount : Z;
  toChain : N;
  to : list byte
}.

Record VaaInfo : Type := {
  transaction : IndexedTx;
  rawVaa : list byte;
  vaa : ParsedVaa
}.

Record Coin : Type := { denom : string; coin_amount : string }.
Record StdFee : Type := { fee_amount : list Coin; gas : string }.

(** [MsgExecuteContract], wrapped in an [EncodeObject] with its type URL. *)
Record MsgExecuteContract : Type := {
  sender : string;
  contract : string;
  msg : list byte;
  funds : list Coin
}.

Record EncodeObject : Type := { typeUrl : string; encoded : MsgExecuteContract }.

Record CosmosTransaction : Type := {
  fee : StdFee;
  msgs : list EncodeObject;
  memo : string
}.

(** ** The Wormhole context and the network

    What [this.context], [this.contracts] and the imported packages give the
    Cosmos context. The network answers depend on the requests made so far. *)
Record WormholeContext : Type := {
  toChainId : Chain -> result N;
  toChainName : Chain -> result string;
  rpcs : gmap string string;
  wormholeHosts : list string;
  mustGetContracts : Chain -> result Contracts;
  (** [getContext(chain).formatAssetAddress(address)] of the token's home chain *)
  homeFormatAssetAddress : Chain -> string -> result (list byte);
  (** packages *)
  parseVaa : list byte -> result ParsedVaa;
  parseTokenTransferPayload : list byte -> result TokenTransfer;
  parseRawLog : string -> result (list Log);
  calculateFee : Z -> string -> result StdFee;
  (** network: [None] from [connect] is a connection made *)
  connect : list Request -> string -> option Error;
  queryWrappedRegistry :
    list Request -> CosmWasmClient -> string -> N -> string -> result string;
  queryIsVaaRedeemed :
    list Request -> CosmWasmClient -> string -> string -> result bool;
  getTx : list Request -> CosmWasmClient -> string -> result (option IndexedTx);
  getSignedVAA :
    list Request -> list string -> N -> string -> string -> result (list byte)
}.

(** A Cosmos context: the shared Wormhole context and the chain it serves. *)
Record CosmosContext : Type := { context : WormholeContext; chain : Chain }.

(** The part of a context that changes: the cached client, and the
    requests sent to the network so far, oldest first. *)
Record World : Type := {
  wasmClient : option CosmWasmClient;
  requests : list Request
}.

Definition initial : World := {| wasmClient := None; requests := [] |}.

(** ** Asynchronous methods: a state and error monad over [World] *)

Definition Promise (A : Type) : Type := World -> result A * World.

Definition resolve {A : Type} (a : A) : Promise A := fun w => (Ok a, w).
Definition reject {A : Type} (e : Error) : Promise A := fun w => (Err e, w).

Definition await {A B : Type} (p : Promise A) (k : A -> Promise B) : Promise B :=
  fun w =>
    match p w with
    | (Ok a, w') => k a w'
    | (Err e, w') => (Err e, w')
    end.

(** A synchronous call that may throw. *)
Definition lift {A : Type} (r : result A) : Promise A := fun w => (r, w).

(** [try { p } catch (e) { h }] *)
Definition try_catch {A : Type} (p : Promise A) (h : Promise A) : Promise A :=
  fun w =>
    match p w with
    | (Ok a, w') => (Ok a, w')
    | (Err _, w') => h w'
    end.

(** [try { p } catch (e) { h(e) }] *)
Definition catch {A : Type} (p : Promise A) (h : Error -> Promise A) : Promise A :=
  fun w =>
    match p w with
    | (Ok a, w') => (Ok a, w')
    | (Err e, w') => h e w'
    end.

(** Send a request: it is recorded, then answered. *)
Definition request {A : Type} (r : Request) (answer : list Request -> result A)
  : Promise A :=
  fun w =>
    (answer (requests w),
     {| wasmClient := wasmClient w; requests := requests w ++ [r] |}).

Definition set_wasmClient (c : CosmWasmClient) : Promise unit :=
  fun w => (Ok tt, {| wasmClient := Some c; requests := requests w |}).

Definition get_wasmClient : Promise (option CosmWasmClient) :=
  fun w => (Ok (wasmClient w), w).

Declare Scope promise_scope.
Delimit Scope promise_scope with promise.
Notation "'let*' x := p 'in' k" := (await p (fun x => k))
  (at level 10, x pattern, p at level 100, k at level 200) : promise_scope.

(** ** ethers helpers *)

Module Ethers.
Local Open Scope result_scope.

(** [isHexString(value)]: [0x] followed by hex digits only. *)
Definition isHexString (value : string) : bool :=
  Js.startsWith "0x" value && Hex.all_digits (Js.substring_from 2 value).

Fixpoint strip_zeros (s : string) : string :=
  match s with
  | String "0" rest => strip_zeros rest
  | _ => s
  end.

(** [hexStripZeros(value)] on a string. *)
Definition hexStripZeros (value : string) : result string :=
  if isHexString value
  then Ok ("0x" +:+ strip_zeros (Js.substring_from 2 value))
  else Err (Thrown "invalid hex string").

(** [zeroPad(value, length)]: zero bytes on the left, up to [length]. *)
Definition zeroPad (value : list byte) (len : nat) : result (list byte) :=
  if (len <? length value)%nat then Err (Thrown "value out of range")
  else Ok (repeat x00 (len - length value) ++ value).

(** [arrayify(value)] on a string: the bytes of an even-length hex string. *)
Definition arrayify (value : string) : result (list byte) :=
  if isHexString value then
    let hex := Js.substring_from 2 value in
    if Nat.even (String.length hex) then Ok (Hex.decode hex)
    else Err (Thrown "hex data is odd-length")
  else Err (Thrown "invalid arrayify value").

End Ethers.

(** ** The Cosmos context *)

Definition NATIVE_DENOMS : gmap string string :=
  list_to_map [("osmosis", "uosmo"); ("wormchain", "uworm")].

Definition PREFIXES : gmap string string :=
  list_to_map [("osmosis", "osmo"); ("wormchain", "wormchain")].

Definition MSG_EXECUTE_CONTRACT_TYPE_URL : string :=
  "/cosmwasm.wasm.v1.MsgExecuteContract".

(** The members every object literal inherits from [Object.prototype]. *)
Definition Object_prototype : list string :=
  ["constructor"; "__defineGetter__"; "__defineSetter__"; "hasOwnProperty";
   "__lookupGetter__"; "__lookupSetter__"; "isPrototypeOf";
   "propertyIsEnumerable"; "toString"; "valueOf"; "__proto__";
   "toLocaleString"].

(** [!!table[key]] for an arbitrary string [key]: an own entry that is not
    empty, or an inherited member (a function or an object, so truthy). *)
Definition has_truthy (table : gmap string string) (key : string) : bool :=
  match table !! key with
  | Some v => Js.truthy v
  | None => bool_decide (key ∈ Object_prototype)
  end.

(** [table[chain]] for a [ChainName | ChainId]: a name is looked up (no
    chain name is a member of [Object.prototype]); a number is no key of
    these tables. An empty entry counts as absent, as [!entry] does. *)
Definition chain_entry (table : gmap string string) (c : Chain) : option string :=
  match c with
  | ChainName name =>
      match table !! name with
      | Some v => if Js.truthy v then Some v else None
      | None => None
      end
  | ChainId _ => None
  end.

(** The [any] that [parseAddress] receives: a string or a byte array. *)
Inductive Address : Type :=
| AddrString (s : string)
| AddrBytes (b : list byte).

Definition dquote : string := String (ascii_of_nat 34) "".

(** [JSON.stringify({ submit_vaa: { data } })] *)
Definition submit_vaa_json (data : string) : string :=
  "{" +:+ dquote +:+ "submit_vaa" +:+ dquote +:+ ":{" +:+ dquote +:+ "data"
      +:+ dquote +:+ ":" +:+ dquote +:+ data +:+ dquote +:+ "}}".

Definition buildExecuteMsg (sender contract : string) (msg : string)
  : EncodeObject :=
  {| typeUrl := MSG_EXECUTE_CONTRACT_TYPE_URL;
     encoded := {| sender := sender; contract := contract;
                   msg := Bytes.of_string msg; funds := [] |} |}.

(** The methods of [CosmosContext]. An argument the body never reads
    ([relayerFee] of [send], [overrides] of [redeem]) is left out; the token
    of [send] is [None] for ['native']. *)
Module Context.
Local Open Scope result_scope.
Local Open Scope promise_scope.

Definition send (this : CosmosContext) (token : option TokenId) (amount : string)
           (sendingChain : Chain) (senderAddress : string)
           (recipientChain : Chain) (recipientAddress : string)
  : Promise CosmosTransaction :=
  reject MethodNotImplemented.

Definition sendWithPayload (this : CosmosContext) (token : option TokenId)
           (amount : string) (sendingChain : Chain) (senderAddress : string)
           (recipientChain : Chain) (recipientAddress : string)
           (payload : list byte)
  : Promise CosmosTransaction :=
  reject MethodNotImplemented.

Definition formatAddress (address : string) : result (list byte) :=
  let? canonical := cosmos.canonicalAddress address in
  Ethers.zeroPad canonical 32.

(** The number a character gives under a bit operator: its digit, or 0. *)
Definition char_number (c : ascii) : Z :=
  let n := Z.of_nat (nat_of_ascii c) in
  if (48 <=? n) && (n <=? 57) then n - 48 else 0.

(** The [addr] handed to [humanAddress]: a [0x] string loses its leading
    zero digits and is read as hex; anything else goes through as it is. *)
Definition address_data (address : Address) : result (list Z) :=
  match address with
  | AddrString s =>
      if Js.startsWith "0x" s then
        let? stripped := Ethers.hexStripZeros s in
        Ok (map Bytes.to_Z (Hex.decode (Js.substring_from 2 stripped)))
      else Ok (map char_number (list_ascii_of_string s))
  | AddrBytes b => Ok (map Bytes.to_Z b)
  end.

Definition parseAddress (this : CosmosContext) (address : Address) : result string :=
  match chain_entry PREFIXES (chain this) with
  | None => Err (PrefixNotFound (chain this))
  | Some prefix =>
      let? addr := address_data address in
      cosmos.humanAddress prefix addr
  end.

Definition buildTokenId (address : string) : string :=
  let isNative := has_truthy NATIVE_DENOMS address in
  (if isNative then "01" else "00")
    +:+ Js.substring_from 4 (Keccak.keccak256 (Bytes.of_string address)).

Definition formatAssetAddress (this : CosmosContext) (address : string)
  : Promise (list byte) :=
  resolve (Hex.decode (buildTokenId address)).

Definition parseAssetAddress (this : CosmosContext) (address : Address)
  : Promise string :=
  match chain_entry PREFIXES (chain this) with
  | None => reject (PrefixNotFound (chain this))
  | Some prefix =>
      let* addr := lift (address_data address) in
      lift (cosmos.humanAddress prefix addr)
  end.

Definition getCosmWasmClient (this : CosmosContext) (chain : Chain)
  : Promise CosmWasmClient :=
  let* cached := get_wasmClient in
  match cached with
  | Some client => resolve client
  | None =>
      let* name := lift (toChainName (context this) chain) in
      match rpcs (context this) !! name with
      | None => reject RpcNotConfigured
      | Some rpc =>
          if negb (Js.truthy rpc) then reject RpcNotConfigured
          else
            let* _ := request (Connect rpc)
                        (fun sent => match connect (context this) sent rpc with
                                     | None => Ok tt
                                     | Some e => Err e
                                     end) in
            let client := {| endpoint := rpc |} in
            let* _ := set_wasmClient client in
            resolve client
      end
  end.

(** [token_bridge] of the contracts, if there and not empty. *)
Definition token_bridge_of (c : Contracts) : option string :=
  match token_bridge c with
  | Some a => if Js.truthy a then Some a else None
  | None => None
  end.

Definition getForeignAsset (this : CosmosContext) (tokenId : TokenId) (chain : Chain)
  : Promise (option string) :=
  let* toChainId_ := lift (toChainId (context this) chain) in
  let* chainId := lift (toChainId (context this) (tokenChain tokenId)) in
  if N.eqb toChainId_ chainId then resolve (Some (tokenAddress tokenId))
  else
    let* wasmClient := getCosmWasmClient this chain in
    let* contracts := lift (mustGetContracts (context this) chain) in
    match token_bridge_of contracts with
    | None => reject TokenBridgeNotFound
    | Some tokenBridgeAddress =>
        let* tokenAddr :=
          lift (homeFormatAssetAddress (context this) (tokenChain tokenId)
                                       (tokenAddress tokenId)) in
        let base64Addr := Base64.encode tokenAddr in
        try_catch
          (let* address :=
             request (QueryContractSmart wasmClient tokenBridgeAddress
                        (wrapped_registry chainId base64Addr))
                     (fun sent => queryWrappedRegistry (context this) sent wasmClient
                                    tokenBridgeAddress chainId base64Addr) in
           resolve (Some address))
          (resolve None)
    end.

Definition mustGetForeignAsset (this : CosmosContext) (tokenId : TokenId)
           (chain : Chain) : Promise string :=
  let* assetAdddress := getForeignAsset this tokenId chain in
  match assetAdddress with
  | Some a => if Js.truthy a then resolve a else reject TokenNotRegistered
  | None => reject TokenNotRegistered
  end.

Definition getNativeDenom (this : CosmosContext) (chain : Chain) : result string :=
  let? name := toChainName (context this) chain in
  match chain_entry NATIVE_DENOMS (ChainName name) with
  | None => Err (NativeDenomNotFound chain)
  | Some denom => Ok denom
  end.

Definition getPrefix (this : CosmosContext) (chain : Chain) : result string :=
  let? name := toChainName (context this) chain in
  match chain_entry PREFIXES (ChainName name) with
  | None => Err (PrefixNotFound chain)
  | Some prefix => Ok prefix
  end.

Definition getTokenBridgeAddress (this : CosmosContext) (chain : string)
  : result string :=
  let? contracts := mustGetContracts (context this) (ChainName chain) in
  match token_bridge_of contracts with
  | None => Err (NoTokenBridge chain)
  | Some tokenBridge => Ok tokenBridge
  end.

(** [payerAddr || recipient] *)
Definition payer_or (payerAddr : option string) (recipient : string) : string :=
  match payerAddr with
  | Some p => if Js.truthy p then p else recipient
  | None => recipient
  end.

Definition redeem (this : CosmosContext) (destChain : Chain)
           (signedVAA : list byte) (payerAddr : option string)
  : Promise CosmosTransaction :=
  let* chainName := lift (toChainName (context this) destChain) in
  let* vaa := lift (parseVaa (context this) signedVAA) in
  let* transfer := lift (parseTokenTransferPayload (context this) (payload vaa)) in
  let* denom := lift (getNativeDenom this (ChainName chainName)) in
  let* prefix := lift (getPrefix this (ChainName chainName)) in
  (* transfer to comes as a 32 byte array, but cosmos addresses are 20 bytes *)
  let* recipient :=
    lift (cosmos.humanAddress prefix
            (map Bytes.to_Z (Bytes.slice_from 12 (to transfer)))) in
  let* tokenBridge := lift (getTokenBridgeAddress this chainName) in
  let msgs :=
    [buildExecuteMsg (payer_or payerAddr recipient) tokenBridge
                     (submit_vaa_json (Base64.encode signedVAA))] in
  let* fee := lift (calculateFee (context this) 1000000 ("0.1" +:+ denom)) in
  resolve {| msgs := msgs; fee := fee; memo := "Wormhole - Complete Transfer" |}.

Definition isTransferCompleted (this : CosmosContext) (destChain : Chain)
           (signedVaa : string) : Promise bool :=
  let* contracts := lift (mustGetContracts (context this) (chain this)) in
  match token_bridge_of contracts with
  | None => reject TokenBridgeNotFound
  | Some tokenBridgeAddress =>
      let* client := getCosmWasmClient this destChain in
      let* bytes := lift (Ethers.arrayify signedVaa) in
      let vaa := Base64.encode bytes in
      request (QueryContractSmart client tokenBridgeAddress (is_vaa_redeemed vaa))
              (fun sent => queryIsVaaRedeemed (context this) sent client
                             tokenBridgeAddress vaa)
  end.

(** The first attribute with the key, over logs, events and attributes
    in order. *)
Definition searchLogs (key_ : string) (logs : list Log) : option string :=
  let attrs := flat_map (fun l => flat_map attributes (events l)) logs in
  match List.find (fun a => String.eqb (key a) key_) attrs with
  | Some a => Some (value a)
  | None => None
  end.

(** [getSignedVAAWithRetry] of the package [@certusone/wormhole-sdk], which
    is not among the sources; this is the loop the package publishes:

      let attempts = 0;
      while (!result) {
        attempts++;
        await new Promise((resolve) => setTimeout(resolve, retryTimeout));
        try { result = await getSignedVAA(hosts[getNextRpcHost()], ...); }
        catch (e) {
          if (retryAttempts !== undefined && attempts > retryAttempts) throw e;
        }
      }
      return result;

    The error of an attempt is dropped while [attempts <= retryAttempts] and
    thrown again by the first attempt after that. The recursion counts down
    the failures still to be dropped, [retryAttempts - (attempts - 1)], where
    the loop counts the attempts up. The hosts are asked in turn; a request
    records their list, and the answer may depend on the requests sent
    before. The pause before an attempt is not modelled. *)
Fixpoint getSignedVAAWithRetry (this : CosmosContext) (hosts : list string)
         (emitterChain : N) (emitterAddress sequence : string)
         (retryAttempts : nat) : Promise (list byte) :=
  catch
    (request (GetSignedVAA hosts emitterChain emitterAddress sequence)
             (fun sent => getSignedVAA (context this) sent hosts emitterChain
                            emitterAddress sequence))
    (fun e =>
       match retryAttempts with
       | O => reject e
       | S remaining =>
           getSignedVAAWithRetry this hosts emitterChain emitterAddress sequence
                                 remaining
       end).

Definition getVaa (this : CosmosContext) (txId : string) (chain : Chain)
  : Promise VaaInfo :=
  let* client := getCosmWasmClient this chain in
  let* tx := request (GetTx client txId)
                     (fun sent => getTx (context this) sent client txId) in
  match tx with
  | None => reject TxNotFound
  | Some tx =>
      let* logs := lift (parseRawLog (context this) (rawLog tx)) in
      match searchLogs "message.sequence" logs with
      | None => reject SequenceNotFound
      | Some sequence =>
          if negb (Js.truthy sequence) then reject SequenceNotFound
          else
            match searchLogs "message.sender" logs with
            | None => reject EmitterNotFound
            | Some emitterAddress =>
                if negb (Js.truthy emitterAddress) then reject EmitterNotFound
                else
                  let* chainId := lift (toChainId (context this) chain) in
                  let* vaaBytes :=
                    getSignedVAAWithRetry this (wormholeHosts (context this))
                                          chainId emitterAddress sequence 3 in
                  let* parsed := lift (parseVaa (context this) vaaBytes) in
                  resolve {| transaction := tx; rawVaa := vaaBytes; vaa := parsed |}
            end
      end
  end.

End Context.

(** ** The error kinds of the specification

    The context raises plain errors; the specification names kinds. A
    missing endpoint, contract, prefix or denomination is a configuration
    error. *)
Inductive ErrorKind : Type :=
| KConfigurationError
| KNotRegistered
| KNotImplemented
| KAttestationUnavailable
| KOther.

Definition kind (e : Error) : ErrorKind :=
  match e with
  | MethodNotImplemented | NotImplemented => KNotImplemented
  | PrefixNotFound _ | NativeDenomNotFound _ | TokenBridgeNotFound
  | NoTokenBridge _ | RpcNotConfigured => KConfigurationError
  | TokenNotRegistered => KNotRegistered
  | AttestationUnavailable => KAttestationUnavailable
  | TxNotFound | SequenceNotFound | EmitterNotFound | Thrown _ => KOther
  end.

(** ** A configured deployment, to run the context on

    Osmosis (chain 20) and Wormchain (chain 3104) with endpoints and token
    bridges, Ethereum (chain 2) as a foreign home chain, and a guardian
    network that answers the third request for an attestation. *)
Module Sample.

Definition chain_id (c : Chain) : result N :=
  match c with
  | ChainId n => Ok n
  | ChainName name =>
      if String.eqb name "osmosis" then Ok 20%N
      else if String.eqb name "wormchain" then Ok 3104%N
      else if String.eqb name "ethereum" then Ok 2%N
      else Err (Thrown "unknown chain")
  end.

Definition chain_name (c : Chain) : result string :=
  match c with
  | ChainName name => Ok name
  | ChainId n =>
      if N.eqb n 20 then Ok "osmosis"
      else if N.eqb n 3104 then Ok "wormchain"
      else if N.eqb n 2 then Ok "ethereum"
      else Err (Thrown "unknown chain")
  end.

Definition osmosis_bridge : string := "osmo1tokenbridge".
Definition wormchain_bridge : string := "wormchain1tokenbridge".

Definition contracts (c : Chain) : result Contracts :=
  match chain_name c with
  | Ok name =>
      if String.eqb name "osmosis"
      then Ok {| core := Some "osmo1core"; token_bridge := Some osmosis_bridge |}
      else if String.eqb name "wormchain"
      then Ok {| core := Some "wormchain1core"; token_bridge := Some wormchain_bridge |}
      else Err (Thrown "no contracts found")
  | Err e => Err e
  end.

Definition tx : IndexedTx :=
  {| height := 100; hash := "A1B2"; rawLog := "[]" |}.

Definition logs : list Log :=
  [{| msg_index := 0; log := "";
      events := [{| type := "wasm";
                    attributes := [{| key := "message.sender"; value := "wormchain1emitter" |};
                                   {| key := "message.sequence"; value := "42" |}] |}] |}].

Definition is_guardian_request (r : Request) : bool :=
  match r with
  | GetSignedVAA _ _ _ _ => true
  | _ => false
  end.

(** The transfer payload layout: the recipient is bytes 67 to 98. *)
Definition transfer_of (payload : list byte) : result TokenTransfer :=
  if (length payload <? 101)%nat then Err (Thrown "payload too short")
  else Ok {| payloadType := 1; amount := 0; toChain := 20%N;
             to := firstn 32 (skipn 67 payload) |}.

Definition wormhole : WormholeContext :=
  {| toChainId := chain_id;
     toChainName := chain_name;
     rpcs := list_to_map [("osmosis", "https://rpc.osmosis.example");
                          ("wormchain", "https://rpc.wormchain.example")];
     wormholeHosts := ["https://guardian.example"];
     mustGetContracts := contracts;
     homeFormatAssetAddress := fun _ a => Ok (Hex.decode (Context.buildTokenId a));
     parseVaa := fun bytes =>
       Ok {| emitterChain := 20%N; emitterAddress := []; sequence := 42;
             payload := bytes |};
     parseTokenTransferPayload := transfer_of;
     parseRawLog := fun _ => Ok logs;
     calculateFee := fun gasLimit price =>
       Ok {| fee_amount := [{| denom := Js.substring_from 3 price;
                               coin_amount := "100000" |}];
             gas := "1000000" |};
     connect := fun _ _ => None;
     queryWrappedRegistry := fun _ _ _ _ _ => Err (Thrown "not found");
     queryIsVaaRedeemed := fun _ _ _ _ => Ok false;
     getTx := fun _ _ _ => Ok (Some tx);
     getSignedVAA := fun sent _ _ _ _ =>
       if (length (filter (fun r => is_guardian_request r = true) sent) <? 2)%nat
       then Err (Thrown "requested VAA not found in store")
       else Ok [x01; x02; x03] |}.

(** The same deployment with no endpoint and no contract configured. *)
Definition unconfigured : WormholeContext :=
  {| toChainId := chain_id;
     toChainName := chain_name;
     rpcs := ∅;
     wormholeHosts := [];
     mustGetContracts := fun _ => Err (Thrown "no contracts found");
     homeFormatAssetAddress := homeFormatAssetAddress wormhole;
     parseVaa := parseVaa wormhole;
     parseTokenTransferPayload := parseTokenTransferPayload wormhole;
     parseRawLog := parseRawLog wormhole;
     calculateFee := calculateFee wormhole;
     connect := connect wormhole;
     queryWrappedRegistry := queryWrappedRegistry wormhole;
     queryIsVaaRedeemed := queryIsVaaRedeemed wormhole;
     getTx := getTx wormhole;
     getSignedVAA := getSignedVAA wormhole |}.

(** The same deployment with guardians that never answer. *)
Definition silent : WormholeContext :=
  {| toChainId := chain_id;
     toChainName := chain_name;
     rpcs := rpcs wormhole;
     wormholeHosts := wormholeHosts wormhole;
     mustGetContracts := contracts;
     homeFormatAssetAddress := homeFormatAssetAddress wormhole;
     parseVaa := parseVaa wormhole;
     parseTokenTransferPayload := parseTokenTransferPayload wormhole;
     parseRawLog := parseRawLog wormhole;
     calculateFee := calculateFee wormhole;
     connect := connect wormhole;
     queryWrappedRegistry := queryWrappedRegistry wormhole;
     queryIsVaaRedeemed := queryIsVaaRedeemed wormhole;
     getTx := getTx wormhole;
     getSignedVAA := fun _ _ _ _ _ => Err (Thrown "requested VAA not found in store") |}.

Definition osmosis : CosmosContext :=
  {| context := wormhole; chain := ChainName "osmosis" |}.


(** An account on Osmosis: the 20 bytes 01 .. 14. *)
Definition account : string := "osmo1qypqxpq9qcrsszg2pvxq6rs0zqg3yyc5helwsw".

End Sample.

(** Calls of [getCosmWasmClient] made one after the other, each awaited;
    a failed call does not stop the later ones. *)
Fixpoint getCosmWasmClient_each (this : CosmosContext) (chains : list Chain)
         (w : World) : list (result CosmWasmClient) * World :=
  match chains with
  | [] => ([], w)
  | chain :: rest =>
      let '(r, w1) := Context.getCosmWasmClient this chain w in
      let '(rs, w2) := getCosmWasmClient_each this rest w1 in
      (r :: rs, w2)
  end.

(** ** Calls in flight

    An [async] method runs as far as its first [await] when it is called,
    and from there on once the awaited promise has settled; other calls can
    begin in between. [getCosmWasmClient] awaits once, on
    [CosmWasmClient.connect]: the test of [this.wasmClient] is made before,
    the assignment after. *)
Inductive InFlight : Type :=
| Returned (r : result CosmWasmClient)
| Connecting (rpc : string) (refused : option Error).

(** [getCosmWasmClient] as far as its [await]. *)
Definition getCosmWasmClient_begin (this : CosmosContext) (chain : Chain) (w : World)
  : InFlight * World :=
  match wasmClient w with
  | Some client => (Returned (Ok client), w)
  | None =>
      match toChainName (context this) chain with
      | Err e => (Returned (Err e), w)
      | Ok name =>
          match rpcs (context this) !! name with
          | None => (Returned (Err RpcNotConfigured), w)
          | Some rpc =>
              if negb (Js.truthy rpc) then (Returned (Err RpcNotConfigured), w)
              else (Connecting rpc (connect (context this) (requests w) rpc),
                    {| wasmClient := wasmClient w;
                       requests := requests w ++ [Connect rpc] |})
          end
      end
  end.

(** [getCosmWasmClient] from its [await] on: the client is stored, then
    returned. *)
Definition getCosmWasmClient_resume (call : InFlight) (w : World)
  : result CosmWasmClient * World :=
  match call with
  | Returned r => (r, w)
  | Connecting rpc (Some e) => (Err e, w)
  | Connecting rpc None =>
      let client := {| endpoint := rpc |} in
      (Ok client, {| wasmClient := Some client; requests := requests w |})
  end.




(** The last [n] bytes of a byte array. *)
Definition last_bytes (n : nat) (b : list byte) : list byte :=
  skipn (length b - n) b.

(** The discriminator byte of a synthetic asset id. *)
Definition discriminator (address : string) : byte :=
  if has_truthy NATIVE_DENOMS address then x01 else x00.

(** The world after the request [ask] has been sent [n] more times. *)
Definition asked (ask : Request) (w : World) (n : nat) : World :=
  {| wasmClient := wasmClient w; requests := requests w ++ repeat ask n |}.

(** ** Further deployments, for the edge cases *)

Module Cases.

(** [c] with other answers from the network. *)
Definition with_network (c : WormholeContext)
           (connect' : list Request -> string -> option Error)
           (registry' : list Request -> CosmWasmClient -> string -> N -> string
                        -> result string)
           (getTx' : list Request -> CosmWasmClient -> string
                     -> result (option IndexedTx))
  : WormholeContext :=
  {| toChainId := toChainId c;
     toChainName := toChainName c;
     rpcs := rpcs c;
     wormholeHosts := wormholeHosts c;
     mustGetContracts := mustGetContracts c;
     homeFormatAssetAddress := homeFormatAssetAddress c;
     parseVaa := parseVaa c;
     parseTokenTransferPayload := parseTokenTransferPayload c;
     parseRawLog := parseRawLog c;
     calculateFee := calculateFee c;
     connect := connect';
     queryWrappedRegistry := registry';
     queryIsVaaRedeemed := queryIsVaaRedeemed c;
     getTx := getTx';
     getSignedVAA := getSignedVAA c |}.

(** [c] with other transaction logs and other contracts. *)
Definition with_config (c : WormholeContext)
           (parseRawLog' : string -> result (list Log))
           (mustGetContracts' : Chain -> result Contracts)
  : WormholeContext :=
  {| toChainId := toChainId c;
     toChainName := toChainName c;
     rpcs := rpcs c;
     wormholeHosts := wormholeHosts c;
     mustGetContracts := mustGetContracts';
     homeFormatAssetAddress := homeFormatAssetAddress c;
     parseVaa := parseVaa c;
     parseTokenTransferPayload := parseTokenTransferPayload c;
     parseRawLog := parseRawLog';
     calculateFee := calculateFee c;
     connect := connect c;
     queryWrappedRegistry := queryWrappedRegistry c;
     queryIsVaaRedeemed := queryIsVaaRedeemed c;
     getTx := getTx c;
     getSignedVAA := getSignedVAA c |}.

(** [c] with other guardians. *)
Definition with_guardians (c : WormholeContext)
           (getSignedVAA' : list Request -> list string -> N -> string -> string
                            -> result (list byte))
  : WormholeContext :=
  {| toChainId := toChainId c;
     toChainName := toChainName c;
     rpcs := rpcs c;
     wormholeHosts := wormholeHosts c;
     mustGetContracts := mustGetContracts c;
     homeFormatAssetAddress := homeFormatAssetAddress c;
     parseVaa := parseVaa c;
     parseTokenTransferPayload := parseTokenTransferPayload c;
     parseRawLog := parseRawLog c;
     calculateFee := calculateFee c;
     connect := connect c;
     queryWrappedRegistry := queryWrappedRegistry c;
     queryIsVaaRedeemed := queryIsVaaRedeemed c;
     getTx := getTx c;
     getSignedVAA := getSignedVAA' |}.

(** The guardians answer the fourth request for an attestation. *)
Definition late_guardians : WormholeContext :=
  with_guardians Sample.wormhole
    (fun sent _ _ _ _ =>
       if (length (filter (fun r => Sample.is_guardian_request r = true) sent) <? 3)%nat
       then Err (Thrown "requested VAA not found in store")
       else Ok [x01; x02; x03]).

(** The guardian requests among the requests sent. *)
Definition guardian_requests (w : World) : list Request :=
  filter (fun r => Sample.is_guardian_request r = true) (requests w).

(** The network refuses the first connection and accepts the later ones. *)
Definition flaky : WormholeContext :=
  with_network Sample.wormhole
    (fun sent _ => match sent with
                   | [] => Some (Thrown "connection refused")
                   | _ => None
                   end)
    (queryWrappedRegistry Sample.wormhole) (getTx Sample.wormhole).

(** The wrapped-asset registry of Osmosis knows the Ethereum token. *)
Definition registered : WormholeContext :=
  with_network Sample.wormhole (connect Sample.wormhole)
    (fun _ _ _ _ _ => Ok "osmo1wrappedtoken") (getTx Sample.wormhole).

(** The node does not know the transaction. *)
Definition unknown_tx : WormholeContext :=
  with_network Sample.wormhole (connect Sample.wormhole)
    (queryWrappedRegistry Sample.wormhole) (fun _ _ _ => Ok None).

(** The transaction logs carry a sender and no sequence. *)
Definition no_sequence : WormholeContext :=
  with_config Sample.wormhole
    (fun _ => Ok [{| msg_index := 0; log := "";
                     events := [{| type := "wasm";
                                   attributes := [{| key := "message.sender";
                                                     value := "wormchain1emitter" |}] |}] |}])
    (mustGetContracts Sample.wormhole).

(** Osmosis has a core contract and no token bridge. *)
Definition no_bridge : WormholeContext :=
  with_config Sample.wormhole (parseRawLog Sample.wormhole)
    (fun _ => Ok {| core := Some "osmo1core"; token_bridge := None |}).

Definition ethereum_token : TokenId :=
  {| tokenChain := ChainName "ethereum";
     tokenAddress := "0xC02aaA39b223FE8D0A0e5C4F27eAD9083C756Cc2" |}.

End Cases.

(** ** Balances, decimals and block height

    The remaining queries of the context go to the bank module of the node
    and to token contracts. Their requests are kept in a log of their own,
    beside the world; an answer may depend on both logs. *)

Inductive NodeRequest : Type :=
| GetBalance (client : CosmWasmClient) (address : string) (searchDenom : option string)
| QueryBalance (client : CosmWasmClient) (token : string) (address : string)
| QueryTokenInfo (client : CosmWasmClient) (token : string)
| GetHeight (client : CosmWasmClient).

(** The node's answers: the [amount] of the coin of [getBalance], the
    [balance] and the [decimals] of the two contract queries, the height; and
    [BigNumber.from] on a string. *)
Record Node : Type := {
  getBalance : list Request -> list NodeRequest -> CosmWasmClient -> string
               -> option string -> result string;
  queryBalance : list Request -> list NodeRequest -> CosmWasmClient -> string
                 -> string -> result string;
  queryTokenInfo : list Request -> list NodeRequest -> CosmWasmClient -> string
                   -> result Z;
  getHeight : list Request -> list NodeRequest -> CosmWasmClient -> result Z;
  BigNumber_from : string -> result Z
}.

Definition Ledger : Type := World * list NodeRequest.

Definition Async (A : Type) : Type := Ledger -> result A * Ledger.

Definition resolved {A : Type} (a : A) : Async A := fun l => (Ok a, l).
Definition rejected {A : Type} (e : Error) : Async A := fun l => (Err e, l).

Definition then_ {A B : Type} (p : Async A) (k : A -> Async B) : Async B :=
  fun l =>
    match p l with
    | (Ok a, l') => k a l'
    | (Err e, l') => (Err e, l')
    end.

(** A method of the context that works on the world alone. *)
Definition on_world {A : Type} (p : Promise A) : Async A :=
  fun l => let '(r, w') := p (fst l) in (r, (w', snd l)).

Definition thrown {A : Type} (r : result A) : Async A := fun l => (r, l).

Definition ask_node {A : Type} (r : NodeRequest)
           (answer : list Request -> list NodeRequest -> result A) : Async A :=
  fun l => (answer (requests (fst l)) (snd l), (fst l, snd l ++ [r])).

Declare Scope async_scope.
Delimit Scope async_scope with async.
Notation "'let+' x := p 'in' k" := (then_ p (fun x => k))
  (at level 10, x pattern, p at level 100, k at level 200) : async_scope.

Module Balances.
Local Open Scope async_scope.

(** [asset || NATIVE_DENOMS[name]] *)
Definition asset_or_native (asset : option string) (name : string) : option string :=
  match asset with
  | Some a => if Js.truthy a then Some a else NATIVE_DENOMS !! name
  | None => NATIVE_DENOMS !! name
  end.

Definition getNativeBalance (this : CosmosContext) (node : Node)
           (walletAddress : string) (chain : Chain) (asset : option string)
  : Async Z :=
  let+ name := thrown (toChainName (context this) chain) in
  let+ client := on_world (Context.getCosmWasmClient this (ChainName name)) in
  let searchDenom := asset_or_native asset name in
  let+ amount := ask_node (GetBalance client walletAddress searchDenom)
                   (fun sent asked => getBalance node sent asked client walletAddress
                                        searchDenom) in
  thrown (BigNumber_from node amount).

Definition getTokenBalance (this : CosmosContext) (node : Node)
           (walletAddress : string) (tokenId : TokenId) (chain : Chain)
  : Async (option Z) :=
  let+ assetAddress := on_world (Context.getForeignAsset this tokenId chain) in
  match assetAddress with
  | None => resolved None
  | Some assetAddress =>
      if negb (Js.truthy assetAddress) then resolved None
      else
        let+ native := thrown (Context.getNativeDenom this chain) in
        if String.eqb assetAddress native then
          let+ balance := getNativeBalance this node walletAddress chain None in
          resolved (Some balance)
        else
          let+ client := on_world (Context.getCosmWasmClient this chain) in
          let+ balance := ask_node (QueryBalance client assetAddress walletAddress)
                            (fun sent asked => queryBalance node sent asked client
                                                 assetAddress walletAddress) in
          let+ n := thrown (BigNumber_from node balance) in
          resolved (Some n)
  end.

Definition fetchTokenDecimals (this : CosmosContext) (node : Node)
           (tokenAddr : string) (chain : Chain) : Async Z :=
  let+ native := thrown (Context.getNativeDenom this chain) in
  if String.eqb tokenAddr native then resolved 6
  else
    let+ client := on_world (Context.getCosmWasmClient this chain) in
    ask_node (QueryTokenInfo client tokenAddr)
             (fun sent asked => queryTokenInfo node sent asked client tokenAddr).

Definition getCurrentBlock (this : CosmosContext) (node : Node) : Async Z :=
  let+ client := on_world (Context.getCosmWasmClient this (chain this)) in
  ask_node (GetHeight client) (fun sent asked => getHeight node sent asked client).

(** A node that holds 250 units of every coin and of every token, whose
    tokens have 8 decimals, at height 1000; amounts are read as decimal
    digits. *)
Definition decimal (s : string) : result Z :=
  fold_left (fun acc c =>
               match acc with
               | Ok n =>
                   let d := Z.of_nat (nat_of_ascii c) - 48 in
                   if (0 <=? d) && (d <=? 9) then Ok (10 * n + d)
                   else Err (Thrown "invalid BigNumber string")
               | Err e => Err e
               end)
            (list_ascii_of_string s)
            (if String.eqb s "" then Err (Thrown "invalid BigNumber string") else Ok 0).

Definition node : Node :=
  {| getBalance := fun _ _ _ _ _ => Ok "250";
     queryBalance := fun _ _ _ _ _ => Ok "250";
     queryTokenInfo := fun _ _ _ _ => Ok 8;
     getHeight := fun _ _ _ => Ok 1000;
     BigNumber_from := decimal |}.

End Balances.

(** ** Wormhole Connect: configuration checks and the bridge route

    [validateResourceMap] and [validateDefaults] of the configuration, and
    [BridgeRoute.isRouteAvailable]. [CHAINS], [TOKENS] and [config] come from
    the configuration module and are parameters; what [console.error] prints
    is collected, oldest first. *)

Module Connect.

Record ChainConfig : Type := { chain_key : string }.

Record TokenConfig : Type := {
  token_id : option TokenId;
  nativeNetwork : string;
  wrappedAsset : option string
}.

Record BridgeDefaults : Type := {
  fromNetwork : option string;
  toNetwork : option string;
  token : option string;
  requiredNetwork : option string
}.

Record WormholeConnectConfig : Type := {
  config_rpcs : option (gmap string string);
  config_rest : option (gmap string string);
  networks : option (list string)
}.

Inductive ResourceField : Type := field_rpcs | field_rest.

Definition field_name (f : ResourceField) : string :=
  match f with field_rpcs => "rpcs" | field_rest => "rest" end.

Definition field_of (c : WormholeConnectConfig) (f : ResourceField)
  : option (gmap string string) :=
  match f with field_rpcs => config_rpcs c | field_rest => config_rest c end.

Definition newline : string := String (ascii_of_nat 10) "".

(** [error(msg)]: the line printed. *)
Definition error (msg : string) : string := "Wormhole Connect:" +:+ newline +:+ msg.

(** Truthiness of an optional string: there, and not empty. *)
Definition given (o : option string) : bool :=
  match o with
  | Some s => Js.truthy s
  | None => false
  end.

(** [table[key]] on an object literal of configurations: the own entry,
    or the member every object inherits from [Object.prototype] (a function
    or an object: truthy, and with none of the fields read here), or
    [undefined]. *)
Inductive Member (A : Type) : Type :=
| Own (a : A)
| Inherited
| Undefined.
Arguments Own {A} a.
Arguments Inherited {A}.
Arguments Undefined {A}.

Definition member {A : Type} (table : gmap string A) (key : string) : Member A :=
  match table !! key with
  | Some a => Own a
  | None => if bool_decide (key ∈ Object_prototype) then Inherited else Undefined
  end.

(** Truthiness of what a lookup gives. *)
Definition defined {A : Type} (m : Member A) : bool :=
  match m with
  | Undefined => false
  | _ => true
  end.

(** [m.f] for a field [f] of the configurations. *)
Definition field {A B : Type} (f : A -> option B) (m : Member A) : option B :=
  match m with
  | Own a => f a
  | _ => None
  end.

Definition advice : string :=
  ". It is strongly recommended that you provide your own ".

Definition advice_end : string := " for the best performance and functionality".

(** [validateResourceMap(field)]: what it prints. [chains] are the keys of
    [CHAINS], in their order. [resourceMap[network]] is read from an object:
    a network named like a member every object inherits has an entry. *)
Definition validateResourceMap (config : option WormholeConnectConfig)
           (chains : list string) (field : ResourceField) : list string :=
  let f := field_name field in
  match config with
  | None =>
      [error ("WARNING! No custom " +:+ f +:+ " provided" +:+ advice +:+ f +:+ advice_end)]
  | Some c =>
      match field_of c field with
      | None =>
          [error ("WARNING! No custom " +:+ f +:+ " provided" +:+ advice +:+ f
                    +:+ advice_end)]
      | Some resourceMap =>
          let nets := match networks c with Some l => l | None => chains end in
          flat_map (fun network =>
                      if has_truthy resourceMap network then []
                      else [error ("WARNING! No custom " +:+ f +:+ " provided for "
                                     +:+ network +:+ advice +:+ f +:+ advice_end)])
                   nets
      end
  end.

Definition validateChainResources (config : option WormholeConnectConfig)
           (chains : list string) : list string :=
  validateResourceMap config chains field_rpcs
    ++ validateResourceMap config chains field_rest.

Definition quoted (s : string) : string := dquote +:+ s +:+ dquote.

Definition text (o : option string) : string :=
  match o with Some s => s | None => "undefined" end.

(** [validateDefaults(defaults)]: the defaults returned and the lines
    printed. The object returned is the argument itself, cleared field by
    field, while the tests read the fields as they were at the start, except
    the last one, which reads the object. [CHAINS] and [TOKENS] are object
    literals, so a name like [constructor] finds an inherited member.
    Destructuring an undefined token, or reading the key of an undefined
    chain, throws. *)
Definition validateDefaults (CHAINS : gmap string ChainConfig)
           (TOKENS : gmap string TokenConfig) (defaults : option BridgeDefaults)
  : result (option BridgeDefaults) * list string :=
  match defaults with
  | None => (Ok None, [])
  | Some defaults =>
      let from := fromNetwork defaults in
      let to_ := toNetwork defaults in
      let tok := token defaults in
      let required := requiredNetwork defaults in
      let valid := defaults in
      let printed := [] in
      let '(valid, printed) :=
        if given from && negb (defined (member CHAINS (text from)))
        then ({| fromNetwork := None; toNetwork := toNetwork valid;
                 token := token valid; requiredNetwork := requiredNetwork valid |},
              printed ++ [error ("Invalid chain name " +:+ quoted (text from)
                                   +:+ " specified for bridgeDefaults.fromNetwork")])
        else (valid, printed) in
      let '(valid, printed) :=
        if given to_ && negb (defined (member CHAINS (text to_)))
        then ({| fromNetwork := fromNetwork valid; toNetwork := None;
                 token := token valid; requiredNetwork := requiredNetwork valid |},
              printed ++ [error ("Invalid chain name " +:+ quoted (text to_)
                                   +:+ " specified for bridgeDefaults.toNetwork")])
        else (valid, printed) in
      let '(valid, printed) :=
        if given to_ && given from && String.eqb (text to_) (text from)
        then ({| fromNetwork := fromNetwork valid; toNetwork := None;
                 token := token valid; requiredNetwork := requiredNetwork valid |},
              printed ++ [error ("Source and destination chain cannot be the same, "
                                   +:+ "check the bridgeDefaults configuration")])
        else (valid, printed) in
      let '(valid, printed) :=
        if given to_ && given from && given required then
          let '(valid, printed) :=
            if negb (defined (member CHAINS (text required)))
            then ({| fromNetwork := fromNetwork valid; toNetwork := toNetwork valid;
                     token := token valid; requiredNetwork := None |},
                  printed ++ [error ("Invalid network value " +:+ quoted (text required)
                                       +:+ " specified for bridgeDefaults.requiredNetwork")])
            else (valid, printed) in
          if negb (String.eqb (text to_) (text required))
             && negb (String.eqb (text from) (text required))
          then ({| fromNetwork := fromNetwork valid; toNetwork := toNetwork valid;
                   token := token valid; requiredNetwork := None |},
                printed ++ [error ("Source chain or destination chain must equal "
                                     +:+ "the required network")])
          else (valid, printed)
        else (valid, printed) in
      let '(valid, printed) :=
        if given tok && negb (defined (member TOKENS (text tok)))
        then ({| fromNetwork := fromNetwork valid; toNetwork := toNetwork valid;
                 token := None; requiredNetwork := requiredNetwork valid |},
              printed ++ [error ("Invalid token " +:+ quoted (text tok)
                                   +:+ " specified for bridgeDefaults.token")])
        else (valid, printed) in
      if given (fromNetwork valid) && given (token valid) then
        let network := member CHAINS (text (fromNetwork valid)) in
        let tokenConfig := member TOKENS (text (token valid)) in
        if negb (defined tokenConfig)
        then (Err (Thrown "TypeError: cannot destructure undefined"), printed)
        else
          let tokenId := field token_id tokenConfig in
          let nativeNetwork_ := field (fun c => Some (nativeNetwork c)) tokenConfig in
          if bool_decide (is_Some tokenId) then (Ok (Some valid), printed)
          else if negb (defined network)
          then (Err (Thrown "TypeError: cannot read properties of undefined"), printed)
          else if negb (bool_decide
                          (nativeNetwork_ = field (fun c => Some (chain_key c)) network))
          then (Ok (Some {| fromNetwork := fromNetwork valid;
                            toNetwork := toNetwork valid;
                            token := None;
                            requiredNetwork := requiredNetwork valid |}),
                printed ++ [error ("Invalid token "
                                     +:+ quoted (text (token valid))
                                     +:+ " specified for bridgeDefaults.token. "
                                     +:+ "It does not exist on "
                                     +:+ quoted (text (fromNetwork valid)))])
          else (Ok (Some valid), printed)
      else (Ok (Some valid), printed)
  end.

(** Defaults that pass every test: the chains and the token they name are
    found in [CHAINS] and [TOKENS] (own entries, or inherited members), the
    two chains differ, a required chain beside both is one of them, and a
    token with no token id has the key of the source chain as its native
    network. *)
Definition valid_defaults (CHAINS : gmap string ChainConfig)
           (TOKENS : gmap string TokenConfig) (d : BridgeDefaults) : Prop :=
  (given (fromNetwork d) = true -> defined (member CHAINS (text (fromNetwork d))) = true)
  /\ (given (toNetwork d) = true -> defined (member CHAINS (text (toNetwork d))) = true)
  /\ (given (toNetwork d) = true -> given (fromNetwork d) = true ->
      text (toNetwork d) <> text (fromNetwork d))
  /\ (given (toNetwork d) = true -> given (fromNetwork d) = true ->
      given (requiredNetwork d) = true ->
      defined (member CHAINS (text (requiredNetwork d))) = true
      /\ (text (toNetwork d) = text (requiredNetwork d)
          \/ text (fromNetwork d) = text (requiredNetwork d)))
  /\ (given (token d) = true -> defined (member TOKENS (text (token d))) = true)
  /\ (given (fromNetwork d) = true -> given (token d) = true ->
      field token_id (member TOKENS (text (token d))) = None ->
      field (fun c => Some (nativeNetwork c)) (member TOKENS (text (token d)))
      = field (fun c => Some (chain_key c)) (member CHAINS (text (fromNetwork d)))).

(** A chain argument that counts as missing: the empty name, or 0. *)
Definition no_chain (c : Chain) : bool :=
  match c with
  | ChainName name => negb (Js.truthy name)
  | ChainId id => N.eqb id 0
  end.

(** [BridgeRoute.isRouteAvailable]; [amount] is not read. *)
Definition isRouteAvailable (TOKENS : gmap string TokenConfig)
           (sourceToken destToken : string) (sourceChain destChain : Chain) : bool :=
  match TOKENS !! sourceToken, TOKENS !! destToken with
  | Some sourceTokenConfig, Some destTokenConfig =>
      if no_chain sourceChain || no_chain destChain then false
      else if bool_decide (sourceChain = destChain) then false
      else if String.eqb destToken "native" then false
      else if bool_decide (is_Some (token_id sourceTokenConfig))
              && String.eqb sourceToken destToken then true
      else if negb (bool_decide (is_Some (token_id sourceTokenConfig)))
              && bool_decide (wrappedAsset sourceTokenConfig = Some destToken) then true
      else false
  | _, _ => false
  end.

(** A configuration to run the checks on. *)
Definition chains : gmap string ChainConfig :=
  list_to_map [("ethereum", {| chain_key := "ethereum" |});
               ("osmosis", {| chain_key := "osmosis" |})].

Definition tokens : gmap string TokenConfig :=
  list_to_map
    [("ETH", {| token_id := None; nativeNetwork := "ethereum";
                wrappedAsset := Some "WETH" |});
     ("WETH", {| token_id := Some {| tokenChain := ChainName "ethereum";
                                     tokenAddress := "0xC02aaA39b223FE8D0A0e5C4F27eAD9083C756Cc2" |};
                 nativeNetwork := "ethereum"; wrappedAsset := None |});
     ("OSMO", {| token_id := None; nativeNetwork := "osmosis";
                 wrappedAsset := None |})].

End Connect.

(** ** Digits, to state what [convert] computes

    The digits of a number in base [2 ^ w], most significant first, and the
    number a list of digits stands for. *)

Fixpoint digits (w : Z) (count : nat) (x : Z) : list Z :=
  match count with
  | O => []
  | S c => digits w c (x / 2 ^ w) ++ [x mod 2 ^ w]
  end.

Definition number (w : Z) (ds : list Z) : Z :=
  fold_left (fun acc d => acc * 2 ^ w + d) ds 0.

(** Digits that fit [w] bits. *)
Definition in_range (w : Z) (ds : list Z) : Prop := Forall (fun d => 0 <= d < 2 ^ w) ds.

(** One generator term of [polymodStep]: the generator when the bit is set. *)
Definition term (pre k G : Z) : Z := if Z.testbit pre (25 + k) then G else 0.

(** The characters that [encode] writes for a list of words. *)
Fixpoint word_chars (words : list Z) : string :=
  match words with
  | [] => ""
  | x :: rest => Bech32.charAt x +:+ word_chars rest
  end.

(** The six words behind the checksum characters of a checksum state. *)
Definition checksum_words (chk : Z) : list Z :=
  map (fun i : Z => Z.land (Z.shiftr chk ((5 - i) * 5)) 0x1f) [0; 1; 2; 3; 4; 5].

(** The checksum state after [values], as [encode] and [decode] both
    compute it word by word. *)
Definition polymod (chk : Z) (values : list Z) : Z :=
  fold_left (fun c x => Z.lxor (Bech32.polymodStep c) x) values chk.

(** A word's character: in the alphabet at the word's place, lower case,
    and not the separator. *)
Definition letter_of (c : ascii) (x : Z) : Prop :=
  Bech32.charAt x = String c ""
  /\ Bech32.ALPHABET_MAP c = Some x
  /\ Bech32.lower c = c
  /\ Ascii.eqb c "1" = false.

(** * Properties *)

(** ** Running a promise *)

Lemma await_lift_ok {A B : Type} (r : result A) (a : A) (k : A -> Promise B)
      (w : World) :
  r = Ok a -> await (lift r) k w = k a w.
Proof. intros ->. reflexivity. Qed.

Lemma await_ok {A B : Type} (p : Promise A) (a : A) (k : A -> Promise B)
      (w w' : World) :
  p w = (Ok a, w') -> await p k w = k a w'.
Proof. intros H. unfold await. rewrite H. reflexivity. Qed.

Lemma truthy_nonempty (s : string) : s <> "" -> Js.truthy s = true.
Proof.
  intros H. unfold Js.truthy. destruct (String.eqb_spec s ""); [contradiction|reflexivity].
Qed.

(** ** Hexadecimal strings *)

Module HexFacts.

Lemma decode_of_byte (b : byte) (rest : string) :
  Hex.decode (Hex.of_byte b +:+ rest) = b :: Hex.decode rest.
Proof. destruct b; reflexivity. Qed.

Lemma decode_encode (bs : list byte) : Hex.decode (Hex.encode bs) = bs.
Proof.
  induction bs as [|b bs IH]; [reflexivity|].
  cbn [Hex.encode]. rewrite decode_of_byte, IH. reflexivity.
Qed.

End HexFacts.

(** ** The Keccak digest has 32 bytes *)

Module KeccakFacts.

Lemma round_length (st : list Z) (rc : Z) : length (Keccak.round st rc) = 25%nat.
Proof.
  unfold Keccak.round, Keccak.chi.
  destruct (map _ (seq 0 25)) eqn:E;
    apply (f_equal (@length Z)) in E; rewrite length_map, length_seq in E.
  - discriminate E.
  - cbn [Keccak.iota length] in *. symmetry. exact E.
Qed.

Lemma keccak_f_length (st : list Z) : length (Keccak.keccak_f st) = 25%nat.
Proof.
  unfold Keccak.keccak_f.
  change Keccak.round_constants with
    (firstn 23 Keccak.round_constants ++ [0x8000000080008008]).
  rewrite fold_left_app. cbn [fold_left]. apply round_length.
Qed.

Lemma absorb_length (fuel : nat) (st : list Z) (bs : list byte) :
  length st = 25%nat -> length (Keccak.absorb fuel st bs) = 25%nat.
Proof.
  revert st bs.
  induction fuel as [|fuel IH]; intros st bs H; cbn [Keccak.absorb]; [exact H|].
  destruct bs; [exact H|]. apply IH, keccak_f_length.
Qed.

Lemma digest_length (data : list byte) : length (Keccak.digest data) = 32%nat.
Proof.
  unfold Keccak.digest.
  set (st := Keccak.absorb _ _ _).
  assert (Hst : length st = 25%nat) by (apply absorb_length; reflexivity).
  do 4 (destruct st as [|? st]; [discriminate Hst|]).
  reflexivity.
Qed.

Example keccak256_empty :
  Keccak.keccak256 [] =
  "0xc5d2460186f7233c927e7db2dcc703c0e500b653ca82273b7bfad8045d85a470".
Proof. vm_compute. reflexivity. Qed.

Example keccak256_abc :
  Keccak.keccak256 (Bytes.of_string "abc") =
  "0x4e03657aea45a94fc7d47ba826c8d667c0d1e6e33a64a036ec44f58fa12d6c45".
Proof. vm_compute. reflexivity. Qed.

End KeccakFacts.

(** ** Bech32: encoding a byte array never fails on its words *)

Module Bech32Facts.

Import Bech32.

Lemma land_31 (x : Z) : word5 (Z.land x (Z.shiftl 1 5 - 1)).
Proof.
  change (Z.shiftl 1 5 - 1) with (Z.ones 5).
  rewrite Z.land_ones by lia. unfold word5.
  pose proof (Z.mod_pos_bound x (2 ^ 5)). lia.
Qed.

Lemma drain_word5 (fuel : nat) (value bits : Z) (acc : list Z) :
  Forall word5 acc ->
  Forall word5 (snd (Bech32.drain fuel 5 value bits acc)).
Proof.
  revert bits acc.
  induction fuel as [|fuel IH]; intros bits acc H; cbn [Bech32.drain]; [exact H|].
  destruct (bits >=? 5); [|exact H].
  apply IH, Forall_app; split; [exact H|].
  constructor; [apply land_31|constructor].
Qed.

Lemma convert_loop_word5 (data : list Z) (value bits : Z) (acc : list Z) :
  Forall word5 acc ->
  Forall word5 (snd (Bech32.convert_loop data 8 5 value bits acc)).
Proof.
  revert value bits acc.
  induction data as [|d data IH]; intros value bits acc H;
    cbn [Bech32.convert_loop]; [exact H|].
  pose proof (drain_word5 (Z.to_nat ((bits + 8) / 5))
                (Bech32.int32 (Z.lor (Bech32.int32 (Z.shiftl value 8)) d))
                (bits + 8) acc H) as Hd.
  destruct (Bech32.drain _ _ _ _ _) as [bits' acc']. apply IH, Hd.
Qed.

Lemma toWords_word5 (data : list Z) :
  exists words, Bech32.toWords data = Ok words /\ Forall word5 words.
Proof.
  unfold Bech32.toWords, Bech32.convert.
  assert (H : Forall word5 (snd (Bech32.convert_loop data 8 5 0 0 [])))
    by (apply convert_loop_word5; constructor).
  destruct (Bech32.convert_loop data 8 5 0 0 []) as [[value bits] acc].
  cbn [snd] in H. destruct (bits >? 0).
  - eexists; split; [reflexivity|]. apply Forall_app; split; [exact H|].
    constructor; [apply land_31|constructor].
  - eexists; split; [reflexivity|exact H].
Qed.

Lemma encode_words_total (words : list Z) (chk : Z) (out : string) :
  Forall word5 words ->
  exists chk' out', Bech32.encode_words words chk out = Ok (chk', out').
Proof.
  revert chk out.
  induction words as [|x words IH]; intros chk out H; cbn [Bech32.encode_words].
  - eauto.
  - inversion H as [|? ? Hx Hrest]; subst.
    assert (Hs : (Z.shiftr x 5 =? 0) = true).
    { apply Z.eqb_eq. rewrite Z.shiftr_div_pow2 by lia.
      apply Z.div_small. exact Hx. }
    rewrite Hs. cbn [negb]. apply IH, Hrest.
Qed.

(** Twenty bytes are 32 words. *)
Lemma toWords_length_20 (data : list Z) (words : list Z) :
  length data = 20%nat -> Bech32.toWords data = Ok words -> length words = 32%nat.
Proof.
  intros Hlen.
  do 20 (destruct data as [|? data]; [discriminate Hlen|]).
  destruct data; [|discriminate Hlen].
  intros H.
  apply (f_equal (fun r => match r with Ok ws => length ws | Err _ => 0%nat end)) in H.
  cbn in H. symmetry. exact H.
Qed.

Example encode_bip173 :
  Bech32.encode "abcdef" (map Z.of_nat (seq 0 32)) =
  Ok "abcdef1qpzry9x8gf2tvdw0s3jn54khce6mua7lmqqqxw".
Proof. vm_compute. reflexivity. Qed.

Example decode_bip173 : Bech32.decode "A12UEL5L" = Ok ("a", []).
Proof. vm_compute. reflexivity. Qed.

End Bech32Facts.


(** ** The static tables *)

Lemma table_entry_nonempty (table : list (string * string)) (name v : string) :
  Forall (fun kv => snd kv <> "") table ->
  (list_to_map table : gmap string string) !! name = Some v ->
  chain_entry (list_to_map table) (ChainName name) = Some v.
Proof.
  intros Hall Hlookup. cbn [chain_entry]. rewrite Hlookup.
  apply elem_of_list_to_map_2 in Hlookup.
  rewrite Forall_forall in Hall. specialize (Hall _ Hlookup).
  rewrite (truthy_nonempty v Hall). reflexivity.
Qed.

Lemma PREFIXES_entry (name prefix : string) :
  PREFIXES !! name = Some prefix -> chain_entry PREFIXES (ChainName name) = Some prefix.
Proof. apply table_entry_nonempty. repeat constructor; discriminate. Qed.

Lemma NATIVE_DENOMS_entry (name denom : string) :
  NATIVE_DENOMS !! name = Some denom ->
  chain_entry NATIVE_DENOMS (ChainName name) = Some denom.
Proof. apply table_entry_nonempty. repeat constructor; discriminate. Qed.

Lemma PREFIXES_values (name prefix : string) :
  PREFIXES !! name = Some prefix -> prefix = "osmo" \/ prefix = "wormchain".
Proof.
  intros E. apply elem_of_list_to_map_2 in E.
  repeat (apply elem_of_cons in E as [E|E]; [injection E as _ ->; auto|]).
  apply elem_of_nil in E. contradiction.
Qed.

(** ** Addresses *)

Lemma encode_total (prefix : string) (words : list Z) (chk : Z) :
  (String.length prefix + 7 + length words <= Bech32.LIMIT)%nat ->
  Bech32.prefixChk (Bech32.toLowerCase prefix) = Ok chk ->
  Forall Bech32.word5 words ->
  exists human, Bech32.encode prefix words = Ok human.
Proof.
  intros Hlimit Hchk Hrange. unfold Bech32.encode.
  destruct (Nat.ltb_spec Bech32.LIMIT (String.length prefix + 7 + length words))
    as [Hlt|_]; [lia|].
  rewrite Hchk. cbn [result_bind].
  destruct (Bech32Facts.encode_words_total words chk
              (Bech32.toLowerCase prefix +:+ "1") Hrange) as (chk' & out & E).
  rewrite E. cbn [result_bind]. eauto.
Qed.

(** A 20-byte address has a human form under either prefix of the table. *)
Lemma humanAddress_total (prefix : string) (b : list byte) :
  prefix = "osmo" \/ prefix = "wormchain" ->
  length b = 20%nat ->
  exists human, cosmos.humanAddress prefix (map Bytes.to_Z b) = Ok human.
Proof.
  intros Hp Hlen. unfold cosmos.humanAddress.
  destruct (Bech32Facts.toWords_word5 (map Bytes.to_Z b)) as (words & Hw & Hrange).
  rewrite Hw. cbn [result_bind].
  assert (Hl : length words = 32%nat).
  { apply (Bech32Facts.toWords_length_20 (map Bytes.to_Z b)); [|exact Hw].
    rewrite length_map. exact Hlen. }
  destruct Hp as [-> | ->];
    (eapply encode_total;
     [rewrite Hl; cbn; unfold Bech32.LIMIT; lia | vm_compute; reflexivity | exact Hrange]).
Qed.

Lemma last_bytes_32 (b : list byte) :
  length b = 32%nat ->
  last_bytes 20 b = Bytes.slice_from 12 b /\ length (last_bytes 20 b) = 20%nat.
Proof.
  intros H. unfold last_bytes, Bytes.slice_from. rewrite H. split; [reflexivity|].
  rewrite length_skipn. lia.
Qed.

(** What [parseAddress] makes of the output of [formatAddress]: the human
    form of all 32 bytes, padding included. *)
Lemma parseAddress_formatAddress (this : CosmosContext) (address prefix : string)
      (canonical : list byte) :
  cosmos.canonicalAddress address = Ok canonical ->
  (length canonical <= 32)%nat ->
  chain_entry PREFIXES (chain this) = Some prefix ->
  exists universal,
    Context.formatAddress address = Ok universal
    /\ universal = repeat x00 (32 - length canonical) ++ canonical
    /\ Context.parseAddress this (AddrBytes universal) =
       cosmos.humanAddress prefix (map Bytes.to_Z universal).
Proof.
  intros Hc Hlen Hp. eexists. split; [|split; [reflexivity|]].
  - unfold Context.formatAddress. rewrite Hc. cbn [result_bind]. unfold Ethers.zeroPad.
    destruct (Nat.ltb_spec 32 (length canonical)); [lia|reflexivity].
  - unfold Context.parseAddress. rewrite Hp. reflexivity.
Qed.

(** An address of 32 bytes, in the human form of the context's prefix, does
    come back. *)
Lemma parseAddress_formatAddress_32 (this : CosmosContext) (address prefix : string)
      (canonical : list byte) :
  cosmos.canonicalAddress address = Ok canonical ->
  length canonical = 32%nat ->
  chain_entry PREFIXES (chain this) = Some prefix ->
  cosmos.humanAddress prefix (map Bytes.to_Z canonical) = Ok address ->
  exists universal,
    Context.formatAddress address = Ok universal
    /\ Context.parseAddress this (AddrBytes universal) = Ok address.
Proof.
  intros Hc Hlen Hp Hhuman.
  destruct (parseAddress_formatAddress this address prefix canonical Hc ltac:(lia) Hp)
    as (universal & Hf & Hu & Hparse).
  exists universal. split; [exact Hf|].
  rewrite Hparse, Hu, Hlen. cbn [Nat.sub repeat app]. exact Hhuman.
Qed.

(** C1. The round trip [parseAddress(formatAddress(a)) == a] fails on an
    account address: the Osmosis account of the 20 bytes 01 .. 14 is a valid
    native address, [formatAddress] pads it to 32 bytes, and [parseAddress]
    returns the human form of all 32 bytes, the twelve zero bytes included;
    read as a [0x] string the padded address gives yet another address, since
    stripping zero digits leaves an odd number of them. *)
Theorem parseAddress_formatAddress_account :
  let bytes := [x01; x02; x03; x04; x05; x06; x07; x08; x09; x0a;
                x0b; x0c; x0d; x0e; x0f; x10; x11; x12; x13; x14] in
  let universal := repeat x00 12 ++ bytes in
  cosmos.humanAddress "osmo" (map Bytes.to_Z bytes) = Ok Sample.account
  /\ cosmos.canonicalAddress Sample.account = Ok bytes
  /\ Context.formatAddress Sample.account = Ok universal
  /\ Context.parseAddress Sample.osmosis (AddrBytes universal)
     = Ok "osmo1qqqqqqqqqqqqqqqqqqqqzqsrqszsvpcgpy9qkrqdpc83qygjzv2qtq9zxt"
  /\ Context.parseAddress Sample.osmosis (AddrString ("0x" +:+ Hex.encode universal))
     = Ok "osmo1zqsrqszsvpcgpy9qkrqdpc83qygjzvg0tjq7c"
  /\ Context.parseAddress Sample.osmosis (AddrBytes universal) <> Ok Sample.account.
Proof.
  vm_compute. repeat split. discriminate.
Qed.

(** ** Synthetic asset ids *)

Lemma buildTokenId_hex (address : string) :
  Context.buildTokenId address =
  Hex.encode (discriminator address
                :: skipn 1 (Keccak.digest (Bytes.of_string address))).
Proof.
  unfold Context.buildTokenId, Keccak.keccak256, discriminator.
  pose proof (KeccakFacts.digest_length (Bytes.of_string address)) as Hlen.
  destruct (Keccak.digest (Bytes.of_string address)) as [|d rest]; [discriminate Hlen|].
  cbn [skipn Hex.encode]. destruct (has_truthy NATIVE_DENOMS address); reflexivity.
Qed.

(** The id is 32 bytes: the discriminator, then the last 31 bytes of the
    Keccak-256 digest of the address string. *)
Lemma formatAssetAddress_shape (this : CosmosContext) (address : string) (w : World) :
  exists hash31,
    Context.formatAssetAddress this address w = (Ok (discriminator address :: hash31), w)
    /\ hash31 = skipn 1 (Keccak.digest (Bytes.of_string address))
    /\ length hash31 = 31%nat.
Proof.
  eexists. split; [|split; [reflexivity|]].
  - unfold Context.formatAssetAddress, resolve.
    rewrite buildTokenId_hex, HexFacts.decode_encode. reflexivity.
  - rewrite length_skipn, KeccakFacts.digest_length. reflexivity.
Qed.

(** Two addresses get the same id only if they agree on the discriminator
    and on the last 31 bytes of their digests. *)
Lemma formatAssetAddress_same_id (this : CosmosContext) (a b : string) (w : World) :
  fst (Context.formatAssetAddress this a w) = fst (Context.formatAssetAddress this b w) ->
  discriminator a = discriminator b
  /\ skipn 1 (Keccak.digest (Bytes.of_string a)) = skipn 1 (Keccak.digest (Bytes.of_string b)).
Proof.
  destruct (formatAssetAddress_shape this a w) as (ha & -> & -> & _).
  destruct (formatAssetAddress_shape this b w) as (hb & -> & -> & _).
  cbn [fst]. intros [= Hd Hh]. auto.
Qed.

(** C4. The discriminator does not tell native units from contract-backed
    assets: [uosmo], the native unit of Osmosis in [NATIVE_DENOMS], gets the
    discriminator 00, and the chain name [osmosis], which is no unit, gets
    01: the table is looked up by its keys, the chain names. *)
Theorem buildTokenId_native_unit :
  NATIVE_DENOMS !! "osmosis" = Some "uosmo"
  /\ Context.buildTokenId "uosmo"
     = "00e32971497f97fd2b2b4b8dfcfb92cedf691447142edf5397e1baf33c8c3a13"
  /\ Context.buildTokenId "osmosis"
     = "0190cbc578704d2c6a0a9f38f2f73c5fb14ad86c0792d209fae4b024a3f56d43".
Proof.
  vm_compute. repeat split.
Qed.

(** [parseAssetAddress] runs the body of [parseAddress]. *)
Lemma parseAssetAddress_eq (this : CosmosContext) (address : Address) (w : World) :
  Context.parseAssetAddress this address w = (Context.parseAddress this address, w).
Proof.
  unfold Context.parseAssetAddress, Context.parseAddress.
  destruct (chain_entry PREFIXES (chain this)); [|reflexivity].
  unfold await, lift, result_bind. destruct (Context.address_data address); reflexivity.
Qed.

(** C10. [parseAssetAddress] resolves to exactly what [parseAddress]
    returns and leaves the world as it was: no client, no request, no
    registry lookup; and when the context's chain has no entry in [PREFIXES]
    both fail with the prefix error. *)
Theorem parseAssetAddress_is_parseAddress (this : CosmosContext) (address : Address)
        (w : World) :
  Context.parseAssetAddress this address w = (Context.parseAddress this address, w)
  /\ (chain_entry PREFIXES (chain this) = None ->
      Context.parseAddress this address = Err (PrefixNotFound (chain this))
      /\ Context.parseAssetAddress this address w = (Err (PrefixNotFound (chain this)), w)).
Proof.
  split; [apply parseAssetAddress_eq|].
  intros Hnone. rewrite parseAssetAddress_eq.
  unfold Context.parseAddress. rewrite Hnone. split; reflexivity.
Qed.

Lemma parseAssetAddress_is_parseAddress_witness :
  chain_entry PREFIXES (ChainId 20) = None
  /\ Context.parseAddress {| context := Sample.wormhole; chain := ChainId 20 |}
       (AddrString "0x0102") = Err (PrefixNotFound (ChainId 20))
  /\ Context.parseAssetAddress {| context := Sample.wormhole; chain := ChainId 20 |}
       (AddrString "0x0102") initial = (Err (PrefixNotFound (ChainId 20)), initial).
Proof.
  split; [reflexivity|].
  apply (proj2 (parseAssetAddress_is_parseAddress
                  {| context := Sample.wormhole; chain := ChainId 20 |}
                  (AddrString "0x0102") initial)).
  reflexivity.
Defined.

(** ** Foreign assets *)

(** C2. When [chain] and the token's home chain resolve to the same chain
    id, [getForeignAsset] returns the token's own address and the world is
    untouched: no client is created and no request is sent. *)
Theorem getForeignAsset_home_chain (this : CosmosContext) (tokenId : TokenId)
        (chain : Chain) (w : World) (id : N) :
  toChainId (context this) chain = Ok id ->
  toChainId (context this) (tokenChain tokenId) = Ok id ->
  Context.getForeignAsset this tokenId chain w = (Ok (Some (tokenAddress tokenId)), w).
Proof.
  intros Hto Hhome. unfold Context.getForeignAsset.
  rewrite (await_lift_ok _ _ _ _ Hto), (await_lift_ok _ _ _ _ Hhome).
  rewrite N.eqb_refl. reflexivity.
Qed.

Lemma getForeignAsset_home_chain_witness :
  Context.getForeignAsset Sample.osmosis
    {| tokenChain := ChainName "osmosis"; tokenAddress := "uosmo" |} (ChainId 20) initial
  = (Ok (Some "uosmo"), initial).
Proof.
  apply (getForeignAsset_home_chain Sample.osmosis
           {| tokenChain := ChainName "osmosis"; tokenAddress := "uosmo" |}
           (ChainId 20) initial 20%N); reflexivity.
Defined.

(** C6, as the code has it. [mustGetForeignAsset] returns the address of
    [getForeignAsset] when that is a string that is not empty, fails with
    [TokenNotRegistered] when it is null or the empty string, and fails as
    [getForeignAsset] does when that fails; the world is the one
    [getForeignAsset] leaves. *)
Theorem mustGetForeignAsset_spec (this : CosmosContext) (tokenId : TokenId)
        (chain : Chain) (w : World) :
  Context.mustGetForeignAsset this tokenId chain w =
  match Context.getForeignAsset this tokenId chain w with
  | (Ok (Some a), w') =>
      if String.eqb a "" then (Err TokenNotRegistered, w') else (Ok a, w')
  | (Ok None, w') => (Err TokenNotRegistered, w')
  | (Err e, w') => (Err e, w')
  end.
Proof.
  unfold Context.mustGetForeignAsset, await.
  destruct (Context.getForeignAsset this tokenId chain w) as [[[a|]|e] w'];
    try reflexivity.
  unfold Js.truthy. destruct (String.eqb a ""); reflexivity.
Qed.

(** C6 as stated fails: for a token of Osmosis with the empty address,
    asked on Osmosis, [getForeignAsset] returns the empty string, which is
    not null, and [mustGetForeignAsset] fails all the same. *)
Lemma mustGetForeignAsset_empty_address :
  let token := {| tokenChain := ChainName "osmosis"; tokenAddress := "" |} in
  ~ (forall (a : string) (w' : World),
        Context.getForeignAsset Sample.osmosis token (ChainId 20) initial
        = (Ok (Some a), w') ->
        Context.mustGetForeignAsset Sample.osmosis token (ChainId 20) initial
        = (Ok a, w')).
Proof.
  intros token H. specialize (H "" initial eq_refl). discriminate H.
Qed.

(** ** Sending *)

(** C7, as the code has it. [send] fails with the not-implemented error
    whatever the configuration and the arguments; it reads no configuration
    and leaves the world as it was. *)
Theorem send_not_implemented (this : CosmosContext) (token : option TokenId)
        (amount : string) (sendingChain : Chain) (senderAddress : string)
        (recipientChain : Chain) (recipientAddress : string) (w : World) :
  Context.send this token amount sendingChain senderAddress recipientChain
               recipientAddress w
  = (Err MethodNotImplemented, w)
  /\ kind MethodNotImplemented = KNotImplemented.
Proof. split; reflexivity. Qed.

(** C7 as stated fails: on a context with no endpoint and no contract
    configured, [send] does not fail with a configuration error. *)
Lemma send_unconfigured_not_configuration_error :
  let this := {| context := Sample.unconfigured; chain := ChainName "osmosis" |} in
  rpcs (context this) !! "osmosis" = None
  /\ mustGetContracts (context this) (ChainName "osmosis") = Err (Thrown "no contracts found")
  /\ ~ (exists (e : Error) (w' : World),
           Context.send this None "1" (ChainName "osmosis") Sample.account
                        (ChainName "wormchain") Sample.account initial = (Err e, w')
           /\ kind e = KConfigurationError).
Proof.
  intros this. split; [reflexivity|]. split; [reflexivity|].
  intros (e & w' & Hsend & Hkind).
  injection Hsend as <- _. discriminate Hkind.
Qed.

(** ** The cached client *)

Lemma getCosmWasmClient_cached (this : CosmosContext) (chain : Chain) (w : World)
      (client : CosmWasmClient) :
  wasmClient w = Some client ->
  Context.getCosmWasmClient this chain w = (Ok client, w).
Proof.
  intros H. unfold Context.getCosmWasmClient, await, get_wasmClient.
  rewrite H. reflexivity.
Qed.

(** A successful call with no client cached: the chain's endpoint is
    configured, one connection is made to it, and the client is stored. *)
Lemma getCosmWasmClient_first (this : CosmosContext) (chain : Chain) (w w' : World)
      (client : CosmWasmClient) :
  wasmClient w = None ->
  Context.getCosmWasmClient this chain w = (Ok client, w') ->
  exists name,
    toChainName (context this) chain = Ok name
    /\ rpcs (context this) !! name = Some (endpoint client)
    /\ w' = {| wasmClient := Some client;
               requests := requests w ++ [Connect (endpoint client)] |}.
Proof.
  intros Hnone. unfold Context.getCosmWasmClient, await at 1, get_wasmClient.
  rewrite Hnone. unfold await at 1, lift.
  destruct (toChainName (context this) chain) as [name|e]; [|discriminate].
  destruct (rpcs (context this) !! name) as [rpc|] eqn:Hrpc; [|discriminate].
  destruct (Js.truthy rpc); cbn [negb]; [|discriminate].
  unfold await, request, set_wasmClient, resolve.
  destruct (connect (context this) (requests w) rpc); [discriminate|].
  cbn. intros [= <- <-]. exists name. auto.
Qed.

Lemma getCosmWasmClient_stores (this : CosmosContext) (chain : Chain) (w w' : World)
      (client : CosmWasmClient) :
  Context.getCosmWasmClient this chain w = (Ok client, w') ->
  wasmClient w' = Some client.
Proof.
  destruct (wasmClient w) as [cached|] eqn:Hw.
  - rewrite (getCosmWasmClient_cached this chain w cached Hw).
    intros [= <- <-]. exact Hw.
  - intros H.
    destruct (getCosmWasmClient_first this chain w w' client Hw H) as (? & _ & _ & ->).
    reflexivity.
Qed.

(** Calls made one after the other never return two different clients. *)
Lemma getCosmWasmClient_each_same_client (this : CosmosContext) (chains : list Chain)
      (w : World) (c1 c2 : CosmWasmClient) :
  In (Ok c1) (fst (getCosmWasmClient_each this chains w)) ->
  In (Ok c2) (fst (getCosmWasmClient_each this chains w)) ->
  c1 = c2.
Proof.
  revert w. induction chains as [|chain chains IH]; intros w; [intros []|].
  cbn [getCosmWasmClient_each].
  destruct (Context.getCosmWasmClient this chain w) as [[client|e] w1] eqn:Hcall.
  - assert (Hrest : fst (getCosmWasmClient_each this chains w1)
                    = map (fun _ => Ok client) chains).
    { pose proof (getCosmWasmClient_stores this chain w w1 client Hcall) as Hstored.
      clear IH Hcall. revert Hstored. generalize w1 as v. clear w w1.
      induction chains as [|c chains IH]; intros v Hv; [reflexivity|].
      cbn [getCosmWasmClient_each map].
      rewrite (getCosmWasmClient_cached this c v client Hv).
      specialize (IH v Hv).
      destruct (getCosmWasmClient_each this chains v) as [rs v'].
      cbn [fst] in *. rewrite IH. reflexivity. }
    destruct (getCosmWasmClient_each this chains w1) as [rs w2]. cbn [fst] in *.
    subst rs.
    assert (Hall : forall c, In (Ok c) (Ok client :: map (fun _ => Ok client) chains) ->
                             c = client).
    { intros c [[= ->]|Hin]; [reflexivity|].
      apply in_map_iff in Hin as (? & [= ->] & _). reflexivity. }
    intros H1 H2. rewrite (Hall _ H1), (Hall _ H2). reflexivity.
  - specialize (IH w1).
    destruct (getCosmWasmClient_each this chains w1) as [rs w2]. cbn [fst] in *.
    intros [H1|H1] [H2|H2]; try discriminate. apply IH; assumption.
Qed.

(** A call awaited before anything else runs is a call begun and then
    resumed at once. *)
Lemma getCosmWasmClient_begin_resume (this : CosmosContext) (chain : Chain) (w : World) :
  Context.getCosmWasmClient this chain w =
  (let '(call, w1) := getCosmWasmClient_begin this chain w in
   getCosmWasmClient_resume call w1).
Proof.
  unfold Context.getCosmWasmClient, getCosmWasmClient_begin, await at 1, get_wasmClient.
  destruct (wasmClient w) as [client|] eqn:Hw; [reflexivity|].
  unfold await at 1, lift.
  destruct (toChainName (context this) chain) as [name|e]; [|reflexivity].
  destruct (rpcs (context this) !! name) as [rpc|]; [|reflexivity].
  destruct (Js.truthy rpc); cbn [negb]; [|reflexivity].
  unfold await, request, set_wasmClient, resolve.
  destruct (connect (context this) (requests w) rpc); cbn; rewrite ?Hw; reflexivity.
Qed.






(** ** Completion *)

(** C8, as the code has it. [isTransferCompleted] sends its query to the
    token bridge configured for the context's own chain, whatever
    [destChain] is, through the client that [getCosmWasmClient] gives for
    [destChain]: with no client cached, one connected to the endpoint of
    [destChain]; with a client cached, that client. When the token bridge of
    [destChain] is another address, the query is not the one to that bridge. *)
Theorem isTransferCompleted_own_chain_bridge (this : CosmosContext) (destChain : Chain)
        (signedVaa : string) (w w1 : World) (contracts : Contracts) (bridge : string)
        (client : CosmWasmClient) (bytes : list byte) :
  mustGetContracts (context this) (chain this) = Ok contracts ->
  Context.token_bridge_of contracts = Some bridge ->
  Context.getCosmWasmClient this destChain w = (Ok client, w1) ->
  Ethers.arrayify signedVaa = Ok bytes ->
  let query := is_vaa_redeemed (Base64.encode bytes) in
  Context.isTransferCompleted this destChain signedVaa w =
    (queryIsVaaRedeemed (context this) (requests w1) client bridge (Base64.encode bytes),
     {| wasmClient := wasmClient w1;
        requests := requests w1 ++ [QueryContractSmart client bridge query] |})
  /\ (wasmClient w = None ->
      exists name, toChainName (context this) destChain = Ok name
                   /\ rpcs (context this) !! name = Some (endpoint client))
  /\ (forall cached : CosmWasmClient,
         wasmClient w = Some cached -> client = cached /\ w1 = w)
  /\ (forall (contracts' : Contracts) (bridge' : string),
         mustGetContracts (context this) destChain = Ok contracts' ->
         Context.token_bridge_of contracts' = Some bridge' ->
         bridge' <> bridge ->
         QueryContractSmart client bridge query <> QueryContractSmart client bridge' query).
Proof.
  intros Hcontracts Hbridge Hclient Hbytes query. split; [|split; [|split]].
  - unfold Context.isTransferCompleted.
    rewrite (await_lift_ok _ _ _ _ Hcontracts), Hbridge, (await_ok _ _ _ _ _ Hclient),
      (await_lift_ok _ _ _ _ Hbytes). reflexivity.
  - intros Hnone.
    destruct (getCosmWasmClient_first this destChain w w1 client Hnone Hclient)
      as (name & Hname & Hrpc & _).
    exists name. auto.
  - intros cached Hcached.
    rewrite (getCosmWasmClient_cached this destChain w cached Hcached) in Hclient.
    injection Hclient as <- <-. auto.
  - intros contracts' bridge' _ _ Hne [= Heq]. apply Hne. symmetry. exact Heq.
Qed.

(** C8 as stated fails: on the Osmosis context whose client was created for
    Osmosis, the completion query for Wormchain goes through that client,
    which is not connected to the endpoint of Wormchain. *)
Lemma isTransferCompleted_cached_client :
  let w1 := snd (Context.getCosmWasmClient Sample.osmosis (ChainName "osmosis") initial) in
  let after :=
    snd (Context.isTransferCompleted Sample.osmosis (ChainName "wormchain") "0x0102" w1) in
  ~ (forall (client : CosmWasmClient) (address : string) (msg : QueryMsg),
        In (QueryContractSmart client address msg) (requests after) ->
        rpcs (context Sample.osmosis) !! "wormchain" = Some (endpoint client)).
Proof.
  intros w1 after H.
  specialize (H {| endpoint := "https://rpc.osmosis.example" |}
                Sample.osmosis_bridge (is_vaa_redeemed "AQI=")).
  assert (Hin : In (QueryContractSmart {| endpoint := "https://rpc.osmosis.example" |}
                      Sample.osmosis_bridge (is_vaa_redeemed "AQI="))
                   (requests after)) by (vm_compute; auto).
  specialize (H Hin). vm_compute in H. discriminate H.
Qed.

Lemma isTransferCompleted_own_chain_bridge_witness :
  let client := {| endpoint := "https://rpc.wormchain.example" |} in
  Context.isTransferCompleted Sample.osmosis (ChainName "wormchain") "0x0102" initial =
    (Ok false,
     {| wasmClient := Some client;
        requests := [Connect "https://rpc.wormchain.example";
                     QueryContractSmart client Sample.osmosis_bridge
                                        (is_vaa_redeemed "AQI=")] |}).
Proof.
  intros client.
  apply (proj1 (isTransferCompleted_own_chain_bridge Sample.osmosis
                  (ChainName "wormchain") "0x0102" initial
                  {| wasmClient := Some client;
                     requests := [Connect "https://rpc.wormchain.example"] |}
                  {| core := Some "osmo1core"; token_bridge := Some Sample.osmosis_bridge |}
                  Sample.osmosis_bridge client [x01; x02]
                  eq_refl eq_refl eq_refl eq_refl)).
Defined.

(** ** Fetching the attestation *)

Section Retry.
Variables (this : CosmosContext) (hosts : list string) (emitterChain : N)
          (emitterAddress sequence : string).

Let ask : Request := GetSignedVAA hosts emitterChain emitterAddress sequence.
Let answer (sent : list Request) : result (list byte) :=
  getSignedVAA (context this) sent hosts emitterChain emitterAddress sequence.

Lemma asked_0 (w : World) : asked ask w 0 = w.
Proof. destruct w. unfold asked. cbn. rewrite app_nil_r. reflexivity. Qed.

Lemma asked_S (w : World) (n : nat) : asked ask (asked ask w 1) n = asked ask w (S n).
Proof. unfold asked. cbn. rewrite <- app_assoc. reflexivity. Qed.

(** One attempt: an answer ends the loop; an error ends it only when no
    failure is left to be dropped. *)
Lemma retry_step (n : nat) (w : World) :
  Context.getSignedVAAWithRetry this hosts emitterChain emitterAddress sequence n w
  = match answer (requests w) with
    | Ok bytes => (Ok bytes, asked ask w 1)
    | Err e =>
        match n with
        | O => (Err e, asked ask w 1)
        | S m =>
            Context.getSignedVAAWithRetry this hosts emitterChain emitterAddress
                                          sequence m (asked ask w 1)
        end
    end.
Proof.
  destruct n; cbn [Context.getSignedVAAWithRetry];
    unfold catch, request, reject, answer, asked;
    destruct (getSignedVAA _ _ _ _ _ _); reflexivity.
Qed.

(** Every attempt fails: attempt [n + 1] is the last, and its error is the
    one thrown. *)
Lemma retry_exhausted (n : nat) (w : World) (e : Error) :
  (forall j, (j < n)%nat -> exists e', answer (requests (asked ask w j)) = Err e') ->
  answer (requests (asked ask w n)) = Err e ->
  Context.getSignedVAAWithRetry this hosts emitterChain emitterAddress sequence n w
  = (Err e, asked ask w (S n)).
Proof.
  revert w. induction n as [|n IH]; intros w H Hlast; rewrite retry_step.
  - rewrite asked_0 in Hlast. rewrite Hlast. reflexivity.
  - destruct (H 0%nat ltac:(lia)) as [e' He]. rewrite asked_0 in He. rewrite He.
    rewrite IH, asked_S; [reflexivity| |].
    + intros j Hj. rewrite asked_S. apply H. lia.
    + rewrite asked_S. exact Hlast.
Qed.

(** Attempt [k + 1], one of the [n + 1], is the first to succeed. *)
Lemma retry_success (n k : nat) (w : World) (bytes : list byte) :
  (k <= n)%nat ->
  (forall j, (j < k)%nat -> exists e, answer (requests (asked ask w j)) = Err e) ->
  answer (requests (asked ask w k)) = Ok bytes ->
  Context.getSignedVAAWithRetry this hosts emitterChain emitterAddress sequence n w
  = (Ok bytes, asked ask w (S k)).
Proof.
  revert k w. induction n as [|n IH]; intros k w Hk Hfail Hok; rewrite retry_step.
  - assert (k = 0%nat) as -> by lia. rewrite asked_0 in Hok. rewrite Hok. reflexivity.
  - destruct k as [|k].
    + rewrite asked_0 in Hok. rewrite Hok. reflexivity.
    + destruct (Hfail 0%nat ltac:(lia)) as [e He]. rewrite asked_0 in He. rewrite He.
      rewrite (IH k), asked_S; [reflexivity|lia| |].
      * intros j Hj. rewrite asked_S. apply Hfail. lia.
      * rewrite asked_S. exact Hok.
Qed.

(** Whatever the guardians answer, the loop ends within [n + 1] attempts. *)
Lemma retry_bounded (n : nat) (w : World) :
  exists (m : nat) (r : result (list byte)),
    (1 <= m <= S n)%nat
    /\ Context.getSignedVAAWithRetry this hosts emitterChain emitterAddress sequence n w
       = (r, asked ask w m).
Proof.
  revert w. induction n as [|n IH]; intros w; rewrite retry_step.
  - destruct (answer (requests w)); exists 1%nat; eexists; (split; [lia|reflexivity]).
  - destruct (answer (requests w)).
    + exists 1%nat. eexists. split; [lia|reflexivity].
    + destruct (IH (asked ask w 1)) as (m & r & Hm & Hrun).
      exists (S m), r. split; [lia|]. rewrite Hrun, asked_S. reflexivity.
Qed.

End Retry.

(** C3, as the code has it. Once the transaction is found and its logs give
    a sequence and an emitter, [getVaa] asks the guardians through
    [getSignedVAAWithRetry] with the budget 3, which makes at most four
    attempts, one request each: the errors of the first three are dropped,
    and when the fourth fails too [getVaa] fails with the error of that
    fourth attempt, having sent four requests; when attempt [k + 1] of the
    four is the first to be answered it returns the raw bytes together with
    their parsed form, having sent [k + 1] requests. Whatever the guardians
    answer, between one and four requests are sent. *)
Theorem getVaa_retry_budget (this : CosmosContext) (txId : string) (chain : Chain)
        (w w0 : World) (client : CosmWasmClient) (tx : IndexedTx) (logs : list Log)
        (sequence emitter : string) (chainId : N) :
  Context.getCosmWasmClient this chain w = (Ok client, w0) ->
  getTx (context this) (requests w0) client txId = Ok (Some tx) ->
  parseRawLog (context this) (rawLog tx) = Ok logs ->
  Context.searchLogs "message.sequence" logs = Some sequence -> sequence <> "" ->
  Context.searchLogs "message.sender" logs = Some emitter -> emitter <> "" ->
  toChainId (context this) chain = Ok chainId ->
  let hosts := wormholeHosts (context this) in
  let sent (j : nat) :=
    requests w0 ++ GetTx client txId
      :: repeat (GetSignedVAA hosts chainId emitter sequence) j in
  let answer (j : nat) :=
    getSignedVAA (context this) (sent j) hosts chainId emitter sequence in
  (forall e : Error,
      (forall j, (j < 3)%nat -> exists e', answer j = Err e') ->
      answer 3%nat = Err e ->
      Context.getVaa this txId chain w =
      (Err e, {| wasmClient := wasmClient w0; requests := sent 4%nat |}))
  /\ (forall (k : nat) (bytes : list byte) (parsed : ParsedVaa),
         (k < 4)%nat ->
         (forall j, (j < k)%nat -> exists e, answer j = Err e) ->
         answer k = Ok bytes ->
         parseVaa (context this) bytes = Ok parsed ->
         Context.getVaa this txId chain w =
         (Ok {| transaction := tx; rawVaa := bytes; vaa := parsed |},
          {| wasmClient := wasmClient w0; requests := sent (S k) |}))
  /\ (exists (m : nat) (r : result VaaInfo),
         (1 <= m <= 4)%nat
         /\ Context.getVaa this txId chain w =
            (r, {| wasmClient := wasmClient w0; requests := sent m |})).
Proof.
  intros Hclient Htx Hlogs Hseq Hseq_ne Hem Hem_ne Hid hosts sent answer.
  set (ask := GetSignedVAA hosts chainId emitter sequence).
  set (w1 := {| wasmClient := wasmClient w0;
                requests := requests w0 ++ [GetTx client txId] |}).
  assert (Hsent : forall j, requests (asked ask w1 j) = sent j).
  { intros j. unfold asked, sent. cbn. rewrite <- app_assoc. reflexivity. }
  assert (Hworld : forall j, asked ask w1 j
                             = {| wasmClient := wasmClient w0; requests := sent j |}).
  { intros j. unfold asked, sent. cbn. rewrite <- app_assoc. reflexivity. }
  assert (Hrun :
            Context.getVaa this txId chain w =
            await (Context.getSignedVAAWithRetry this hosts chainId emitter sequence 3)
                  (fun vaaBytes =>
                     await (lift (parseVaa (context this) vaaBytes))
                           (fun parsed =>
                              resolve {| transaction := tx; rawVaa := vaaBytes;
                                         vaa := parsed |})) w1).
  { unfold Context.getVaa.
    rewrite (await_ok _ _ _ _ _ Hclient).
    unfold await at 1. unfold request at 1. rewrite Htx. fold w1.
    rewrite (await_lift_ok _ _ _ _ Hlogs), Hseq, (truthy_nonempty _ Hseq_ne), Hem,
      (truthy_nonempty _ Hem_ne). cbn [negb].
    rewrite (await_lift_ok _ _ _ _ Hid). reflexivity. }
  split; [|split].
  - intros e Hfail Hlast. rewrite Hrun. unfold await at 1.
    rewrite (retry_exhausted this hosts chainId emitter sequence 3 w1 e).
    + rewrite Hworld. reflexivity.
    + intros j Hj. fold ask. rewrite Hsent. apply Hfail, Hj.
    + fold ask. rewrite Hsent. exact Hlast.
  - intros k bytes parsed Hk Hfail Hok Hparsed.
    rewrite Hrun. unfold await at 1.
    rewrite (retry_success this hosts chainId emitter sequence 3 k w1 bytes ltac:(lia)).
    + rewrite (await_lift_ok _ _ _ _ Hparsed). fold ask. rewrite Hworld. reflexivity.
    + intros j Hj. fold ask. rewrite Hsent. apply Hfail, Hj.
    + fold ask. rewrite Hsent. exact Hok.
  - destruct (retry_bounded this hosts chainId emitter sequence 3 w1)
      as (m & r & Hm & Hretry).
    exists m. rewrite Hrun. unfold await at 1. rewrite Hretry. fold ask.
    rewrite Hworld. destruct r as [bytes|e]; [|eexists; split; [exact Hm|reflexivity]].
    unfold await, lift, resolve.
    destruct (parseVaa (context this) bytes); eexists; (split; [exact Hm|reflexivity]).
Qed.

Lemma getVaa_retry_budget_witness :
  let client := {| endpoint := "https://rpc.osmosis.example" |} in
  let ask := GetSignedVAA ["https://guardian.example"] 20 "wormchain1emitter" "42" in
  let sent := [Connect "https://rpc.osmosis.example"; GetTx client "A1B2"] in
  Context.getVaa Sample.osmosis "A1B2" (ChainName "osmosis") initial =
    (Ok {| transaction := Sample.tx; rawVaa := [x01; x02; x03];
           vaa := {| emitterChain := 20%N; emitterAddress := []; sequence := 42;
                     payload := [x01; x02; x03] |} |},
     {| wasmClient := Some client; requests := sent ++ [ask; ask; ask] |})
  /\ Context.getVaa {| context := Sample.silent; chain := ChainName "osmosis" |}
                    "A1B2" (ChainName "osmosis") initial =
     (Err (Thrown "requested VAA not found in store"),
      {| wasmClient := Some client; requests := sent ++ [ask; ask; ask; ask] |}).
Proof.
  intros client ask sent.
  set (w0 := {| wasmClient := Some client;
                requests := [Connect "https://rpc.osmosis.example"] |}).
  split.
  - apply (proj1 (proj2 (getVaa_retry_budget Sample.osmosis "A1B2" (ChainName "osmosis")
                    initial w0 client Sample.tx Sample.logs "42" "wormchain1emitter" 20%N
                    eq_refl eq_refl eq_refl eq_refl ltac:(discriminate)
                    eq_refl ltac:(discriminate) eq_refl))
                 2%nat [x01; x02; x03]
                 {| emitterChain := 20%N; emitterAddress := []; sequence := 42;
                    payload := [x01; x02; x03] |}).
    + lia.
    + intros j Hj. destruct j as [|[|j]]; [eexists; reflexivity|eexists; reflexivity|lia].
    + reflexivity.
    + reflexivity.
  - apply (proj1 (getVaa_retry_budget
                    {| context := Sample.silent; chain := ChainName "osmosis" |}
                    "A1B2" (ChainName "osmosis")
                    initial w0 client Sample.tx Sample.logs "42" "wormchain1emitter" 20%N
                    eq_refl eq_refl eq_refl eq_refl ltac:(discriminate)
                    eq_refl ltac:(discriminate) eq_refl)).
    + intros j _. eexists. reflexivity.
    + reflexivity.
Defined.

(** C3 as stated fails. With guardians that never answer, [getVaa] sends
    four requests, not three, and fails with the error of the fourth, which
    is no [AttestationUnavailable]; with guardians that answer the fourth
    request only, it succeeds, where three attempts would have failed. *)
Lemma getVaa_fourth_attempt :
  let silent := {| context := Sample.silent; chain := ChainName "osmosis" |} in
  let late := {| context := Cases.late_guardians; chain := ChainName "osmosis" |} in
  let lost := Context.getVaa silent "A1B2" (ChainName "osmosis") initial in
  let found := Context.getVaa late "A1B2" (ChainName "osmosis") initial in
  fst lost = Err (Thrown "requested VAA not found in store")
  /\ length (Cases.guardian_requests (snd lost)) = 4%nat
  /\ ~ (exists e, fst lost = Err e /\ kind e = KAttestationUnavailable)
  /\ (exists info, fst found = Ok info /\ rawVaa info = [x01; x02; x03])
  /\ length (Cases.guardian_requests (snd found)) = 4%nat.
Proof.
  intros silent late lost found.
  split; [reflexivity|]. split; [reflexivity|]. split.
  - intros (e & He & Hkind).
    assert (Hlost : fst lost = Err (Thrown "requested VAA not found in store"))
      by reflexivity.
    rewrite Hlost in He. injection He as <-. discriminate Hkind.
  - split; [eexists; split; reflexivity|reflexivity].
Qed.

(** * Further properties of the context *)

(** ** Searching the logs *)

Lemma searchLogs_app (key_ : string) (logs1 logs2 : list Log) :
  Context.searchLogs key_ (logs1 ++ logs2) =
  match Context.searchLogs key_ logs1 with
  | Some v => Some v
  | None => Context.searchLogs key_ logs2
  end.
Proof.
  unfold Context.searchLogs. rewrite flat_map_app.
  set (a1 := flat_map _ logs1). set (a2 := flat_map _ logs2).
  induction a1 as [|a a1 IH]; [reflexivity|].
  cbn [app List.find]. destruct (String.eqb (key a) key_); [reflexivity|exact IH].
Qed.

Lemma searchLogs_find (key_ : string) (logs : list Log) :
  Context.searchLogs key_ logs =
  option_map value
    (List.find (fun a => String.eqb (key a) key_)
               (flat_map (fun l => flat_map attributes (events l)) logs)).
Proof. unfold Context.searchLogs. destruct (List.find _ _); reflexivity. Qed.

(** X1. [searchLogs] answers null exactly when no attribute of any event of
    any log has the key. *)
Theorem searchLogs_none_iff (key_ : string) (logs : list Log) :
  Context.searchLogs key_ logs = None <->
  (forall l ev a, In l logs -> In ev (events l) -> In a (attributes ev) ->
                  key a <> key_).
Proof.
  rewrite searchLogs_find. split.
  - intros Hnone l ev a Hl Hev Ha Hkey.
    destruct (List.find _ _) as [found|] eqn:Hfind; [discriminate Hnone|].
    assert (Hin : In a (flat_map (fun l => flat_map attributes (events l)) logs)).
    { apply in_flat_map. exists l. split; [exact Hl|].
      apply in_flat_map. exists ev. auto. }
    pose proof (find_none _ _ Hfind a Hin) as Hneq. cbn beta in Hneq.
    apply String.eqb_neq in Hneq. contradiction.
  - intros Hall.
    destruct (List.find _ _) as [found|] eqn:Hfind; [|reflexivity].
    apply find_some in Hfind as [Hin Hkey].
    apply in_flat_map in Hin as (l & Hl & Hin).
    apply in_flat_map in Hin as (ev & Hev & Ha).
    apply String.eqb_eq in Hkey. destruct (Hall l ev found Hl Hev Ha Hkey).
Qed.

(** X2. The first match wins, in the order of the logs: a key found in the
    earlier logs is answered from them, whatever the later logs hold, and the
    later logs are searched only when the earlier ones lack the key; a value
    answered is the value of an attribute with that key. *)
Theorem searchLogs_first_match (key_ : string) (logs1 logs2 : list Log) :
  (forall v, Context.searchLogs key_ logs1 = Some v ->
             Context.searchLogs key_ (logs1 ++ logs2) = Some v)
  /\ (Context.searchLogs key_ logs1 = None ->
      Context.searchLogs key_ (logs1 ++ logs2) = Context.searchLogs key_ logs2)
  /\ (forall v, Context.searchLogs key_ logs1 = Some v ->
                exists l ev a, In l logs1 /\ In ev (events l) /\ In a (attributes ev)
                               /\ key a = key_ /\ value a = v).
Proof.
  split; [|split].
  - intros v H. rewrite searchLogs_app, H. reflexivity.
  - intros H. rewrite searchLogs_app, H. reflexivity.
  - intros v. rewrite searchLogs_find.
    destruct (List.find _ _) as [found|] eqn:Hfind; [|discriminate].
    intros [= <-]. apply find_some in Hfind as [Hin Hkey].
    apply in_flat_map in Hin as (l & Hl & Hin).
    apply in_flat_map in Hin as (ev & Hev & Ha).
    apply String.eqb_eq in Hkey. exists l, ev, found. auto.
Qed.

Lemma searchLogs_first_match_witness :
  Context.searchLogs "message.sequence"
    (Sample.logs ++ [{| msg_index := 1; log := "";
                        events := [{| type := "wasm";
                                      attributes := [{| key := "message.sequence";
                                                        value := "43" |}] |}] |}])
  = Some "42".
Proof.
  apply (proj1 (searchLogs_first_match "message.sequence" Sample.logs _) "42").
  reflexivity.
Defined.

(** ** The cached client: failures *)

(** X3. With no client cached, a chain whose endpoint is missing or empty
    makes [getCosmWasmClient] fail with the RPC error before anything is
    sent: the world is unchanged and no client is cached. *)
Theorem getCosmWasmClient_rpc_not_configured (this : CosmosContext) (chain : Chain)
        (w : World) (name : string) :
  wasmClient w = None ->
  toChainName (context this) chain = Ok name ->
  rpcs (context this) !! name = None \/ rpcs (context this) !! name = Some "" ->
  Context.getCosmWasmClient this chain w = (Err RpcNotConfigured, w).
Proof.
  intros Hnone Hname Hrpc. unfold Context.getCosmWasmClient, await at 1, get_wasmClient.
  rewrite Hnone, (await_lift_ok _ _ _ _ Hname).
  destruct Hrpc as [-> | ->]; reflexivity.
Qed.

Lemma getCosmWasmClient_rpc_not_configured_witness :
  Context.getCosmWasmClient Sample.osmosis (ChainName "ethereum") initial
  = (Err RpcNotConfigured, initial).
Proof.
  apply (getCosmWasmClient_rpc_not_configured Sample.osmosis (ChainName "ethereum")
           initial "ethereum"); [reflexivity|reflexivity|left; reflexivity].
Defined.

(** X4. A connection that fails is not cached: the call fails with the
    connection's error, the attempt is on record and no client is stored, so
    the next call connects again, and when that succeeds its client is the
    one cached. *)
Theorem getCosmWasmClient_failed_connect_retried (this : CosmosContext)
        (chain : Chain) (w : World) (name rpc : string) (e : Error) :
  wasmClient w = None ->
  toChainName (context this) chain = Ok name ->
  rpcs (context this) !! name = Some rpc -> rpc <> "" ->
  connect (context this) (requests w) rpc = Some e ->
  let w1 := {| wasmClient := None; requests := requests w ++ [Connect rpc] |} in
  Context.getCosmWasmClient this chain w = (Err e, w1)
  /\ (connect (context this) (requests w1) rpc = None ->
      Context.getCosmWasmClient this chain w1 =
      (Ok {| endpoint := rpc |},
       {| wasmClient := Some {| endpoint := rpc |};
          requests := requests w ++ [Connect rpc; Connect rpc] |})).
Proof.
  intros Hnone Hname Hrpc Hne Hfail w1.
  assert (Hrun : forall v, wasmClient v = None ->
            Context.getCosmWasmClient this chain v =
            match connect (context this) (requests v) rpc with
            | None => (Ok {| endpoint := rpc |},
                       {| wasmClient := Some {| endpoint := rpc |};
                          requests := requests v ++ [Connect rpc] |})
            | Some err => (Err err, {| wasmClient := None;
                                       requests := requests v ++ [Connect rpc] |})
            end).
  { intros v Hv. unfold Context.getCosmWasmClient, await at 1, get_wasmClient.
    rewrite Hv, (await_lift_ok _ _ _ _ Hname), Hrpc, (truthy_nonempty _ Hne).
    cbn [negb]. unfold await, request, set_wasmClient, resolve.
    destruct (connect (context this) (requests v) rpc); cbn; rewrite ?Hv; reflexivity. }
  split.
  - rewrite (Hrun w Hnone), Hfail. reflexivity.
  - intros Hok. rewrite (Hrun w1 eq_refl), Hok. cbn [requests w1].
    rewrite <- app_assoc. reflexivity.
Qed.

Lemma getCosmWasmClient_failed_connect_retried_witness :
  let this := {| context := Cases.flaky; chain := ChainName "osmosis" |} in
  let rpc := "https://rpc.osmosis.example" in
  Context.getCosmWasmClient this (ChainName "osmosis") initial
  = (Err (Thrown "connection refused"),
     {| wasmClient := None; requests := [Connect rpc] |})
  /\ Context.getCosmWasmClient this (ChainName "osmosis")
       {| wasmClient := None; requests := [Connect rpc] |}
     = (Ok {| endpoint := rpc |},
        {| wasmClient := Some {| endpoint := rpc |};
           requests := [Connect rpc; Connect rpc] |}).
Proof.
  intros this rpc.
  pose proof (getCosmWasmClient_failed_connect_retried this (ChainName "osmosis")
                initial "osmosis" rpc (Thrown "connection refused")
                eq_refl eq_refl eq_refl ltac:(discriminate) eq_refl) as [H1 H2].
  split; [exact H1|exact (H2 eq_refl)].
Defined.

(** ** Fetching the attestation: failures before the guardians *)

(** X5. When the node does not know the transaction, [getVaa] fails with
    the transaction error after its one [getTx] request; the guardians are not
    asked. *)
Theorem getVaa_tx_not_found (this : CosmosContext) (txId : string) (chain : Chain)
        (w w0 : World) (client : CosmWasmClient) :
  Context.getCosmWasmClient this chain w = (Ok client, w0) ->
  getTx (context this) (requests w0) client txId = Ok None ->
  Context.getVaa this txId chain w =
  (Err TxNotFound,
   {| wasmClient := wasmClient w0; requests := requests w0 ++ [GetTx client txId] |}).
Proof.
  intros Hclient Htx. unfold Context.getVaa.
  rewrite (await_ok _ _ _ _ _ Hclient).
  unfold await at 1. unfold request at 1. rewrite Htx. reflexivity.
Qed.

Lemma getVaa_tx_not_found_witness :
  let client := {| endpoint := "https://rpc.osmosis.example" |} in
  Context.getVaa {| context := Cases.unknown_tx; chain := ChainName "osmosis" |}
                 "A1B2" (ChainName "osmosis") initial =
  (Err TxNotFound,
   {| wasmClient := Some client;
      requests := [Connect "https://rpc.osmosis.example"; GetTx client "A1B2"] |}).
Proof.
  intros client.
  apply (getVaa_tx_not_found
           {| context := Cases.unknown_tx; chain := ChainName "osmosis" |}
           "A1B2" (ChainName "osmosis") initial
           {| wasmClient := Some client;
              requests := [Connect "https://rpc.osmosis.example"] |} client);
    reflexivity.
Defined.

(** X6. A transaction whose logs lack the sequence, or hold an empty one,
    makes [getVaa] fail with the sequence error, whether or not the emitter is
    there; with a sequence and no emitter (or an empty one) it fails with the
    emitter error. In both cases the only request after the client is the
    [getTx] one: the chain id is not resolved and the guardians are not asked. *)
Theorem getVaa_missing_log_fields (this : CosmosContext) (txId : string)
        (chain : Chain) (w w0 : World) (client : CosmWasmClient) (tx : IndexedTx)
        (logs : list Log) :
  Context.getCosmWasmClient this chain w = (Ok client, w0) ->
  getTx (context this) (requests w0) client txId = Ok (Some tx) ->
  parseRawLog (context this) (rawLog tx) = Ok logs ->
  let w1 := {| wasmClient := wasmClient w0;
               requests := requests w0 ++ [GetTx client txId] |} in
  let missing (o : option string) := o = None \/ o = Some "" in
  (missing (Context.searchLogs "message.sequence" logs) ->
   Context.getVaa this txId chain w = (Err SequenceNotFound, w1))
  /\ (forall sequence,
         Context.searchLogs "message.sequence" logs = Some sequence ->
         sequence <> "" ->
         missing (Context.searchLogs "message.sender" logs) ->
         Context.getVaa this txId chain w = (Err EmitterNotFound, w1)).
Proof.
  intros Hclient Htx Hlogs w1 missing.
  assert (Hstart : forall k : IndexedTx -> list Log -> Promise VaaInfo,
            await (request (GetTx client txId)
                           (fun sent => getTx (context this) sent client txId))
                  (fun found => match found with
                                | None => reject TxNotFound
                                | Some tx' =>
                                    await (lift (parseRawLog (context this) (rawLog tx')))
                                          (k tx')
                                end) w0
            = k tx logs w1).
  { intros k. unfold await at 1. unfold request at 1. rewrite Htx. fold w1.
    rewrite (await_lift_ok _ _ _ _ Hlogs). reflexivity. }
  split.
  - intros Hs. unfold Context.getVaa. rewrite (await_ok _ _ _ _ _ Hclient).
    rewrite (Hstart (fun tx' logs' => _)).
    destruct Hs as [-> | ->]; reflexivity.
  - intros sequence Hs Hne He. unfold Context.getVaa.
    rewrite (await_ok _ _ _ _ _ Hclient).
    rewrite (Hstart (fun tx' logs' => _)).
    rewrite Hs, (truthy_nonempty _ Hne). cbn [negb].
    destruct He as [-> | ->]; reflexivity.
Qed.

Lemma getVaa_missing_log_fields_witness :
  let client := {| endpoint := "https://rpc.osmosis.example" |} in
  Context.getVaa {| context := Cases.no_sequence; chain := ChainName "osmosis" |}
                 "A1B2" (ChainName "osmosis") initial =
  (Err SequenceNotFound,
   {| wasmClient := Some client;
      requests := [Connect "https://rpc.osmosis.example"; GetTx client "A1B2"] |}).
Proof.
  intros client.
  apply (proj1 (getVaa_missing_log_fields
                  {| context := Cases.no_sequence; chain := ChainName "osmosis" |}
                  "A1B2" (ChainName "osmosis") initial
                  {| wasmClient := Some client;
                     requests := [Connect "https://rpc.osmosis.example"] |}
                  client Sample.tx
                  [{| msg_index := 0; log := "";
                      events := [{| type := "wasm";
                                    attributes := [{| key := "message.sender";
                                                      value := "wormchain1emitter" |}] |}] |}]
                  eq_refl eq_refl eq_refl)).
  left. reflexivity.
Defined.

(** ** Foreign assets: the registry *)

(** X7. For a token of another chain, with the client, the token bridge
    and the home chain's asset address at hand, [getForeignAsset] sends one
    [wrapped_registry] query to the token bridge of [chain], carrying the id
    of the home chain and the base64 of the asset address; the address
    answered is returned, and a query that fails, with whatever error, gives
    null and not a failure. *)
Theorem getForeignAsset_registry (this : CosmosContext) (tokenId : TokenId)
        (chain : Chain) (w w1 : World) (toId homeId : N) (client : CosmWasmClient)
        (contracts : Contracts) (bridge : string) (tokenAddr : list byte) :
  toChainId (context this) chain = Ok toId ->
  toChainId (context this) (tokenChain tokenId) = Ok homeId ->
  toId <> homeId ->
  Context.getCosmWasmClient this chain w = (Ok client, w1) ->
  mustGetContracts (context this) chain = Ok contracts ->
  Context.token_bridge_of contracts = Some bridge ->
  homeFormatAssetAddress (context this) (tokenChain tokenId) (tokenAddress tokenId)
  = Ok tokenAddr ->
  let base64Addr := Base64.encode tokenAddr in
  Context.getForeignAsset this tokenId chain w =
  (match queryWrappedRegistry (context this) (requests w1) client bridge homeId
                              base64Addr with
   | Ok address => Ok (Some address)
   | Err _ => Ok None
   end,
   {| wasmClient := wasmClient w1;
      requests := requests w1 ++
        [QueryContractSmart client bridge (wrapped_registry homeId base64Addr)] |}).
Proof.
  intros Hto Hhome Hne Hclient Hcontracts Hbridge Haddr base64Addr.
  unfold Context.getForeignAsset.
  rewrite (await_lift_ok _ _ _ _ Hto), (await_lift_ok _ _ _ _ Hhome).
  destruct (N.eqb_spec toId homeId) as [Heq|_]; [contradiction|].
  rewrite (await_ok _ _ _ _ _ Hclient), (await_lift_ok _ _ _ _ Hcontracts), Hbridge,
    (await_lift_ok _ _ _ _ Haddr).
  unfold try_catch, await, request, resolve. fold base64Addr.
  destruct (queryWrappedRegistry _ _ _ _ _ _); reflexivity.
Qed.

Lemma getForeignAsset_registry_witness :
  let client := {| endpoint := "https://rpc.osmosis.example" |} in
  let sent := [Connect "https://rpc.osmosis.example";
               QueryContractSmart client Sample.osmosis_bridge
                 (wrapped_registry 2
                    (Base64.encode
                       (Hex.decode
                          (Context.buildTokenId (tokenAddress Cases.ethereum_token)))))] in
  Context.getForeignAsset Sample.osmosis Cases.ethereum_token (ChainId 20) initial
  = (Ok None, {| wasmClient := Some client; requests := sent |})
  /\ Context.getForeignAsset {| context := Cases.registered; chain := ChainName "osmosis" |}
                             Cases.ethereum_token (ChainId 20) initial
     = (Ok (Some "osmo1wrappedtoken"), {| wasmClient := Some client; requests := sent |}).
Proof.
  intros client sent.
  set (w1 := {| wasmClient := Some client;
                requests := [Connect "https://rpc.osmosis.example"] |}).
  set (contracts := {| core := Some "osmo1core";
                       token_bridge := Some Sample.osmosis_bridge |}).
  set (tokenAddr := Hex.decode (Context.buildTokenId (tokenAddress Cases.ethereum_token))).
  split.
  - apply (getForeignAsset_registry Sample.osmosis Cases.ethereum_token (ChainId 20)
             initial w1 20%N 2%N client contracts Sample.osmosis_bridge tokenAddr);
      first [reflexivity | discriminate].
  - apply (getForeignAsset_registry
             {| context := Cases.registered; chain := ChainName "osmosis" |}
             Cases.ethereum_token (ChainId 20)
             initial w1 20%N 2%N client contracts Sample.osmosis_bridge tokenAddr);
      first [reflexivity | discriminate].
Defined.

(** X8. A chain with contracts and no token bridge: for a token of another
    chain [getForeignAsset] fails with the token-bridge error, but only after
    the client has been obtained, so a connection made for it stays cached;
    nothing is asked of the registry. *)
Theorem getForeignAsset_no_token_bridge (this : CosmosContext) (tokenId : TokenId)
        (chain : Chain) (w w1 : World) (toId homeId : N) (client : CosmWasmClient)
        (contracts : Contracts) :
  toChainId (context this) chain = Ok toId ->
  toChainId (context this) (tokenChain tokenId) = Ok homeId ->
  toId <> homeId ->
  Context.getCosmWasmClient this chain w = (Ok client, w1) ->
  mustGetContracts (context this) chain = Ok contracts ->
  token_bridge contracts = None \/ token_bridge contracts = Some "" ->
  Context.getForeignAsset this tokenId chain w = (Err TokenBridgeNotFound, w1)
  /\ wasmClient w1 = Some client.
Proof.
  intros Hto Hhome Hne Hclient Hcontracts Hbridge. split.
  - unfold Context.getForeignAsset.
    rewrite (await_lift_ok _ _ _ _ Hto), (await_lift_ok _ _ _ _ Hhome).
    destruct (N.eqb_spec toId homeId) as [Heq|_]; [contradiction|].
    rewrite (await_ok _ _ _ _ _ Hclient), (await_lift_ok _ _ _ _ Hcontracts).
    unfold Context.token_bridge_of. destruct Hbridge as [-> | ->]; reflexivity.
  - apply (getCosmWasmClient_stores this chain w w1 client Hclient).
Qed.

Lemma getForeignAsset_no_token_bridge_witness :
  let client := {| endpoint := "https://rpc.osmosis.example" |} in
  let w1 := {| wasmClient := Some client;
               requests := [Connect "https://rpc.osmosis.example"] |} in
  Context.getForeignAsset {| context := Cases.no_bridge; chain := ChainName "osmosis" |}
                          Cases.ethereum_token (ChainId 20) initial
  = (Err TokenBridgeNotFound, w1)
  /\ wasmClient w1 = Some client.
Proof.
  intros client w1.
  apply (getForeignAsset_no_token_bridge
           {| context := Cases.no_bridge; chain := ChainName "osmosis" |}
           Cases.ethereum_token (ChainId 20) initial w1 20%N 2%N client
           {| core := Some "osmo1core"; token_bridge := None |});
    first [reflexivity | discriminate | left; reflexivity].
Defined.

(** ** Redeeming: what it never does, and its failures *)

(** X9. [redeem] only builds a transaction: whatever its arguments and
    whether it succeeds or fails, it leaves the world as it found it (no
    client, no request), and its outcome does not depend on the world. *)
Theorem redeem_no_network (this : CosmosContext) (destChain : Chain)
        (signedVAA : list byte) (payerAddr : option string) :
  exists outcome : result CosmosTransaction,
    forall w : World, Context.redeem this destChain signedVAA payerAddr w = (outcome, w).
Proof.
  unfold Context.redeem, await, lift, resolve.
  destruct (toChainName (context this) destChain) as [chainName|e]; [|eauto].
  destruct (parseVaa (context this) signedVAA) as [vaa|e]; [|eauto].
  destruct (parseTokenTransferPayload (context this) (payload vaa)) as [transfer|e];
    [|eauto].
  destruct (Context.getNativeDenom this (ChainName chainName)) as [denom|e]; [|eauto].
  destruct (Context.getPrefix this (ChainName chainName)) as [prefix|e]; [|eauto].
  destruct (cosmos.humanAddress prefix _) as [recipient|e]; [|eauto].
  destruct (Context.getTokenBridgeAddress this chainName) as [bridge|e]; [|eauto].
  destruct (calculateFee (context this) 1000000 _) as [fee|e]; eauto.
Qed.

(** X10. The payer of a redeem: a payer that is a non-empty string is the
    sender of the one message of the transaction, whatever the recipient is;
    the empty string counts as no payer, so the transaction is the one built
    without a payer. *)
Theorem redeem_payer (this : CosmosContext) (destChain : Chain)
        (signedVAA : list byte) (w : World) :
  Context.redeem this destChain signedVAA (Some "") w
  = Context.redeem this destChain signedVAA None w
  /\ (forall (payer : string) (tx : CosmosTransaction) (w' : World),
         payer <> "" ->
         Context.redeem this destChain signedVAA (Some payer) w = (Ok tx, w') ->
         exists m, msgs tx = [m] /\ sender (encoded m) = payer).
Proof.
  split; [reflexivity|].
  intros payer tx w' Hne. unfold Context.redeem, await, lift, resolve.
  destruct (toChainName (context this) destChain) as [chainName|e]; [|discriminate].
  destruct (parseVaa (context this) signedVAA) as [vaa|e]; [|discriminate].
  destruct (parseTokenTransferPayload (context this) (payload vaa)) as [transfer|e];
    [|discriminate].
  destruct (Context.getNativeDenom this (ChainName chainName)) as [denom|e];
    [|discriminate].
  destruct (Context.getPrefix this (ChainName chainName)) as [prefix|e]; [|discriminate].
  destruct (cosmos.humanAddress prefix _) as [recipient|e]; [|discriminate].
  destruct (Context.getTokenBridgeAddress this chainName) as [bridge|e]; [|discriminate].
  destruct (calculateFee (context this) 1000000 _) as [fee|e]; [|discriminate].
  intros [= <- _]. eexists. split; [reflexivity|].
  cbn. rewrite (truthy_nonempty _ Hne). reflexivity.
Qed.

Lemma redeem_payer_witness :
  exists m,
    msgs {| fee := {| fee_amount := [{| denom := "uosmo"; coin_amount := "100000" |}];
                      gas := "1000000" |};
            msgs := [buildExecuteMsg "osmo1payer" Sample.osmosis_bridge
                       (submit_vaa_json (Base64.encode (repeat x07 101)))];
            memo := "Wormhole - Complete Transfer" |} = [m]
    /\ sender (encoded m) = "osmo1payer".
Proof.
  apply (proj2 (redeem_payer Sample.osmosis (ChainId 20) (repeat x07 101) initial)
               "osmo1payer" _ initial).
  - discriminate.
  - vm_compute. reflexivity.
Defined.

Lemma getNativeDenom_served (this : CosmosContext) (chain : Chain) (denom : string) :
  Context.getNativeDenom this chain = Ok denom <->
  ((toChainName (context this) chain = Ok "osmosis" /\ denom = "uosmo")
   \/ (toChainName (context this) chain = Ok "wormchain" /\ denom = "uworm")).
Proof.
  unfold Context.getNativeDenom.
  destruct (toChainName (context this) chain) as [name|e]; cbn [result_bind].
  2:{ split; [discriminate|intros [[H _]|[H _]]; discriminate H]. }
  cbn [chain_entry]. unfold NATIVE_DENOMS. cbn [list_to_map foldr uncurry].
  destruct (decide (name = "osmosis")) as [->|Ho].
  - rewrite lookup_insert_eq. cbn. split.
    + intros [= <-]. left. auto.
    + intros [(_ & ->)|(H & _)]; [reflexivity|discriminate H].
  - rewrite (lookup_insert_ne _ "osmosis" name) by congruence.
    destruct (decide (name = "wormchain")) as [->|Hw].
    + rewrite lookup_insert_eq. cbn. split.
      * intros [= <-]. right. auto.
      * intros [(H & _)|(_ & ->)]; [discriminate H|reflexivity].
    + rewrite (lookup_insert_ne _ "wormchain" name) by congruence.
      rewrite lookup_empty. split; [discriminate|].
      intros [(H & _)|(H & _)]; congruence.
Qed.

Lemma getPrefix_served (this : CosmosContext) (chain : Chain) (prefix : string) :
  Context.getPrefix this chain = Ok prefix <->
  ((toChainName (context this) chain = Ok "osmosis" /\ prefix = "osmo")
   \/ (toChainName (context this) chain = Ok "wormchain" /\ prefix = "wormchain")).
Proof.
  unfold Context.getPrefix.
  destruct (toChainName (context this) chain) as [name|e]; cbn [result_bind].
  2:{ split; [discriminate|intros [[H _]|[H _]]; discriminate H]. }
  cbn [chain_entry]. unfold PREFIXES. cbn [list_to_map foldr uncurry].
  destruct (decide (name = "osmosis")) as [->|Ho].
  - rewrite lookup_insert_eq. cbn. split.
    + intros [= <-]. left. auto.
    + intros [(_ & ->)|(H & _)]; [reflexivity|discriminate H].
  - rewrite (lookup_insert_ne _ "osmosis" name) by congruence.
    destruct (decide (name = "wormchain")) as [->|Hw].
    + rewrite lookup_insert_eq. cbn. split.
      * intros [= <-]. right. auto.
      * intros [(H & _)|(_ & ->)]; [discriminate H|reflexivity].
    + rewrite (lookup_insert_ne _ "wormchain" name) by congruence.
      rewrite lookup_empty. split; [discriminate|].
      intros [(H & _)|(H & _)]; congruence.
Qed.

(** X11. [getNativeDenom] and [getPrefix] serve the same chains: the one
    succeeds on a chain exactly when the other does, for the two tables have
    the same keys. [getNativeDenom] succeeds exactly on the chains named
    Osmosis, with [uosmo], and Wormchain, with [uworm]; [getPrefix] exactly
    on the same two, with [osmo] and [wormchain]. *)
Theorem getNativeDenom_getPrefix_same_chains (this : CosmosContext) (chain : Chain) :
  ((exists denom, Context.getNativeDenom this chain = Ok denom)
   <-> (exists prefix, Context.getPrefix this chain = Ok prefix))
  /\ (forall denom : string,
         Context.getNativeDenom this chain = Ok denom <->
         ((toChainName (context this) chain = Ok "osmosis" /\ denom = "uosmo")
          \/ (toChainName (context this) chain = Ok "wormchain" /\ denom = "uworm")))
  /\ (forall prefix : string,
         Context.getPrefix this chain = Ok prefix <->
         ((toChainName (context this) chain = Ok "osmosis" /\ prefix = "osmo")
          \/ (toChainName (context this) chain = Ok "wormchain"
              /\ prefix = "wormchain"))).
Proof.
  split; [|split; [apply getNativeDenom_served|apply getPrefix_served]].
  split.
  - intros [denom H]. apply getNativeDenom_served in H as [(Hn & _)|(Hn & _)].
    + exists "osmo". apply getPrefix_served. auto.
    + exists "wormchain". apply getPrefix_served. auto.
  - intros [prefix H]. apply getPrefix_served in H as [(Hn & _)|(Hn & _)].
    + exists "uosmo". apply getNativeDenom_served. auto.
    + exists "uworm". apply getNativeDenom_served. auto.
Qed.

(** X12. An attestation for a chain that resolves to a name outside the
    tables is refused with the native-denomination error, before the prefix
    and the token bridge are looked at; an attestation that does not parse is
    refused first of all, with the parser's error. *)
Theorem redeem_unsupported_chain (this : CosmosContext) (destChain : Chain)
        (signedVAA : list byte) (payerAddr : option string) (w : World)
        (chainName : string) :
  toChainName (context this) destChain = Ok chainName ->
  (forall e, parseVaa (context this) signedVAA = Err e ->
             Context.redeem this destChain signedVAA payerAddr w = (Err e, w))
  /\ (forall vaa transfer,
         parseVaa (context this) signedVAA = Ok vaa ->
         parseTokenTransferPayload (context this) (payload vaa) = Ok transfer ->
         toChainName (context this) (ChainName chainName) = Ok chainName ->
         NATIVE_DENOMS !! chainName = None ->
         Context.redeem this destChain signedVAA payerAddr w
         = (Err (NativeDenomNotFound (ChainName chainName)), w)).
Proof.
  intros Hname. split.
  - intros e Hvaa. unfold Context.redeem.
    rewrite (await_lift_ok _ _ _ _ Hname). unfold await, lift. rewrite Hvaa. reflexivity.
  - intros vaa transfer Hvaa Htransfer Hidem Hnone. unfold Context.redeem.
    rewrite (await_lift_ok _ _ _ _ Hname), (await_lift_ok _ _ _ _ Hvaa),
      (await_lift_ok _ _ _ _ Htransfer).
    unfold await at 1, lift at 1, Context.getNativeDenom.
    rewrite Hidem. cbn [result_bind chain_entry]. rewrite Hnone. reflexivity.
Qed.

Lemma redeem_unsupported_chain_witness :
  Context.redeem Sample.osmosis (ChainId 2) (repeat x07 101) None initial
  = (Err (NativeDenomNotFound (ChainName "ethereum")), initial).
Proof.
  apply (proj2 (redeem_unsupported_chain Sample.osmosis (ChainId 2) (repeat x07 101)
                  None initial "ethereum" eq_refl)
               {| emitterChain := 20%N; emitterAddress := []; sequence := 42;
                  payload := repeat x07 101 |}
               {| payloadType := 1; amount := 0; toChain := 20%N;
                  to := repeat x07 32 |});
    reflexivity.
Defined.

(** ** Completion: failures *)

Lemma startsWith_0x (s : string) :
  Js.startsWith "0x" s = true -> exists rest, s = "0x" +:+ rest.
Proof.
  unfold Js.startsWith.
  destruct s as [|a [|b rest]]; cbn [String.prefix]; intros H; try discriminate H.
  - destruct (ascii_dec "0" a); discriminate H.
  - destruct (ascii_dec "0" a) as [<-|]; [|discriminate H].
    destruct (ascii_dec "x" b) as [<-|]; [|discriminate H].
    exists rest. reflexivity.
Qed.

(** X13. When the context's own chain has no contracts or no token bridge,
    [isTransferCompleted] fails at once, for every [destChain] and argument:
    nothing is sent and no client is created. *)
Theorem isTransferCompleted_no_bridge (this : CosmosContext) (destChain : Chain)
        (signedVaa : string) (w : World) :
  (forall e, mustGetContracts (context this) (chain this) = Err e ->
             Context.isTransferCompleted this destChain signedVaa w = (Err e, w))
  /\ (forall contracts,
         mustGetContracts (context this) (chain this) = Ok contracts ->
         token_bridge contracts = None \/ token_bridge contracts = Some "" ->
         Context.isTransferCompleted this destChain signedVaa w
         = (Err TokenBridgeNotFound, w)).
Proof.
  split.
  - intros e H. unfold Context.isTransferCompleted, await, lift. rewrite H. reflexivity.
  - intros contracts H Hb. unfold Context.isTransferCompleted.
    rewrite (await_lift_ok _ _ _ _ H). unfold Context.token_bridge_of.
    destruct Hb as [-> | ->]; reflexivity.
Qed.

Lemma isTransferCompleted_no_bridge_witness :
  Context.isTransferCompleted {| context := Cases.no_bridge; chain := ChainName "osmosis" |}
                              (ChainName "wormchain") "0x0102" initial
  = (Err TokenBridgeNotFound, initial).
Proof.
  apply (proj2 (isTransferCompleted_no_bridge
                  {| context := Cases.no_bridge; chain := ChainName "osmosis" |}
                  (ChainName "wormchain") "0x0102" initial)
               {| core := Some "osmo1core"; token_bridge := None |}).
  - reflexivity.
  - left. reflexivity.
Defined.

(** X14. An attestation string that is not even-length hex after [0x] is
    refused only after the client has been obtained: the call fails with the
    error of [arrayify], no query is sent, and a client created on the way
    stays cached. *)
Theorem isTransferCompleted_malformed_vaa (this : CosmosContext) (destChain : Chain)
        (signedVaa : string) (w w1 : World) (contracts : Contracts) (bridge : string)
        (client : CosmWasmClient) :
  mustGetContracts (context this) (chain this) = Ok contracts ->
  Context.token_bridge_of contracts = Some bridge ->
  Context.getCosmWasmClient this destChain w = (Ok client, w1) ->
  Ethers.isHexString signedVaa = false
  \/ Nat.even (String.length signedVaa) = false ->
  exists e, Context.isTransferCompleted this destChain signedVaa w = (Err e, w1)
            /\ Ethers.arrayify signedVaa = Err e
            /\ wasmClient w1 = Some client.
Proof.
  intros Hcontracts Hbridge Hclient Hbad.
  assert (Herr : exists e, Ethers.arrayify signedVaa = Err e).
  { unfold Ethers.arrayify. destruct (Ethers.isHexString signedVaa) eqn:Hhex.
    - destruct Hbad as [Hbad|Hodd]; [discriminate Hbad|].
      assert (Hlen : String.length signedVaa
                     = S (S (String.length (Js.substring_from 2 signedVaa)))).
      { unfold Ethers.isHexString in Hhex. apply andb_prop in Hhex as [Hp _].
        destruct (startsWith_0x _ Hp) as [rest ->]. reflexivity. }
      rewrite Hlen in Hodd. cbn [Nat.even] in Hodd. rewrite Hodd. eauto.
    - eauto. }
  destruct Herr as [e He]. exists e. split; [|split; [exact He|]].
  - unfold Context.isTransferCompleted.
    rewrite (await_lift_ok _ _ _ _ Hcontracts), Hbridge, (await_ok _ _ _ _ _ Hclient).
    unfold await, lift. rewrite He. reflexivity.
  - apply (getCosmWasmClient_stores this destChain w w1 client Hclient).
Qed.

Lemma isTransferCompleted_malformed_vaa_witness :
  let client := {| endpoint := "https://rpc.wormchain.example" |} in
  let w1 := {| wasmClient := Some client;
               requests := [Connect "https://rpc.wormchain.example"] |} in
  exists e,
    Context.isTransferCompleted Sample.osmosis (ChainName "wormchain") "0x012" initial
    = (Err e, w1)
    /\ Ethers.arrayify "0x012" = Err e
    /\ wasmClient w1 = Some client.
Proof.
  intros client w1.
  apply (isTransferCompleted_malformed_vaa Sample.osmosis (ChainName "wormchain")
           "0x012" initial w1
           {| core := Some "osmo1core"; token_bridge := Some Sample.osmosis_bridge |}
           Sample.osmosis_bridge client); try reflexivity.
  right. reflexivity.
Defined.

(** ** Universal addresses *)

(** X15. A universal address is always 32 bytes: when [formatAddress]
    succeeds its result is the canonical bytes of the address behind as many
    zero bytes as it takes to make 32, and the canonical bytes are its last
    bytes; an address of more than 32 canonical bytes is refused. *)
Theorem formatAddress_universal (address : string) :
  (forall universal,
      Context.formatAddress address = Ok universal ->
      length universal = 32%nat
      /\ exists canonical,
           cosmos.canonicalAddress address = Ok canonical
           /\ universal = repeat x00 (32 - length canonical) ++ canonical
           /\ last_bytes (length canonical) universal = canonical)
  /\ (forall canonical,
         cosmos.canonicalAddress address = Ok canonical ->
         (32 < length canonical)%nat ->
         Context.formatAddress address = Err (Thrown "value out of range")).
Proof.
  unfold Context.formatAddress, Ethers.zeroPad. split.
  - intros universal.
    destruct (cosmos.canonicalAddress address) as [canonical|e]; cbn [result_bind];
      [|discriminate].
    destruct (Nat.ltb_spec 32 (length canonical)) as [|Hle]; [discriminate|].
    intros [= <-]. split.
    + rewrite length_app, repeat_length. lia.
    + exists canonical. split; [reflexivity|]. split; [reflexivity|].
      unfold last_bytes. rewrite length_app, repeat_length.
      replace (32 - length canonical + length canonical - length canonical)%nat
        with (length (repeat x00 (32 - length canonical)))
        by (rewrite repeat_length; lia).
      rewrite skipn_app, skipn_all, Nat.sub_diag. reflexivity.
  - intros canonical -> Hlong. cbn [result_bind].
    destruct (Nat.ltb_spec 32 (length canonical)); [reflexivity|lia].
Qed.

Lemma formatAddress_universal_witness :
  length (repeat x00 12 ++
          [x01; x02; x03; x04; x05; x06; x07; x08; x09; x0a;
           x0b; x0c; x0d; x0e; x0f; x10; x11; x12; x13; x14]) = 32%nat.
Proof.
  apply (proj1 (formatAddress_universal Sample.account)).
  vm_compute. reflexivity.
Defined.

Lemma all_digits_encode (bs : list byte) : Hex.all_digits (Hex.encode bs) = true.
Proof.
  induction bs as [|b bs IH]; [reflexivity|].
  cbn [Hex.encode]. rewrite <- IH. destruct b; reflexivity.
Qed.

Lemma strip_zeros_zero_bytes (n : nat) (bs : list byte) :
  Ethers.strip_zeros (Hex.encode (repeat x00 n ++ bs))
  = Ethers.strip_zeros (Hex.encode bs).
Proof. induction n as [|n IH]; [reflexivity|exact IH]. Qed.

Lemma strip_zeros_high_byte (b : byte) (bs : list byte) :
  16 <= Bytes.to_Z b ->
  Ethers.strip_zeros (Hex.encode (b :: bs)) = Hex.encode (b :: bs).
Proof.
  intros H. destruct b; first [reflexivity | vm_compute in H; contradiction].
Qed.

Lemma strip_zeros_low_byte (b : byte) (bs : list byte) :
  0 < Bytes.to_Z b < 16 ->
  Ethers.strip_zeros (Hex.encode (b :: bs))
  = String (Hex.digit (Bytes.to_Z b)) (Hex.encode bs).
Proof.
  intros [Hlo Hhi].
  destruct b; first [reflexivity | vm_compute in Hhi; discriminate Hhi
                     | vm_compute in Hlo; discriminate Hlo].
Qed.

Lemma startsWith_0x_app (s : string) : Js.startsWith "0x" ("0x" +:+ s) = true.
Proof.
  unfold Js.startsWith. cbn [String.append String.prefix].
  destruct (ascii_dec "0" "0"); [|congruence].
  destruct (ascii_dec "x" "x"); [|congruence].
  destruct s; reflexivity.
Qed.

Lemma hex_string_data (bs : list byte) :
  Context.address_data (AddrString ("0x" +:+ Hex.encode bs))
  = Ok (map Bytes.to_Z (Hex.decode (Ethers.strip_zeros (Hex.encode bs)))).
Proof.
  unfold Context.address_data, Ethers.hexStripZeros, Ethers.isHexString.
  rewrite startsWith_0x_app.
  change (Js.substring_from 2 ("0x" +:+ Hex.encode bs)) with (Hex.encode bs).
  rewrite all_digits_encode. reflexivity.
Qed.

(** An odd number of digits: the last one is dropped. *)
Lemma decode_odd_length (c : ascii) (bs : list byte) :
  Hex.value c <> None ->
  length (Hex.decode (String c (Hex.encode bs))) = length bs.
Proof.
  revert c. induction bs as [|b bs IH]; intros c Hc; [reflexivity|].
  cbn [Hex.encode].
  assert (H : exists c1 c2, Hex.of_byte b = String c1 (String c2 "")
                            /\ Hex.value c1 <> None /\ Hex.value c2 <> None).
  { destruct b; do 2 eexists; (split; [reflexivity|split; discriminate]). }
  destruct H as (c1 & c2 & -> & H1 & H2).
  change (String c (String c1 (String c2 "") +:+ Hex.encode bs))
    with (String c (String c1 (String c2 (Hex.encode bs)))).
  cbn [Hex.decode].
  destruct (Hex.value c) as [v|]; [|contradiction].
  destruct (Hex.value c1) as [v1|]; [|contradiction].
  cbn [length]. f_equal. apply IH, H2.
Qed.

(** X16. A universal address given to [parseAddress] as a [0x] string has
    its leading zero digits stripped, digit by digit. When the first byte
    that is not zero is at least 0x10, what is encoded is that byte and the
    bytes after it: the padding is gone. When that byte is below 0x10 its
    zero digit goes as well, the digits left are odd in number, and the data
    encoded is one byte short. An address of zero bytes only is encoded as no
    bytes at all. *)
Theorem parseAddress_hex_string (this : CosmosContext) (prefix : string) (n : nat)
        (b : byte) (rest : list byte) :
  chain_entry PREFIXES (chain this) = Some prefix ->
  let hex (bs : list byte) := AddrString ("0x" +:+ Hex.encode bs) in
  (16 <= Bytes.to_Z b ->
   Context.parseAddress this (hex (repeat x00 n ++ b :: rest))
   = cosmos.humanAddress prefix (map Bytes.to_Z (b :: rest)))
  /\ (0 < Bytes.to_Z b < 16 ->
      exists data,
        Context.address_data (hex (repeat x00 n ++ b :: rest)) = Ok data
        /\ length data = length rest
        /\ Context.parseAddress this (hex (repeat x00 n ++ b :: rest))
           = cosmos.humanAddress prefix data)
  /\ Context.parseAddress this (hex (repeat x00 n)) = cosmos.humanAddress prefix [].
Proof.
  intros Hp hex. unfold Context.parseAddress, hex. rewrite Hp.
  rewrite !hex_string_data. cbn [result_bind]. split; [|split].
  - intros Hhigh.
    rewrite strip_zeros_zero_bytes, (strip_zeros_high_byte b rest Hhigh),
      HexFacts.decode_encode. reflexivity.
  - intros Hlow. eexists. split; [reflexivity|]. split; [|reflexivity].
    rewrite strip_zeros_zero_bytes, (strip_zeros_low_byte b rest Hlow), length_map.
    apply decode_odd_length.
    destruct Hlow as [Hlo Hhi].
    destruct b; first [discriminate | vm_compute in Hhi; discriminate Hhi
                       | vm_compute in Hlo; discriminate Hlo].
  - replace (repeat x00 n) with (repeat x00 n ++ []) by apply app_nil_r.
    rewrite strip_zeros_zero_bytes. reflexivity.
Qed.

Lemma parseAddress_hex_string_witness :
  Context.parseAddress Sample.osmosis
    (AddrString ("0x" +:+ Hex.encode (repeat x00 12 ++ x14 :: repeat x07 19)))
  = cosmos.humanAddress "osmo" (map Bytes.to_Z (x14 :: repeat x07 19)).
Proof.
  apply (proj1 (parseAddress_hex_string Sample.osmosis "osmo" 12 x14 (repeat x07 19)
                  eq_refl)).
  vm_compute. discriminate.
Defined.

(** ** Balances and decimals *)

(** X17. The native unit has six decimals, known without the network:
    for the native denomination of [chain], [fetchTokenDecimals] returns 6
    and no client is created and nothing is asked. On a chain with no native
    denomination it fails with that error for every token address, before
    any request. *)
Theorem fetchTokenDecimals_native (this : CosmosContext) (node : Node)
        (tokenAddr : string) (chain : Chain) (l : Ledger) :
  (Context.getNativeDenom this chain = Ok tokenAddr ->
   Balances.fetchTokenDecimals this node tokenAddr chain l = (Ok 6, l))
  /\ (forall e, Context.getNativeDenom this chain = Err e ->
                Balances.fetchTokenDecimals this node tokenAddr chain l = (Err e, l)).
Proof.
  unfold Balances.fetchTokenDecimals, then_, thrown. split.
  - intros ->. rewrite String.eqb_refl. reflexivity.
  - intros e ->. reflexivity.
Qed.

Lemma fetchTokenDecimals_native_witness :
  Balances.fetchTokenDecimals Sample.osmosis Balances.node "uosmo" (ChainId 20)
                              (initial, [])
  = (Ok 6, (initial, [])).
Proof.
  apply (proj1 (fetchTokenDecimals_native Sample.osmosis Balances.node "uosmo"
                  (ChainId 20) (initial, []))).
  reflexivity.
Defined.

(** X18. For any other token address on a served chain the decimals are
    what the token's [token_info] answers: one query to the token itself,
    through the client for [chain]. *)
Theorem fetchTokenDecimals_contract (this : CosmosContext) (node : Node)
        (tokenAddr native : string) (chain : Chain) (w w1 : World)
        (asked : list NodeRequest) (client : CosmWasmClient) :
  Context.getNativeDenom this chain = Ok native ->
  tokenAddr <> native ->
  Context.getCosmWasmClient this chain w = (Ok client, w1) ->
  Balances.fetchTokenDecimals this node tokenAddr chain (w, asked)
  = (queryTokenInfo node (requests w1) asked client tokenAddr,
     (w1, asked ++ [QueryTokenInfo client tokenAddr])).
Proof.
  intros Hnative Hne Hclient.
  unfold Balances.fetchTokenDecimals, then_ at 1, thrown. rewrite Hnative.
  destruct (String.eqb_spec tokenAddr native) as [Heq|_]; [contradiction|].
  unfold then_, on_world, ask_node. cbn [fst snd]. rewrite Hclient. reflexivity.
Qed.

Lemma fetchTokenDecimals_contract_witness :
  let client := {| endpoint := "https://rpc.osmosis.example" |} in
  Balances.fetchTokenDecimals Sample.osmosis Balances.node "osmo1wrappedtoken"
                              (ChainId 20) (initial, [])
  = (Ok 8,
     ({| wasmClient := Some client;
         requests := [Connect "https://rpc.osmosis.example"] |},
      [QueryTokenInfo client "osmo1wrappedtoken"])).
Proof.
  intros client.
  apply (fetchTokenDecimals_contract Sample.osmosis Balances.node "osmo1wrappedtoken"
           "uosmo" (ChainId 20) initial _ [] client); first [reflexivity|discriminate].
Defined.

(** X19. A token with no representation on [chain] has no balance:
    when [getForeignAsset] gives null, or the empty string, [getTokenBalance]
    returns null and asks the node nothing. *)
Theorem getTokenBalance_unregistered (this : CosmosContext) (node : Node)
        (walletAddress : string) (tokenId : TokenId) (chain : Chain) (w w1 : World)
        (asked : list NodeRequest) (found : option string) :
  Context.getForeignAsset this tokenId chain w = (Ok found, w1) ->
  found = None \/ found = Some "" ->
  Balances.getTokenBalance this node walletAddress tokenId chain (w, asked)
  = (Ok None, (w1, asked)).
Proof.
  intros Hfound Hnull. unfold Balances.getTokenBalance, then_, on_world.
  cbn [fst snd]. rewrite Hfound. destruct Hnull as [-> | ->]; reflexivity.
Qed.

Lemma getTokenBalance_unregistered_witness :
  Balances.getTokenBalance Sample.osmosis Balances.node Sample.account
                           Cases.ethereum_token (ChainId 20) (initial, [])
  = (Ok None,
     (snd (Context.getForeignAsset Sample.osmosis Cases.ethereum_token (ChainId 20)
                                   initial), [])).
Proof.
  apply (getTokenBalance_unregistered Sample.osmosis Balances.node Sample.account
           Cases.ethereum_token (ChainId 20) initial _ [] None).
  - vm_compute. reflexivity.
  - left. reflexivity.
Defined.

(** X20. A token whose representation on [chain] is the chain's native
    denomination is a bank balance: [getTokenBalance] is then
    [getNativeBalance] for the wallet on [chain] with no asset named, run
    after the lookup, and no token contract is queried. *)
Theorem getTokenBalance_native (this : CosmosContext) (node : Node)
        (walletAddress : string) (tokenId : TokenId) (chain : Chain) (w w1 : World)
        (asked : list NodeRequest) (native : string) :
  Context.getForeignAsset this tokenId chain w = (Ok (Some native), w1) ->
  Context.getNativeDenom this chain = Ok native ->
  Balances.getTokenBalance this node walletAddress tokenId chain (w, asked)
  = match Balances.getNativeBalance this node walletAddress chain None (w1, asked) with
    | (Ok balance, l) => (Ok (Some balance), l)
    | (Err e, l) => (Err e, l)
    end.
Proof.
  intros Hfound Hnative. unfold Balances.getTokenBalance, then_ at 1, on_world.
  cbn [fst snd]. rewrite Hfound.
  assert (Hne : native <> "").
  { unfold Context.getNativeDenom in Hnative.
    destruct (toChainName (context this) chain) as [name|]; [|discriminate].
    cbn [result_bind chain_entry] in Hnative.
    destruct (NATIVE_DENOMS !! name) as [v|]; [|discriminate].
    unfold Js.truthy in Hnative. destruct (String.eqb_spec v ""); [discriminate|].
    injection Hnative as <-. assumption. }
  rewrite (truthy_nonempty _ Hne). cbn [negb].
  unfold then_ at 1, thrown. rewrite Hnative, String.eqb_refl.
  unfold then_ at 1, resolved.
  destruct (Balances.getNativeBalance _ _ _ _ _ _) as [[balance|e] l]; reflexivity.
Qed.

Lemma getTokenBalance_native_witness :
  let client := {| endpoint := "https://rpc.osmosis.example" |} in
  Balances.getTokenBalance Sample.osmosis Balances.node Sample.account
    {| tokenChain := ChainName "osmosis"; tokenAddress := "uosmo" |} (ChainId 20)
    (initial, [])
  = (Ok (Some 250),
     ({| wasmClient := Some client;
         requests := [Connect "https://rpc.osmosis.example"] |},
      [GetBalance client Sample.account (Some "uosmo")])).
Proof.
  intros client.
  pose proof (getTokenBalance_native Sample.osmosis Balances.node Sample.account
                {| tokenChain := ChainName "osmosis"; tokenAddress := "uosmo" |}
                (ChainId 20) initial initial [] "uosmo" eq_refl eq_refl) as H.
  vm_compute in H. vm_compute. exact H.
Defined.

(** X21. What [getNativeBalance] asks for: the asset named, when it is a
    non-empty string, and otherwise the native denomination of the chain's
    name (nothing, for a name outside the table); the request goes through
    the client obtained for the chain's name, and the amount answered is read
    by [BigNumber.from]. *)
Theorem getNativeBalance_denom (this : CosmosContext) (node : Node)
        (walletAddress : string) (chain : Chain) (asset : option string)
        (w w1 : World) (asked : list NodeRequest) (name : string)
        (client : CosmWasmClient) :
  toChainName (context this) chain = Ok name ->
  Context.getCosmWasmClient this (ChainName name) w = (Ok client, w1) ->
  let searchDenom :=
    match asset with
    | Some a => if String.eqb a "" then NATIVE_DENOMS !! name else Some a
    | None => NATIVE_DENOMS !! name
    end in
  Balances.getNativeBalance this node walletAddress chain asset (w, asked)
  = (match getBalance node (requests w1) asked client walletAddress searchDenom with
     | Ok amount => BigNumber_from node amount
     | Err e => Err e
     end,
     (w1, asked ++ [GetBalance client walletAddress searchDenom])).
Proof.
  intros Hname Hclient searchDenom.
  assert (Hd : Balances.asset_or_native asset name = searchDenom).
  { unfold Balances.asset_or_native, searchDenom, Js.truthy.
    destruct asset as [a|]; [|reflexivity]. destruct (String.eqb a ""); reflexivity. }
  unfold Balances.getNativeBalance, then_ at 1, thrown at 1. rewrite Hname.
  unfold then_ at 1, on_world. cbn [fst snd]. rewrite Hclient, Hd.
  unfold then_, ask_node, thrown. cbn [fst snd].
  destruct (getBalance node _ _ _ _ _); reflexivity.
Qed.

Lemma getNativeBalance_denom_witness :
  let client := {| endpoint := "https://rpc.osmosis.example" |} in
  Balances.getNativeBalance Sample.osmosis Balances.node Sample.account (ChainId 20)
                            (Some "") (initial, [])
  = (Ok 250,
     ({| wasmClient := Some client;
         requests := [Connect "https://rpc.osmosis.example"] |},
      [GetBalance client Sample.account (Some "uosmo")])).
Proof.
  intros client.
  apply (getNativeBalance_denom Sample.osmosis Balances.node Sample.account
           (ChainId 20) (Some "") initial _ [] "osmosis" client); reflexivity.
Defined.

(** ** Wormhole Connect: configuration checks *)

Ltac check_step :=
  match goal with
  | |- context [Connect.given None] => change (Connect.given None) with false
  | |- context [Connect.given ?o] => destruct (Connect.given o) eqn:?
  | |- context [String.eqb ?a ?b] => destruct (String.eqb_spec a b)
  | |- context [Connect.defined ?x] => destruct (Connect.defined x) eqn:?
  | |- context [bool_decide ?P] => destruct (bool_decide_reflect P)
  end.

Ltac run_checks :=
  unfold Connect.validateDefaults;
  repeat (cbn [negb andb orb Connect.fromNetwork Connect.toNetwork Connect.token
               Connect.requiredNetwork fst snd];
          try check_step).

Lemma validateDefaults_run (CHAINS : gmap string Connect.ChainConfig)
        (TOKENS : gmap string Connect.TokenConfig) (d : Connect.BridgeDefaults) :
  exists out printed,
    Connect.validateDefaults CHAINS TOKENS (Some d) = (Ok (Some out), printed)
    /\ Connect.valid_defaults CHAINS TOKENS out
    /\ (Connect.fromNetwork out = Connect.fromNetwork d \/ Connect.fromNetwork out = None)
    /\ (Connect.toNetwork out = Connect.toNetwork d \/ Connect.toNetwork out = None)
    /\ (Connect.token out = Connect.token d \/ Connect.token out = None)
    /\ (Connect.requiredNetwork out = Connect.requiredNetwork d
        \/ Connect.requiredNetwork out = None).
Proof.
  destruct d as [from to_ tok required].
  run_checks.
  all: try congruence.
  all: do 2 eexists; (split; [reflexivity|]).
  all: unfold Connect.valid_defaults;
    cbn [Connect.fromNetwork Connect.toNetwork Connect.token Connect.requiredNetwork
         Connect.given Connect.text] in *.
  all: repeat split; intros; try discriminate; try congruence; eauto.
  all: match goal with
       | i : is_Some ?x, H : ?x = None |- _ => destruct i as [? i]; congruence
       end.
Qed.

(** X22. [validateDefaults] never throws, and what it returns passes every
    test of its own: the chains and the token it names are found in [CHAINS]
    and [TOKENS] (as entries, or as members every object inherits, such as
    [constructor]), source and destination differ, a required chain named
    beside both is one of them, and a token with no token id has the key of
    the source chain as its native network. It only clears fields: each field
    returned is the one given, or absent. *)
Theorem validateDefaults_result_valid (CHAINS : gmap string Connect.ChainConfig)
        (TOKENS : gmap string Connect.TokenConfig) (d : Connect.BridgeDefaults) :
  exists out printed,
    Connect.validateDefaults CHAINS TOKENS (Some d) = (Ok (Some out), printed)
    /\ Connect.valid_defaults CHAINS TOKENS out
    /\ (Connect.fromNetwork out = Connect.fromNetwork d \/ Connect.fromNetwork out = None)
    /\ (Connect.toNetwork out = Connect.toNetwork d \/ Connect.toNetwork out = None)
    /\ (Connect.token out = Connect.token d \/ Connect.token out = None)
    /\ (Connect.requiredNetwork out = Connect.requiredNetwork d
        \/ Connect.requiredNetwork out = None).
Proof. apply validateDefaults_run. Qed.

Ltac use_validity :=
  repeat match goal with
         | H : true = true -> _ |- _ => specialize (H eq_refl)
         | H : ?P -> _, H' : ?P |- _ =>
             lazymatch type of P with Prop => specialize (H H') end
         | H : _ /\ _ |- _ => destruct H
         | H : _ \/ _ |- _ => destruct H
         end.

(** X23. The defaults that pass [validateDefaults] unchanged and with
    nothing printed are exactly those that pass every test; so checking the
    result of a check changes nothing and prints nothing. *)
Theorem validateDefaults_valid_iff (CHAINS : gmap string Connect.ChainConfig)
        (TOKENS : gmap string Connect.TokenConfig) (d : Connect.BridgeDefaults) :
  (Connect.valid_defaults CHAINS TOKENS d <->
   Connect.validateDefaults CHAINS TOKENS (Some d) = (Ok (Some d), []))
  /\ (forall out printed,
         Connect.validateDefaults CHAINS TOKENS (Some d) = (Ok (Some out), printed) ->
         Connect.validateDefaults CHAINS TOKENS (Some out) = (Ok (Some out), [])).
Proof.
  assert (Hpass : forall d', Connect.valid_defaults CHAINS TOKENS d' ->
             Connect.validateDefaults CHAINS TOKENS (Some d') = (Ok (Some d'), [])).
  { clear d. intros d. destruct d as [from to_ tok required].
    unfold Connect.valid_defaults.
    cbn [Connect.fromNetwork Connect.toNetwork Connect.token Connect.requiredNetwork].
    intros (H1 & H2 & H3 & H4 & H5 & H6).
    run_checks.
    all: try reflexivity.
    all: try congruence.
    all: exfalso; use_validity; try congruence.
    all: match goal with
         | Hn : ~ is_Some ?x, Himp : ?x = None -> ?a = ?b, Hne : ?a <> ?b |- _ =>
             apply Hne, Himp; destruct x; [exfalso; apply Hn; eauto|reflexivity]
         end. }
  split; [split; [apply Hpass|]|].
  - intros Hrun.
    destruct (validateDefaults_run CHAINS TOKENS d)
      as (out & printed & Hout & Hvalid & _).
    rewrite Hrun in Hout. injection Hout as <- _. exact Hvalid.
  - intros out printed Hrun.
    destruct (validateDefaults_run CHAINS TOKENS d)
      as (out' & printed' & Hout & Hvalid & _).
    rewrite Hrun in Hout. injection Hout as <- _. apply Hpass, Hvalid.
Qed.

Lemma validateDefaults_valid_iff_witness :
  let d := {| Connect.fromNetwork := Some "ethereum"; Connect.toNetwork := Some "osmosis";
              Connect.token := Some "ETH"; Connect.requiredNetwork := Some "osmosis" |} in
  Connect.validateDefaults Connect.chains Connect.tokens (Some d) = (Ok (Some d), []).
Proof.
  intros d.
  apply (proj1 (proj1 (validateDefaults_valid_iff Connect.chains Connect.tokens d))).
  unfold Connect.valid_defaults. vm_compute.
  repeat split; intros; simplify_eq; eauto.
Defined.

(** A chain named like a member every object inherits passes for a chain:
    it is kept, and a native token is then cleared, for the member has no
    key to be native to. *)
Example validateDefaults_inherited_name :
  let d := {| Connect.fromNetwork := Some "constructor"; Connect.toNetwork := None;
              Connect.token := Some "ETH"; Connect.requiredNetwork := None |} in
  exists line,
    Connect.validateDefaults Connect.chains Connect.tokens (Some d)
    = (Ok (Some {| Connect.fromNetwork := Some "constructor"; Connect.toNetwork := None;
                   Connect.token := None; Connect.requiredNetwork := None |}),
       [line]).
Proof. intros d. eexists. vm_compute. reflexivity. Qed.

(** X24. [validateResourceMap] prints one line when the configuration or
    its map for the field is missing. With a map, it prints one line for
    each network, of the configured networks or else of all chains, for which
    the map answers nothing or the empty string, and so nothing exactly when
    it answers for every network. The map is an object: for a network named
    like a member every object inherits, such as [constructor], it answers
    without an entry, and no line is printed. *)
Theorem validateResourceMap_warnings (config : option Connect.WormholeConnectConfig)
        (chains : list string) (field : Connect.ResourceField) :
  ((config = None \/ exists c, config = Some c /\ Connect.field_of c field = None) ->
   length (Connect.validateResourceMap config chains field) = 1%nat)
  /\ (forall c resourceMap,
         config = Some c ->
         Connect.field_of c field = Some resourceMap ->
         let nets := match Connect.networks c with Some l => l | None => chains end in
         let answered (n : string) :=
           (exists rpc, resourceMap !! n = Some rpc /\ rpc <> "")
           \/ (resourceMap !! n = None /\ n ∈ Object_prototype) in
         length (Connect.validateResourceMap config chains field)
         = length (filter (fun n => has_truthy resourceMap n = false) nets)
         /\ (forall n, has_truthy resourceMap n = true <-> answered n)
         /\ (Connect.validateResourceMap config chains field = [] <->
             Forall answered nets)).
Proof.
  split.
  - intros [-> | (c & -> & Hf)]; [reflexivity|].
    unfold Connect.validateResourceMap. rewrite Hf. reflexivity.
  - intros c resourceMap -> Hf nets answered.
    assert (Hanswered : forall n, has_truthy resourceMap n = true <-> answered n).
    { intros n. unfold has_truthy, answered.
      destruct (resourceMap !! n) as [rpc|].
      - unfold Js.truthy. destruct (String.eqb_spec rpc "") as [->|Hne]; cbn [negb].
        + split; [discriminate|].
          intros [(rpc & [= <-] & H)|(H & _)]; [contradiction|discriminate].
        + split; [|reflexivity]. intros _. left. eauto.
      - rewrite bool_decide_eq_true. split.
        + intros H. right. auto.
        + intros [(rpc & H & _)|(_ & H)]; [discriminate|exact H]. }
    unfold Connect.validateResourceMap. rewrite Hf. fold nets.
    split; [|split; [exact Hanswered|]].
    + generalize nets as l. clear nets.
      induction l as [|n l IH]; [reflexivity|].
      cbn [flat_map]. rewrite filter_cons.
      destruct (has_truthy resourceMap n) eqn:Hn.
      * rewrite decide_False by discriminate. exact IH.
      * rewrite decide_True by reflexivity. cbn [app length]. f_equal. exact IH.
    + generalize nets as l. clear nets.
      induction l as [|n l IH]; [split; [constructor|reflexivity]|].
      cbn [flat_map].
      destruct (has_truthy resourceMap n) eqn:Hn.
      * cbn [app]. rewrite IH. split.
        -- intros H. constructor; [apply Hanswered, Hn|exact H].
        -- intros H. inversion H. assumption.
      * cbn [app]. split; [discriminate|].
        intros H. inversion H as [|? ? Hn' _]. apply Hanswered in Hn'. congruence.
Qed.

Lemma validateResourceMap_warnings_witness :
  let c := {| Connect.config_rpcs := Some (list_to_map [("osmosis", "https://rpc.osmosis.example")]);
              Connect.config_rest := None;
              Connect.networks := Some ["ethereum"; "osmosis"; "constructor"] |} in
  length (Connect.validateResourceMap (Some c) ["ethereum"; "osmosis"] Connect.field_rpcs)
  = 1%nat
  /\ length (Connect.validateResourceMap (Some c) ["ethereum"; "osmosis"] Connect.field_rest)
     = 1%nat.
Proof.
  intros c. split.
  - pose proof (proj1 (proj2 (validateResourceMap_warnings (Some c) ["ethereum"; "osmosis"]
                                Connect.field_rpcs) c _ eq_refl eq_refl)) as H.
    exact H.
  - apply (proj1 (validateResourceMap_warnings (Some c) ["ethereum"; "osmosis"]
                    Connect.field_rest)).
    right. exists c. split; reflexivity.
Defined.

(** ** The bridge route *)

(** X25. A bridge route is available exactly when both tokens are
    configured, both chains are given and are not the same value, the
    destination token is not [native], and either the source token has a
    token id and is the destination token, or it has none and the
    destination token is its wrapped asset. *)
Theorem isRouteAvailable_iff (TOKENS : gmap string Connect.TokenConfig)
        (sourceToken destToken : string) (sourceChain destChain : Chain) :
  Connect.isRouteAvailable TOKENS sourceToken destToken sourceChain destChain = true
  <->
  exists sourceTokenConfig,
    TOKENS !! sourceToken = Some sourceTokenConfig
    /\ is_Some (TOKENS !! destToken)
    /\ Connect.no_chain sourceChain = false /\ Connect.no_chain destChain = false
    /\ sourceChain <> destChain
    /\ destToken <> "native"
    /\ ((is_Some (Connect.token_id sourceTokenConfig) /\ sourceToken = destToken)
        \/ (Connect.token_id sourceTokenConfig = None
            /\ Connect.wrappedAsset sourceTokenConfig = Some destToken)).
Proof.
  unfold Connect.isRouteAvailable.
  destruct (TOKENS !! sourceToken) as [cfg|] eqn:Hs.
  2:{ split; [discriminate|]. intros (? & H & _). discriminate H. }
  destruct (TOKENS !! destToken) as [dcfg|] eqn:Hd.
  2:{ split; [discriminate|]. intros (? & _ & [? H] & _). discriminate H. }
  destruct (Connect.no_chain sourceChain) eqn:Hsc; cbn [orb].
  { split; [discriminate|]. intros (? & _ & _ & H & _). discriminate H. }
  destruct (Connect.no_chain destChain) eqn:Hdc.
  { split; [discriminate|]. intros (? & _ & _ & _ & H & _). discriminate H. }
  case_bool_decide as Hsame.
  { split; [discriminate|]. intros (? & _ & _ & _ & _ & H & _). contradiction. }
  destruct (String.eqb_spec destToken "native") as [Hn|Hn].
  { split; [discriminate|]. intros (? & _ & _ & _ & _ & _ & H & _). contradiction. }
  destruct (Connect.token_id cfg) as [tid|] eqn:Htid.
  - rewrite bool_decide_eq_true_2 by eauto. cbn [andb negb].
    destruct (String.eqb_spec sourceToken destToken) as [Heq|Hneq].
    + split; [|reflexivity]. intros _. exists cfg. rewrite Htid. repeat split; eauto.
    + split; [discriminate|]. intros (cfg' & [= <-] & _ & _ & _ & _ & _ & H).
      rewrite Htid in H. destruct H as [[_ H]|[H _]]; [contradiction|discriminate].
  - rewrite bool_decide_eq_false_2 by (intros [? H]; discriminate H). cbn [andb negb].
    case_bool_decide as Hw.
    + split; [|reflexivity]. intros _. exists cfg. rewrite Htid. repeat split; eauto.
    + split; [discriminate|]. intros (cfg' & [= <-] & _ & _ & _ & _ & _ & H).
      rewrite Htid in H. destruct H as [[[? H] _]|[_ H]]; [discriminate|contradiction].
Qed.

Lemma isRouteAvailable_iff_witness :
  Connect.isRouteAvailable Connect.tokens "ETH" "WETH" (ChainName "ethereum")
                           (ChainName "osmosis") = true.
Proof.
  apply (proj2 (isRouteAvailable_iff Connect.tokens "ETH" "WETH" (ChainName "ethereum")
                  (ChainName "osmosis"))).
  eexists. split; [vm_compute; reflexivity|].
  repeat split; try discriminate; try (vm_compute; eauto; fail).
  all: right; split; reflexivity.
Defined.

(** ** Bech32: bytes to words and back *)

Module ConvertFacts.

Lemma pow2_pos (n : Z) : 0 <= n -> 0 < 2 ^ n.
Proof. intros H. apply Z.pow_pos_nonneg; lia. Qed.

Lemma int32_mod (z m : Z) : 0 <= m <= 32 -> Bech32.int32 z mod 2 ^ m = z mod 2 ^ m.
Proof.
  intros Hm. unfold Bech32.int32.
  assert (H32 : 2 ^ 32 = 2 ^ m * 2 ^ (32 - m))
    by (rewrite <- Z.pow_add_r by lia; f_equal; lia).
  pose proof (pow2_pos m ltac:(lia)) as Hp.
  pose proof (pow2_pos (32 - m) ltac:(lia)) as Hq.
  pose proof (Z.div_mod (z + 2 ^ 31) (2 ^ 32) ltac:(lia)) as Hdm.
  replace ((z + 2 ^ 31) mod 2 ^ 32 - 2 ^ 31)
    with (z + (- ((z + 2 ^ 31) / 2 ^ 32) * 2 ^ (32 - m)) * 2 ^ m) by (rewrite H32 in *; lia).
  apply Z.mod_add. lia.
Qed.

Lemma lor_low (x d n : Z) :
  0 <= n -> x mod 2 ^ n = 0 -> 0 <= d < 2 ^ n -> Z.lor x d = x + d.
Proof.
  intros Hn Hx Hd.
  assert (Hland : Z.land x d = 0).
  { apply Z.bits_inj'. intros i Hi. rewrite Z.land_spec, Z.bits_0.
    destruct (Z.lt_ge_cases i n) as [Hlt|Hge].
    - assert (Z.testbit x i = false) as ->; [|reflexivity].
      rewrite <- (Z.mod_pow2_bits_low x n i) by lia. rewrite Hx. apply Z.bits_0.
    - assert (Z.testbit d i = false) as ->; [|apply andb_false_r].
      destruct (Z.eq_dec d 0) as [->|Hnz]; [apply Z.bits_0|].
      apply Z.bits_above_log2; [lia|].
      apply Z.log2_lt_pow2; [lia|]. eapply Z.lt_le_trans; [apply Hd|].
      apply Z.pow_le_mono_r; lia. }
  rewrite <- Z.lxor_lor by exact Hland. symmetry. apply Z.add_nocarry_lxor, Hland.
Qed.

(** One byte or word taken in, modulo a power of two that fits 32 bits. *)
Lemma take_mod (value d inBits m : Z) :
  0 <= inBits <= m -> m <= 32 -> 0 <= d < 2 ^ inBits ->
  Bech32.int32 (Z.lor (Bech32.int32 (Z.shiftl value inBits)) d) mod 2 ^ m
  = (value * 2 ^ inBits + d) mod 2 ^ m.
Proof.
  intros Hin Hm Hd.
  rewrite int32_mod by lia.
  rewrite (lor_low _ d inBits); [|lia| |exact Hd].
  - rewrite <- Zplus_mod_idemp_l, int32_mod by lia.
    rewrite Zplus_mod_idemp_l, Z.shiftl_mul_pow2 by lia. reflexivity.
  - rewrite int32_mod by lia. rewrite Z.shiftl_mul_pow2 by lia.
    apply Z.mod_mul. pose proof (pow2_pos inBits ltac:(lia)). lia.
Qed.

Lemma mod_mul_div (x a b : Z) :
  0 <= a -> 0 <= b -> (x mod 2 ^ (a + b)) / 2 ^ a = (x / 2 ^ a) mod 2 ^ b.
Proof.
  intros Ha Hb. pose proof (pow2_pos a Ha) as Hpa. pose proof (pow2_pos b Hb) as Hpb.
  rewrite Z.pow_add_r by lia. rewrite Z.rem_mul_r by lia.
  rewrite Z.mul_comm, Z.div_add by lia.
  rewrite (Z.div_small (x mod 2 ^ a)) by (apply Z.mod_pos_bound; lia). reflexivity.
Qed.

Lemma div_pow_add (x a b : Z) :
  0 <= a -> 0 <= b -> x / 2 ^ a / 2 ^ b = x / 2 ^ (a + b).
Proof.
  intros Ha Hb. pose proof (pow2_pos a Ha). pose proof (pow2_pos b Hb).
  rewrite Z.div_div by lia. rewrite <- Z.pow_add_r by lia. reflexivity.
Qed.

Lemma length_digits (w : Z) (count : nat) (x : Z) : length (digits w count x) = count.
Proof.
  revert x. induction count as [|c IH]; intros x; [reflexivity|].
  cbn [digits]. rewrite length_app, IH. cbn. lia.
Qed.

Lemma digits_front (w : Z) (c : nat) (x : Z) :
  0 <= w ->
  digits w (S c) x = (x / 2 ^ (w * Z.of_nat c)) mod 2 ^ w :: digits w c x.
Proof.
  intros Hw. revert x. induction c as [|c IH]; intros x.
  - cbn [digits app]. rewrite Z.mul_0_r, Z.pow_0_r, Z.div_1_r. reflexivity.
  - change (digits w (S (S c)) x) with (digits w (S c) (x / 2 ^ w) ++ [x mod 2 ^ w]).
    rewrite IH. cbn [app digits]. f_equal. f_equal.
    rewrite div_pow_add by lia. f_equal. f_equal. lia.
Qed.

Lemma digits_app (w : Z) (c k : nat) (x : Z) :
  0 <= w ->
  digits w (c + k) x = digits w c (x / 2 ^ (w * Z.of_nat k)) ++ digits w k x.
Proof.
  intros Hw. revert x. induction k as [|k IH]; intros x.
  - rewrite Nat.add_0_r. cbn [digits]. rewrite app_nil_r, Z.mul_0_r, Z.pow_0_r, Z.div_1_r.
    reflexivity.
  - replace (c + S k)%nat with (S (c + k)) by lia. cbn [digits].
    rewrite IH, <- app_assoc. f_equal.
    rewrite div_pow_add by lia. f_equal. f_equal. f_equal. lia.
Qed.

Lemma digits_mod (w : Z) (c : nat) (x : Z) :
  0 <= w -> digits w c (x mod 2 ^ (w * Z.of_nat c)) = digits w c x.
Proof.
  intros Hw. revert x. induction c as [|c IH]; intros x; [reflexivity|].
  cbn [digits]. pose proof (pow2_pos w Hw).
  replace (w * Z.of_nat (S c)) with (w + w * Z.of_nat c) by lia.
  rewrite mod_mul_div by lia. rewrite IH. f_equal. f_equal.
  rewrite Z.pow_add_r by lia. rewrite Z.rem_mul_r by (try apply pow2_pos; lia).
  rewrite Z.mul_comm, Z.mod_add by lia. apply Z.mod_mod. lia.
Qed.

Lemma number_snoc (w : Z) (ds : list Z) (d : Z) :
  number w (ds ++ [d]) = number w ds * 2 ^ w + d.
Proof. unfold number. rewrite fold_left_app. reflexivity. Qed.

Lemma digits_number (w : Z) (ds : list Z) :
  0 <= w -> in_range w ds -> digits w (length ds) (number w ds) = ds.
Proof.
  intros Hw. pose proof (pow2_pos w Hw) as Hp.
  induction ds as [|d ds IH] using rev_ind; [reflexivity|].
  intros Hr. apply Forall_app in Hr as [Hds Hd]. inversion Hd as [|? ? Hd' _]; subst.
  rewrite length_app, Nat.add_comm. cbn [length Nat.add digits].
  rewrite number_snoc.
  rewrite Z.div_add_l by lia. rewrite (Z.div_small d) by lia. rewrite Z.add_0_r.
  rewrite IH by exact Hds. f_equal. f_equal.
  rewrite Z.add_comm, Z.mod_add by lia. apply Z.mod_small. lia.
Qed.

Lemma number_bound (w : Z) (ds : list Z) :
  0 <= w -> in_range w ds -> 0 <= number w ds < 2 ^ (w * Z.of_nat (length ds)).
Proof.
  intros Hw. pose proof (pow2_pos w Hw) as Hp.
  induction ds as [|d ds IH] using rev_ind; intros Hr.
  - cbn. rewrite Z.mul_0_r. cbn. lia.
  - apply Forall_app in Hr as [Hds Hd]. inversion Hd as [|? ? Hd' _]; subst.
    specialize (IH Hds). rewrite number_snoc, length_app. cbn [length].
    replace (w * Z.of_nat (length ds + 1)) with (w * Z.of_nat (length ds) + w) by lia.
    rewrite Z.pow_add_r by lia. nia.
Qed.

Lemma land_mask (x w : Z) : 0 <= w -> Z.land x (Z.shiftl 1 w - 1) = x mod 2 ^ w.
Proof.
  intros Hw. rewrite Z.shiftl_mul_pow2, Z.mul_1_l by lia.
  rewrite <- Z.land_ones by lia. f_equal. rewrite Z.ones_equiv. lia.
Qed.

Lemma mod_mod_le (a b r m : Z) :
  0 <= r <= m -> a mod 2 ^ m = b mod 2 ^ m -> a mod 2 ^ r = b mod 2 ^ r.
Proof.
  intros Hr H. pose proof (pow2_pos r ltac:(lia)). pose proof (pow2_pos (m - r) ltac:(lia)).
  assert (Hm : 2 ^ m = 2 ^ r * 2 ^ (m - r))
    by (rewrite <- Z.pow_add_r by lia; f_equal; lia).
  rewrite Hm in H. rewrite !Z.rem_mul_r in H by lia.
  apply (f_equal (fun z => z mod 2 ^ r)) in H.
  rewrite !(Z.mul_comm (2 ^ r)), !Z.mod_add, !Z.mod_mod in H by lia. exact H.
Qed.

(** What the inner loop writes: the digits above the [W - k * outBits] bits
    that stay. *)
Lemma drain_spec (k : nat) (outBits value W : Z) (acc : list Z) :
  0 < outBits -> Z.of_nat k * outBits <= W ->
  Bech32.drain k outBits value W acc
  = (W - Z.of_nat k * outBits,
     acc ++ digits outBits k (value / 2 ^ (W - Z.of_nat k * outBits))).
Proof.
  intros Hout. revert W acc. induction k as [|k IH]; intros W acc Hk.
  - cbn [Bech32.drain digits]. rewrite app_nil_r. f_equal. lia.
  - cbn [Bech32.drain].
    destruct (Z.geb_spec W outBits) as [_|Hlt]; [|lia].
    rewrite IH by lia. f_equal; [lia|].
    rewrite <- app_assoc. f_equal. rewrite digits_front by lia. cbn [app].
    rewrite land_mask, Z.shiftr_div_pow2 by lia.
    replace (W - outBits - Z.of_nat k * outBits) with (W - Z.of_nat (S k) * outBits) by lia.
    rewrite div_pow_add by lia. f_equal. f_equal. f_equal. f_equal. lia.
Qed.

Lemma shift_mod (v d bits inBits : Z) :
  0 <= bits -> 0 <= inBits -> 0 <= d < 2 ^ inBits ->
  (v * 2 ^ inBits + d) mod 2 ^ (bits + inBits) = (v mod 2 ^ bits) * 2 ^ inBits + d.
Proof.
  intros Hb Hi Hd. pose proof (pow2_pos bits Hb) as Hpb. pose proof (pow2_pos inBits Hi) as Hpi.
  pose proof (Z.div_mod v (2 ^ bits) ltac:(lia)) as Hv.
  pose proof (Z.mod_pos_bound v (2 ^ bits) Hpb) as Hr.
  replace (v * 2 ^ inBits + d)
    with ((v mod 2 ^ bits) * 2 ^ inBits + d + (v / 2 ^ bits) * 2 ^ (bits + inBits))
    by (rewrite Z.pow_add_r by lia; nia).
  rewrite Z.mod_add by (rewrite Z.pow_add_r by lia; nia).
  apply Z.mod_small. rewrite Z.pow_add_r by lia. nia.
Qed.

(** The outer loop. [N] and [L] are the number and the bit length of what
    has been read; the words written are the digits of [N] above the bits
    that wait, and [value] agrees with [N] on those bits. *)
Lemma convert_loop_spec (inBits outBits : Z) (data : list Z) :
  0 < inBits -> 0 < outBits -> inBits + outBits <= 33 ->
  in_range inBits data ->
  forall (value bits : Z) (acc : list Z) (N L : Z),
    0 <= L -> bits = L mod outBits ->
    value mod 2 ^ bits = N mod 2 ^ bits ->
    acc = digits outBits (Z.to_nat (L / outBits)) (N / 2 ^ bits) ->
    let N' := fold_left (fun a d => a * 2 ^ inBits + d) data N in
    let L' := L + inBits * Z.of_nat (length data) in
    exists value',
      Bech32.convert_loop data inBits outBits value bits acc
      = (value', L' mod outBits,
         digits outBits (Z.to_nat (L' / outBits)) (N' / 2 ^ (L' mod outBits)))
      /\ value' mod 2 ^ (L' mod outBits) = N' mod 2 ^ (L' mod outBits).
Proof.
  intros Hin Hout Hfit Hdata.
  induction Hdata as [|d data Hd Hdata IH]; intros value bits acc N L HL Hbits Hvalue Hacc.
  - cbn [fold_left length Bech32.convert_loop]. rewrite Z.mul_0_r, Z.add_0_r.
    exists value. subst bits acc. split; [reflexivity|exact Hvalue].
  - cbn [fold_left length Bech32.convert_loop].
    pose proof (Z.mod_pos_bound L outBits Hout) as Hb. rewrite <- Hbits in Hb.
    set (value1 := Bech32.int32 (Z.lor (Bech32.int32 (Z.shiftl value inBits)) d)).
    set (W := bits + inBits).
    set (k := Z.to_nat (W / outBits)).
    assert (HW : 0 <= W <= 32) by (unfold W; lia).
    assert (Hk : Z.of_nat k * outBits = W - W mod outBits).
    { unfold k. rewrite Z2Nat.id by (apply Z.div_pos; lia).
      pose proof (Z.div_mod W outBits ltac:(lia)). lia. }
    pose proof (Z.mod_pos_bound W outBits Hout) as Hr.
    rewrite (drain_spec k outBits value1 W acc Hout) by lia.
    replace (W - Z.of_nat k * outBits) with (W mod outBits) by lia.
    pose proof (pow2_pos inBits ltac:(lia)) as Hpin.
    assert (Hvalue1 : value1 mod 2 ^ W = (N * 2 ^ inBits + d) mod 2 ^ W).
    { unfold value1. rewrite take_mod by (unfold W; lia).
      unfold W. rewrite !shift_mod by lia. rewrite Hvalue. reflexivity. }
    set (L1 := L + inBits).
    assert (HL1 : L1 mod outBits = W mod outBits).
    { unfold L1, W. rewrite Hbits. rewrite Zplus_mod_idemp_l. reflexivity. }
    assert (Hcount : Z.to_nat (L1 / outBits) = (Z.to_nat (L / outBits) + k)%nat).
    { apply Nat2Z.inj. rewrite Nat2Z.inj_add, !Z2Nat.id by (apply Z.div_pos; lia).
      unfold k. rewrite Z2Nat.id by (apply Z.div_pos; lia).
      pose proof (Z.div_mod L outBits ltac:(lia)) as HLdm.
      unfold L1, W. rewrite Hbits.
      replace (L + inBits) with ((L mod outBits + inBits) + (L / outBits) * outBits) by lia.
      rewrite Z.div_add by lia. lia. }
    specialize (IH value1 (W mod outBits)
                   (acc ++ digits outBits k (value1 / 2 ^ (W mod outBits)))
                   (N * 2 ^ inBits + d) L1 ltac:(unfold L1; lia) (eq_sym HL1)).
    destruct IH as (value' & Hrun & Hfinal).
    + apply (mod_mod_le _ _ (W mod outBits) W); [lia|exact Hvalue1].
    + rewrite Hcount, digits_app by lia. subst acc. f_equal.
      * f_equal. rewrite div_pow_add by lia.
        replace (W mod outBits + outBits * Z.of_nat k) with (inBits + bits)
          by (unfold W in *; lia).
        rewrite <- div_pow_add by lia.
        rewrite Z.div_add_l by lia. rewrite (Z.div_small d) by lia.
        rewrite Z.add_0_r. reflexivity.
      * rewrite <- (digits_mod outBits k (value1 / _)) by lia.
        rewrite <- (digits_mod outBits k ((N * 2 ^ inBits + d) / _)) by lia.
        f_equal. rewrite <- !mod_mul_div by lia.
        replace (W mod outBits + outBits * Z.of_nat k) with W by lia.
        rewrite Hvalue1. reflexivity.
    + exists value'.
      replace (L + inBits * Z.of_nat (S (length data)))
        with (L1 + inBits * Z.of_nat (length data)) by (unfold L1; lia).
      split; [exact Hrun|exact Hfinal].
Qed.

End ConvertFacts.

Module WordsFacts.
Import ConvertFacts.

Lemma number_digits (w : Z) (c : nat) (x : Z) :
  0 <= w -> number w (digits w c x) = x mod 2 ^ (w * Z.of_nat c).
Proof.
  intros Hw. pose proof (pow2_pos w Hw) as Hp. revert x.
  induction c as [|c IH]; intros x.
  - cbn. rewrite Z.mul_0_r. cbn. rewrite Z.mod_1_r. reflexivity.
  - cbn [digits]. rewrite number_snoc, IH.
    replace (w * Z.of_nat (S c)) with (w + w * Z.of_nat c) by lia.
    rewrite Z.pow_add_r by lia. rewrite Z.rem_mul_r by (try apply pow2_pos; lia). lia.
Qed.

Lemma digits_in_range (w : Z) (c : nat) (x : Z) : 0 <= w -> in_range w (digits w c x).
Proof.
  intros Hw. revert x. induction c as [|c IH]; intros x; [constructor|].
  cbn [digits]. apply Forall_app. split; [apply IH|].
  constructor; [|constructor]. apply Z.mod_pos_bound, pow2_pos, Hw.
Qed.

(** What [toWords] computes: the digits in base 32 of the bytes' number,
    shifted left to a whole number of words. *)
Lemma toWords_digits (data : list Z) :
  in_range 8 data ->
  let L := 8 * Z.of_nat (length data) in
  let pad := (5 - L mod 5) mod 5 in
  Bech32.toWords data
  = Ok (digits 5 (Z.to_nat ((L + pad) / 5)) (number 8 data * 2 ^ pad)).
Proof.
  intros Hdata L pad. unfold Bech32.toWords, Bech32.convert.
  destruct (convert_loop_spec 8 5 data ltac:(lia) ltac:(lia) ltac:(lia) Hdata
              0 0 [] 0 0 ltac:(lia) eq_refl eq_refl eq_refl) as (value & Hrun & Hvalue).
  rewrite Z.add_0_l in Hrun, Hvalue. fold L in Hrun, Hvalue.
  change (fold_left _ data 0) with (number 8 data) in Hrun, Hvalue.
  rewrite Hrun.
  pose proof (Z.mod_pos_bound L 5 ltac:(lia)) as Hb.
  pose proof (Z.div_mod L 5 ltac:(lia)) as HL.
  set (N := number 8 data) in *. set (bits := L mod 5) in *.
  destruct (Z.gtb_spec bits 0) as [Hpos|Hzero].
  - assert (Hpad : pad = 5 - bits) by (unfold pad; rewrite Z.mod_small; lia).
    f_equal.
    replace (Z.to_nat ((L + pad) / 5)) with (S (Z.to_nat (L / 5))).
    2:{ rewrite Hpad. replace (L + (5 - bits)) with (5 * (L / 5 + 1)) by lia.
        rewrite Z.mul_comm, Z.div_mul by lia. rewrite Z2Nat.inj_add; lia. }
    cbn [digits]. rewrite Hpad. f_equal.
    + f_equal.
      assert (H5 : 2 ^ 5 = 2 ^ bits * 2 ^ (5 - bits))
        by (rewrite <- Z.pow_add_r by lia; f_equal; lia).
      rewrite H5. symmetry.
      apply Z.div_mul_cancel_r; apply Z.neq_sym, Z.lt_neq, pow2_pos; lia.
    + f_equal. rewrite land_mask by lia.
      rewrite <- (int32_mod _ 5) by lia.
      assert (Hs : forall v, (v * 2 ^ (5 - bits)) mod 2 ^ 5 = (v mod 2 ^ bits) * 2 ^ (5 - bits)).
      { intros v. pose proof (shift_mod v 0 bits (5 - bits) ltac:(lia) ltac:(lia)) as H.
        rewrite !Z.add_0_r in H. replace (bits + (5 - bits)) with 5 in H by lia.
        apply H. pose proof (pow2_pos (5 - bits)). lia. }
      rewrite int32_mod, int32_mod, Z.shiftl_mul_pow2 by lia.
      rewrite !Hs, Hvalue. reflexivity.
  - assert (Hb0 : bits = 0) by lia.
    assert (Hpad : pad = 0) by (unfold pad; rewrite Hb0; reflexivity).
    rewrite Hpad, Hb0, Z.add_0_r, Z.pow_0_r, Z.mul_1_r, Z.div_1_r. reflexivity.
Qed.

(** Bytes come back from their words. *)
Lemma fromWords_toWords (data : list Z) :
  in_range 8 data ->
  exists words,
    Bech32.toWords data = Ok words
    /\ Bech32.fromWords words = Ok data
    /\ in_range 5 words
    /\ 5 * Z.of_nat (length words) < 8 * Z.of_nat (length data) + 5.
Proof.
  intros Hdata. eexists. split; [apply toWords_digits, Hdata|].
  set (L := 8 * Z.of_nat (length data)).
  set (pad := (5 - L mod 5) mod 5).
  set (N := number 8 data).
  set (m := Z.to_nat ((L + pad) / 5)).
  pose proof (Z.mod_pos_bound (5 - L mod 5) 5 ltac:(lia)) as Hpad. fold pad in Hpad.
  assert (Hm : 5 * Z.of_nat m = L + pad).
  { unfold m. rewrite Z2Nat.id by (apply Z.div_pos; lia).
    assert (Hdiv : (L + pad) mod 5 = 0).
    { unfold pad. rewrite Zplus_mod_idemp_r.
      replace (L + (5 - L mod 5)) with (L - L mod 5 + 1 * 5) by lia.
      rewrite Z.mod_add by lia. rewrite Zminus_mod_idemp_r, Z.sub_diag. reflexivity. }
    pose proof (Z.div_mod (L + pad) 5 ltac:(lia)). lia. }
  pose proof (number_bound 8 data ltac:(lia) Hdata) as HN. fold N L in HN.
  pose proof (pow2_pos pad ltac:(lia)) as Hppad.
  assert (HM : 0 <= N * 2 ^ pad < 2 ^ (5 * Z.of_nat m)).
  { rewrite Hm, Z.pow_add_r by lia. nia. }
  pose proof (digits_in_range 5 m (N * 2 ^ pad) ltac:(lia)) as Hwords.
  split; [|split; [exact Hwords|rewrite length_digits; lia]].
  unfold Bech32.fromWords, Bech32.convert.
  destruct (convert_loop_spec 5 8 _ ltac:(lia) ltac:(lia) ltac:(lia) Hwords
              0 0 [] 0 0 ltac:(lia) eq_refl eq_refl eq_refl) as (value & Hrun & Hvalue).
  rewrite length_digits, Z.add_0_l, Hm in Hrun, Hvalue.
  change (fold_left _ (digits 5 m (N * 2 ^ pad)) 0)
    with (number 5 (digits 5 m (N * 2 ^ pad))) in Hrun, Hvalue.
  rewrite number_digits, (Z.mod_small _ _ HM) in Hrun, Hvalue by lia.
  assert (Hbits : (L + pad) mod 8 = pad).
  { unfold L. rewrite Z.add_comm, Z.mul_comm, Z.mod_add by lia. apply Z.mod_small. lia. }
  assert (Hcount : Z.to_nat ((L + pad) / 8) = length data).
  { unfold L. rewrite Z.add_comm, Z.mul_comm, Z.div_add by lia.
    rewrite Z.div_small by lia. lia. }
  rewrite Hbits, Hcount in Hrun. rewrite Hbits in Hvalue.
  rewrite Z.div_mul in Hrun by lia.
  rewrite Hrun.
  destruct (Z.geb_spec pad 5) as [Hge|_]; [lia|].
  rewrite land_mask by lia. rewrite int32_mod, Z.shiftl_mul_pow2 by lia.
  pose proof (shift_mod value 0 pad (8 - pad) ltac:(lia) ltac:(lia)) as Hs.
  rewrite Z.add_0_r in Hs. replace (pad + (8 - pad)) with 8 in Hs by lia.
  rewrite Hs by (pose proof (pow2_pos (8 - pad)); lia).
  rewrite Hvalue, Z.mod_mul, Z.add_0_r by lia. cbn [negb Z.eqb Z.mul].
  unfold N. rewrite digits_number by (try lia; exact Hdata). reflexivity.
Qed.

End WordsFacts.

(** ** Bech32: the checksum *)

Module ChecksumFacts.
Import ConvertFacts.

Lemma lxor_low (x d n : Z) :
  0 <= n -> x mod 2 ^ n = 0 -> 0 <= d < 2 ^ n -> Z.lxor x d = x + d.
Proof.
  intros Hn Hx Hd.
  rewrite <- (lor_low x d n Hn Hx Hd).
  apply Z.lxor_lor.
  apply Z.bits_inj'. intros i Hi. rewrite Z.land_spec, Z.bits_0.
  destruct (Z.lt_ge_cases i n) as [Hlt|Hge].
  - assert (Z.testbit x i = false) as ->; [|reflexivity].
    rewrite <- (Z.mod_pow2_bits_low x n i) by lia. rewrite Hx. apply Z.bits_0.
  - assert (Z.testbit d i = false) as ->; [|apply andb_false_r].
    destruct (Z.eq_dec d 0) as [->|Hnz]; [apply Z.bits_0|].
    apply Z.bits_above_log2; [lia|].
    apply Z.log2_lt_pow2; [lia|]. eapply Z.lt_le_trans; [apply Hd|].
    apply Z.pow_le_mono_r; lia.
Qed.

Lemma lxor_range (a b n : Z) :
  0 <= n -> 0 <= a < 2 ^ n -> 0 <= b < 2 ^ n -> 0 <= Z.lxor a b < 2 ^ n.
Proof.
  intros Hn Ha Hb.
  assert (Hnn : 0 <= Z.lxor a b) by (apply Z.lxor_nonneg; lia).
  split; [exact Hnn|].
  destruct (Z.eq_dec (Z.lxor a b) 0) as [->|Hnz]; [apply pow2_pos, Hn|].
  assert (Hpos : 0 < n).
  { destruct (Z.eq_dec n 0) as [->|]; [|lia]. change (2 ^ 0) with 1 in *.
    assert (a = 0) as -> by lia. assert (b = 0) as -> by lia.
    contradiction Hnz. reflexivity. }
  apply Z.log2_lt_pow2; [lia|].
  eapply Z.le_lt_trans; [apply Z.log2_lxor; lia|].
  apply Z.max_lub_lt.
  - destruct (Z.eq_dec a 0) as [->|]; [cbn; lia|]. apply Z.log2_lt_pow2; lia.
  - destruct (Z.eq_dec b 0) as [->|]; [cbn; lia|]. apply Z.log2_lt_pow2; lia.
Qed.

Lemma generator_term (pre k G : Z) :
  0 <= k ->
  Z.land (- Z.land (Z.shiftr (Z.shiftr pre 25) k) 1) G = term pre k G.
Proof.
  intros Hk. unfold term.
  assert (Hbit : Z.land (Z.shiftr (Z.shiftr pre 25) k) 1
                 = Z.b2z (Z.testbit pre (25 + k))).
  { change 1 with (Z.ones 1). rewrite Z.land_ones by lia.
    change (2 ^ 1) with 2. rewrite <- Z.bit0_mod.
    rewrite !Z.shiftr_spec by lia. f_equal. f_equal. lia. }
  rewrite Hbit. destruct (Z.testbit pre (25 + k)); cbn [Z.b2z Z.opp].
  - apply Z.land_m1_l.
  - reflexivity.
Qed.

Lemma polymodStep_terms (pre : Z) :
  Bech32.polymodStep pre =
  Z.lxor (Z.shiftl (Z.land pre 0x1FFFFFF) 5)
 (Z.lxor (term pre 0 0x3b6a57b2)
 (Z.lxor (term pre 1 0x26508e6d)
 (Z.lxor (term pre 2 0x1ea119fa)
 (Z.lxor (term pre 3 0x3d4233dd)
         (term pre 4 0x2a1462b3))))).
Proof.
  unfold Bech32.polymodStep. cbv zeta.
  rewrite !generator_term by lia. reflexivity.
Qed.

Lemma term_lxor (a b k G : Z) :
  term (Z.lxor a b) k G = Z.lxor (term a k G) (term b k G).
Proof.
  unfold term. rewrite Z.lxor_spec.
  destruct (Z.testbit a (25 + k)), (Z.testbit b (25 + k)); cbn [xorb];
    rewrite ?Z.lxor_nilpotent, ?Z.lxor_0_r, ?Z.lxor_0_l; reflexivity.
Qed.

Lemma land_lxor_l (a b m : Z) :
  Z.land (Z.lxor a b) m = Z.lxor (Z.land a m) (Z.land b m).
Proof.
  apply Z.bits_inj'. intros i Hi.
  rewrite !Z.land_spec, !Z.lxor_spec, !Z.land_spec.
  destruct (Z.testbit a i), (Z.testbit b i), (Z.testbit m i); reflexivity.
Qed.

(** The step is linear over exclusive or. *)
Lemma polymodStep_lxor (a b : Z) :
  Bech32.polymodStep (Z.lxor a b)
  = Z.lxor (Bech32.polymodStep a) (Bech32.polymodStep b).
Proof.
  rewrite !polymodStep_terms, !term_lxor, land_lxor_l, Z.shiftl_lxor.
  apply Z.bits_inj'. intros i Hi. rewrite !Z.lxor_spec.
  repeat match goal with |- context [Z.testbit ?x i] =>
           let t := fresh "t" in generalize (Z.testbit x i); intros t end.
  repeat match goal with t : bool |- _ => destruct t end; reflexivity.
Qed.

Lemma polymodStep_small (x : Z) :
  0 <= x < 2 ^ 25 -> Bech32.polymodStep x = x * 32.
Proof.
  intros Hx. rewrite polymodStep_terms. unfold term.
  assert (Hbits : forall k, 0 <= k -> Z.testbit x (25 + k) = false).
  { intros k Hk. destruct (Z.eq_dec x 0) as [->|]; [apply Z.bits_0|].
    apply Z.bits_above_log2; [lia|].
    assert (Z.log2 x < 25) by (apply Z.log2_lt_pow2; lia). lia. }
  rewrite !Hbits by lia. rewrite !Z.lxor_0_r.
  change 0x1FFFFFF with (Z.ones 25). rewrite Z.land_ones by lia.
  rewrite Z.mod_small by lia. rewrite Z.shiftl_mul_pow2 by lia. reflexivity.
Qed.

Lemma polymodStep_range (pre : Z) : 0 <= Bech32.polymodStep pre < 2 ^ 30.
Proof.
  rewrite polymodStep_terms.
  assert (Hshift : 0 <= Z.shiftl (Z.land pre 0x1FFFFFF) 5 < 2 ^ 30).
  { change 0x1FFFFFF with (Z.ones 25). rewrite Z.land_ones by lia.
    rewrite Z.shiftl_mul_pow2 by lia.
    pose proof (Z.mod_pos_bound pre (2 ^ 25) ltac:(lia)). lia. }
  assert (Hterm : forall k G, 0 <= G < 2 ^ 30 -> 0 <= term pre k G < 2 ^ 30).
  { intros k G HG. unfold term. destruct (Z.testbit pre (25 + k)); lia. }
  repeat apply lxor_range; try lia; try apply Hterm; lia.
Qed.

End ChecksumFacts.

(** ** Bech32: decoding what was encoded *)

Module StringFacts.

Lemma append_nil (b : string) : "" +:+ b = b.
Proof. reflexivity. Qed.

Lemma append_cons (x : ascii) (a b : string) : String x a +:+ b = String x (a +:+ b).
Proof. reflexivity. Qed.

Ltac norm_append := repeat (rewrite append_nil || rewrite append_cons).

Lemma append_assoc (a b c : string) : (a +:+ b) +:+ c = a +:+ (b +:+ c).
Proof. induction a as [|x a IH]; norm_append; [reflexivity|]. rewrite IH. reflexivity. Qed.

Lemma append_empty (a : string) : a +:+ "" = a.
Proof. induction a as [|x a IH]; norm_append; [reflexivity|]. rewrite IH. reflexivity. Qed.

Lemma length_append (a b : string) :
  String.length (a +:+ b) = (String.length a + String.length b)%nat.
Proof. induction a as [|x a IH]; norm_append; cbn [String.length]; [reflexivity|]. rewrite IH. reflexivity. Qed.

Lemma substring_prefix (a b : string) :
  String.substring 0 (String.length a) (a +:+ b) = a.
Proof.
  induction a as [|x a IH]; norm_append; cbn [String.length String.substring].
  - destruct b; reflexivity.
  - rewrite IH. reflexivity.
Qed.

Lemma substring_from_separator (a b : string) (c : ascii) :
  Js.substring_from (S (String.length a)) (a +:+ String c b) = b.
Proof.
  induction a as [|x a IH]; norm_append; cbn [String.length Js.substring_from].
  - destruct b; reflexivity.
  - exact IH.
Qed.

Lemma chars_append (a b : string) :
  Bech32.chars (a +:+ b) = Bech32.chars a ++ Bech32.chars b.
Proof.
  unfold Bech32.chars.
  induction a as [|x a IH]; norm_append; cbn [list_ascii_of_string app]; [reflexivity|].
  rewrite IH. reflexivity.
Qed.

Lemma map_chars_append (f : ascii -> ascii) (a b : string) :
  Bech32.map_chars f (a +:+ b) = Bech32.map_chars f a +:+ Bech32.map_chars f b.
Proof.
  induction a as [|x a IH]; norm_append; cbn [Bech32.map_chars]; [reflexivity|].
  rewrite IH. reflexivity.
Qed.

Lemma lower_idempotent (c : ascii) : Bech32.lower (Bech32.lower c) = Bech32.lower c.
Proof. destruct c as [[] [] [] [] [] [] [] []]; reflexivity. Qed.

Lemma toLowerCase_idempotent (s : string) :
  Bech32.toLowerCase (Bech32.toLowerCase s) = Bech32.toLowerCase s.
Proof.
  unfold Bech32.toLowerCase.
  induction s as [|x s IH]; cbn [Bech32.map_chars]; [reflexivity|].
  rewrite IH, lower_idempotent. reflexivity.
Qed.

Lemma length_toLowerCase (s : string) :
  String.length (Bech32.toLowerCase s) = String.length s.
Proof.
  unfold Bech32.toLowerCase.
  induction s as [|x s IH]; cbn [Bech32.map_chars String.length]; [reflexivity|].
  rewrite IH. reflexivity.
Qed.

Lemma length_string_of_list_ascii (l : list ascii) :
  String.length (string_of_list_ascii l) = length l.
Proof.
  induction l as [|c l IH]; cbn [string_of_list_ascii String.length length];
    [reflexivity|]. rewrite IH. reflexivity.
Qed.

End StringFacts.

Module DecodeFacts.
Import ConvertFacts ChecksumFacts StringFacts.

Lemma charAt_nat (n : nat) :
  (n < 32)%nat -> exists c, letter_of c (Z.of_nat n).
Proof.
  intros Hn.
  do 32 (destruct n as [|n];
         [eexists; split; [reflexivity|split; [reflexivity|split; reflexivity]]|]).
  lia.
Qed.

Lemma charAt_letter (x : Z) : 0 <= x < 2 ^ 5 -> exists c, letter_of c x.
Proof.
  intros Hx. rewrite <- (Z2Nat.id x) by lia. apply charAt_nat.
  change (2 ^ 5) with 32 in Hx. lia.
Qed.

Lemma word_chars_app (a b : list Z) :
  word_chars (a ++ b) = word_chars a +:+ word_chars b.
Proof.
  induction a as [|x a IH]; cbn [app word_chars]; [reflexivity|].
  rewrite IH, append_assoc. reflexivity.
Qed.

Lemma word_chars_letters (ws : list Z) :
  in_range 5 ws ->
  exists cs, word_chars ws = string_of_list_ascii cs /\ Forall2 letter_of cs ws.
Proof.
  induction ws as [|x ws IH]; intros H.
  - exists []. split; [reflexivity|constructor].
  - inversion H as [|? ? Hx Hrest]; subst.
    destruct (IH Hrest) as (cs & E & Hcs).
    destruct (charAt_letter x Hx) as (c & Hc).
    exists (c :: cs). split; [|constructor; assumption].
    cbn [word_chars string_of_list_ascii]. rewrite E.
    destruct Hc as (-> & _). reflexivity.
Qed.

Lemma checksum_chars_words (chk : Z) :
  Bech32.checksum_chars chk = word_chars (checksum_words chk).
Proof.
  unfold Bech32.checksum_chars, checksum_words.
  cbn [map String.concat word_chars]. rewrite append_empty. norm_append. reflexivity.
Qed.

Lemma checksum_words_range (chk : Z) :
  in_range 5 (checksum_words chk) /\ length (checksum_words chk) = 6%nat.
Proof.
  split; [|reflexivity].
  unfold checksum_words. cbn [map].
  repeat constructor;
    (change 0x1f with (Z.ones 5); rewrite Z.land_ones by lia;
     apply Z.mod_pos_bound; lia).
Qed.

(** What [encode] writes: the words' characters behind what was written
    before, when every word fits five bits; otherwise it throws. *)
Lemma encode_words_ok (ws : list Z) (chk : Z) (out : string) (r : Z * string) :
  Bech32.encode_words ws chk out = Ok r ->
  in_range 5 ws /\ r = (polymod chk ws, out +:+ word_chars ws).
Proof.
  revert chk out.
  induction ws as [|x ws IH]; intros chk out; cbn [Bech32.encode_words].
  - intros H. injection H as <-. split; [constructor|].
    cbn [polymod fold_left word_chars]. rewrite append_empty. reflexivity.
  - destruct (Z.eqb_spec (Z.shiftr x 5) 0) as [Hs|]; cbn [negb]; [|discriminate].
    intros H. destruct (IH _ _ H) as (Hr & ->). split.
    + constructor; [|exact Hr].
      rewrite Z.shiftr_div_pow2 in Hs by lia.
      apply Z.div_small_iff in Hs; lia.
    + cbn [polymod fold_left word_chars]. rewrite append_assoc. reflexivity.
Qed.

Lemma polymod_app (chk : Z) (a b : list Z) :
  polymod chk (a ++ b) = polymod (polymod chk a) b.
Proof. unfold polymod. apply fold_left_app. Qed.

(** What [decode] reads back: the words before the last six. *)
Lemma decode_words_letters (cs : list ascii) (ws : list Z)
      (tcs : list ascii) (tws : list Z) (chk : Z) (acc : list Z) :
  Forall2 letter_of cs ws ->
  Forall2 letter_of tcs tws ->
  length tws = 6%nat ->
  Bech32.decode_words (cs ++ tcs) chk acc = Ok (polymod chk (ws ++ tws), acc ++ ws).
Proof.
  intros Hcs Htcs Hlen. revert chk acc.
  induction Hcs as [|c x cs ws Hc Hcs IH]; intros chk acc.
  - cbn [app]. rewrite app_nil_r.
    do 6 (destruct Htcs as [|? ? ? ? (_ & ? & _) Htcs]; [discriminate Hlen|]).
    destruct Htcs; [|discriminate Hlen].
    cbn [Bech32.decode_words length Nat.ltb Nat.leb].
    repeat match goal with H : Bech32.ALPHABET_MAP _ = Some _ |- _ => rewrite H; clear H end.
    unfold polymod. cbn [fold_left]. reflexivity.
  - cbn [app Bech32.decode_words]. destruct Hc as (_ & -> & _).
    assert (Hlong : (length (cs ++ tcs) <? 6)%nat = false).
    { apply Nat.ltb_ge. rewrite length_app.
      pose proof (Forall2_length _ _ _ Htcs). lia. }
    rewrite Hlong, IH, <- app_assoc. reflexivity.
Qed.

Lemma toLowerCase_letters (cs : list ascii) (ws : list Z) :
  Forall2 letter_of cs ws ->
  Bech32.toLowerCase (string_of_list_ascii cs) = string_of_list_ascii cs.
Proof.
  unfold Bech32.toLowerCase.
  induction 1 as [|c x cs ws (_ & _ & Hc & _) _ IH];
    cbn [string_of_list_ascii Bech32.map_chars]; [reflexivity|].
  rewrite Hc, IH. reflexivity.
Qed.

Lemma lastIndexOf1_letters (cs : list ascii) (ws : list Z) (i : nat) :
  Forall2 letter_of cs ws ->
  Bech32.lastIndexOf1 (string_of_list_ascii cs) i = None.
Proof.
  intros H. revert i.
  induction H as [|c x cs ws (_ & _ & _ & Hc) _ IH]; intros i;
    cbn [string_of_list_ascii Bech32.lastIndexOf1]; [reflexivity|].
  rewrite IH, Hc. reflexivity.
Qed.

Lemma lastIndexOf1_separator (a body : string) (i : nat) :
  (forall j, Bech32.lastIndexOf1 body j = None) ->
  Bech32.lastIndexOf1 (a +:+ String "1" body) i = Some (i + String.length a)%nat.
Proof.
  intros Hbody. revert i.
  induction a as [|x a IH]; intros i; norm_append; cbn [Bech32.lastIndexOf1 String.length].
  - rewrite Hbody. cbn. f_equal. lia.
  - rewrite IH. f_equal. lia.
Qed.

(** One checksum word: the state keeps up with the digits of [C]. *)
Lemma digit_step (T C k k' : Z) :
  0 <= C < 2 ^ 30 -> 0 <= k -> k' = k + 5 ->
  Z.lxor (Bech32.polymodStep (Z.lxor T (Z.shiftr C k'))) (Z.land (Z.shiftr C k) 31)
  = Z.lxor (Bech32.polymodStep T) (Z.shiftr C k).
Proof.
  intros HC Hk ->.
  assert (Hp : 0 < 2 ^ (k + 5)) by (apply pow2_pos; lia).
  assert (HE : 0 <= Z.shiftr C (k + 5) < 2 ^ 25).
  { rewrite Z.shiftr_div_pow2 by lia. split; [apply Z.div_pos; lia|].
    apply Z.div_lt_upper_bound; [lia|].
    rewrite <- Z.pow_add_r by lia.
    eapply Z.lt_le_trans; [apply HC|]. apply Z.pow_le_mono_r; lia. }
  rewrite polymodStep_lxor, (polymodStep_small _ HE), Z.lxor_assoc.
  f_equal.
  assert (HY : Z.shiftr C (k + 5) = Z.shiftr C k / 2 ^ 5).
  { rewrite <- Z.shiftr_shiftr by lia. apply Z.shiftr_div_pow2. lia. }
  rewrite HY. change 31 with (Z.ones 5). rewrite Z.land_ones by lia.
  rewrite (lxor_low _ _ 5); try lia.
  - change (2 ^ 5) with 32. pose proof (Z.div_mod (Z.shiftr C k) 32). lia.
  - change 32 with (2 ^ 5). apply Z.mod_mul. lia.
  - apply Z.mod_pos_bound. lia.
Qed.

Lemma checksum_words_eq (C : Z) :
  checksum_words C =
  [Z.land (Z.shiftr C 25) 31; Z.land (Z.shiftr C 20) 31; Z.land (Z.shiftr C 15) 31;
   Z.land (Z.shiftr C 10) 31; Z.land (Z.shiftr C 5) 31; Z.land (Z.shiftr C 0) 31].
Proof. reflexivity. Qed.

Lemma polymod_checksum_words (T C : Z) :
  0 <= C < 2 ^ 30 ->
  polymod T (checksum_words C) = Z.lxor (Nat.iter 6 Bech32.polymodStep T) C.
Proof.
  intros HC. rewrite checksum_words_eq. cbn [polymod fold_left Nat.iter nat_rect].
  assert (H30 : Z.shiftr C 30 = 0).
  { rewrite Z.shiftr_div_pow2 by lia. apply Z.div_small. exact HC. }
  pose proof (digit_step T C 25 30 HC ltac:(lia) ltac:(lia)) as H0.
  rewrite H30, Z.lxor_0_r in H0. rewrite H0.
  rewrite (digit_step _ C 20 25 HC) by lia.
  rewrite (digit_step _ C 15 20 HC) by lia.
  rewrite (digit_step _ C 10 15 HC) by lia.
  rewrite (digit_step _ C 5 10 HC) by lia.
  rewrite (digit_step _ C 0 5 HC) by lia.
  rewrite Z.shiftr_0_r. reflexivity.
Qed.

(** The checksum that [encode] appends brings the state to 1. *)
Lemma polymod_checksum (T : Z) :
  polymod T (checksum_words (Z.lxor (Nat.iter 6 Bech32.polymodStep T) 1)) = 1.
Proof.
  rewrite polymod_checksum_words.
  - rewrite <- Z.lxor_assoc, Z.lxor_nilpotent. reflexivity.
  - cbn [Nat.iter nat_rect]. apply lxor_range; [lia|apply polymodStep_range|lia].
Qed.

Lemma Ok_eq {A : Type} (a b : A) : Ok a = Ok b -> a = b.
Proof. intros H. injection H as H. exact H. Qed.

(** [decode] undoes [encode]: the prefix comes back in lower case, the
    words as they were. *)
Lemma bech32_decode_encode (prefix : string) (words : list Z) (str : string) :
  prefix <> "" ->
  Bech32.encode prefix words = Ok str ->
  Bech32.decode str = Ok (Bech32.toLowerCase prefix, words).
Proof.
  intros Hne. unfold Bech32.encode.
  destruct (Nat.ltb_spec Bech32.LIMIT (String.length prefix + 7 + length words))
    as [|Hlimit]; [discriminate|].
  cbv zeta.
  destruct (Bech32.prefixChk (Bech32.toLowerCase prefix)) as [chk0|e] eqn:Hchk;
    cbn [result_bind]; [|discriminate].
  destruct (Bech32.encode_words words chk0 (Bech32.toLowerCase prefix +:+ "1"))
    as [[chk1 out]|e] eqn:Hwords; cbn [result_bind]; [|discriminate].
  apply encode_words_ok in Hwords as (Hrange & Hr).
  apply pair_equal_spec in Hr as (-> & ->).
  match goal with |- context [Bech32.checksum_chars ?c] => set (C := c) end.
  intros H. apply Ok_eq in H. subst str.
  assert (Hfinal : polymod (polymod chk0 words) (checksum_words C) = 1)
    by (subst C; apply polymod_checksum).
  clearbody C.
  destruct (checksum_words_range C) as (HCr & HCl).
  destruct (word_chars_letters words Hrange) as (cs & Ecs & Hcs).
  destruct (word_chars_letters _ HCr) as (tcs & Etcs & Htcs).
  assert (Hall : Forall2 letter_of (cs ++ tcs) (words ++ checksum_words C))
    by (apply Forall2_app; assumption).
  assert (Hbody : word_chars words +:+ Bech32.checksum_chars C
                  = string_of_list_ascii (cs ++ tcs)).
  { rewrite checksum_chars_words, Ecs, Etcs.
    clear. induction cs as [|c cs IH]; cbn [app string_of_list_ascii]; norm_append;
             [reflexivity|]. rewrite IH. reflexivity. }
  set (lp := Bech32.toLowerCase prefix) in *.
  rewrite !append_assoc, Hbody. norm_append. clear Hbody.
  set (body := string_of_list_ascii (cs ++ tcs)).
  assert (Hlb : String.length body = (length words + 6)%nat).
  { unfold body. rewrite length_string_of_list_ascii, length_app.
    rewrite (Forall2_length _ _ _ Hcs), (Forall2_length _ _ _ Htcs), HCl. reflexivity. }
  assert (Hlp : String.length lp = String.length prefix)
    by apply length_toLowerCase.
  assert (Hlen : String.length (lp +:+ String "1" body)
                 = (String.length prefix + 7 + length words)%nat).
  { rewrite length_append. cbn [String.length]. rewrite Hlb, Hlp. lia. }
  assert (Hpos : exists n, String.length lp = S n).
  { rewrite Hlp. destruct prefix; [contradiction Hne; reflexivity|].
    cbn [String.length]. eauto. }
  destruct Hpos as (n & Hn).
  unfold Bech32.decode. rewrite Hlen.
  destruct (Nat.ltb_spec (String.length prefix + 7 + length words) 8) as [Hshort|_].
  { rewrite <- Hlp, Hn in Hshort. lia. }
  destruct (Nat.ltb_spec Bech32.LIMIT (String.length prefix + 7 + length words))
    as [|_]; [lia|].
  cbv zeta.
  assert (Hlow : Bech32.toLowerCase (lp +:+ String "1" body) = lp +:+ String "1" body).
  { unfold Bech32.toLowerCase. rewrite map_chars_append. cbn [Bech32.map_chars].
    fold (Bech32.toLowerCase lp). fold (Bech32.toLowerCase body).
    unfold lp at 1. rewrite toLowerCase_idempotent. fold lp.
    unfold body. rewrite (toLowerCase_letters _ _ Hall). reflexivity. }
  rewrite Hlow, String.eqb_refl. cbn [negb andb].
  rewrite lastIndexOf1_separator
    by (intros j; apply (lastIndexOf1_letters _ _ j Hall)).
  cbn [Nat.add]. rewrite Hn, <- Hn.
  rewrite substring_prefix, substring_from_separator.
  rewrite Hlb.
  destruct (Nat.ltb_spec (length words + 6) 6) as [|_]; [lia|].
  rewrite Hchk. cbn [result_bind].
  unfold body, Bech32.chars. rewrite list_ascii_of_string_of_list_ascii.
  rewrite (decode_words_letters cs words tcs (checksum_words C) chk0 [] Hcs Htcs HCl).
  cbn [result_bind app].
  rewrite polymod_app, Hfinal. reflexivity.
Qed.

End DecodeFacts.

(** ** Addresses: from bytes to a human address and back *)

Lemma of_Z_to_Z (b : byte) : Bytes.of_Z (Bytes.to_Z b) = b.
Proof. destruct b; reflexivity. Qed.

Lemma to_Z_in_range (bs : list byte) : in_range 8 (map Bytes.to_Z bs).
Proof.
  induction bs as [|b bs IH]; constructor; [|exact IH].
  destruct b; vm_compute; split; congruence.
Qed.

Lemma map_of_Z_to_Z (bs : list byte) : map Bytes.of_Z (map Bytes.to_Z bs) = bs.
Proof.
  induction bs as [|b bs IH]; cbn [map]; [reflexivity|].
  rewrite of_Z_to_Z, IH. reflexivity.
Qed.

Lemma chain_entry_nonempty (table : gmap string string) (c : Chain) (v : string) :
  chain_entry table c = Some v -> v <> "".
Proof.
  destruct c as [name|id]; cbn [chain_entry]; [|discriminate].
  destruct (table !! name) as [v'|]; [|discriminate].
  destruct (Js.truthy v') eqn:Ht; [|discriminate].
  intros H. injection H as <-. intros ->. discriminate Ht.
Qed.

(** [canonicalAddress] undoes [humanAddress], whatever the bytes and the
    prefix, as long as there is a prefix. *)
Lemma canonicalAddress_humanAddress (prefix : string) (bs : list byte) (human : string) :
  prefix <> "" ->
  cosmos.humanAddress prefix (map Bytes.to_Z bs) = Ok human ->
  cosmos.canonicalAddress human = Ok bs.
Proof.
  intros Hne. unfold cosmos.humanAddress, cosmos.canonicalAddress.
  destruct (WordsFacts.fromWords_toWords _ (to_Z_in_range bs))
    as (words & Hto & Hfrom & _).
  rewrite Hto. cbn [result_bind]. intros Hencode.
  rewrite (DecodeFacts.bech32_decode_encode _ _ _ Hne Hencode). cbn [result_bind].
  rewrite Hfrom. cbn [result_bind]. rewrite map_of_Z_to_Z. reflexivity.
Qed.

Lemma formatAddress_humanAddress (prefix : string) (bs : list byte) (human : string) :
  prefix <> "" ->
  cosmos.humanAddress prefix (map Bytes.to_Z bs) = Ok human ->
  Context.formatAddress human = Ethers.zeroPad bs 32.
Proof.
  intros Hne Hh. unfold Context.formatAddress.
  rewrite (canonicalAddress_humanAddress _ _ _ Hne Hh). reflexivity.
Qed.

Lemma zeroPad_32 (bs : list byte) : length bs = 32%nat -> Ethers.zeroPad bs 32 = Ok bs.
Proof. intros H. unfold Ethers.zeroPad. rewrite H. reflexivity. Qed.

(** X26. [formatAddress] undoes [parseAddress] on byte arrays: the human
    address that [parseAddress] makes of a byte array is formatted back
    to these bytes behind the zero bytes that make 32, so a 32-byte universal
    address comes back as it was; more than 32 bytes can be parsed but not
    formatted back. *)
Theorem formatAddress_parseAddress (this : CosmosContext) (bs : list byte)
        (human : string) :
  Context.parseAddress this (AddrBytes bs) = Ok human ->
  Context.formatAddress human
  = (if (32 <? length bs)%nat then Err (Thrown "value out of range")
     else Ok (repeat x00 (32 - length bs) ++ bs))
  /\ (length bs = 32%nat -> Context.formatAddress human = Ok bs).
Proof.
  unfold Context.parseAddress.
  destruct (chain_entry PREFIXES (chain this)) as [prefix|] eqn:Hp; [|discriminate].
  cbn [Context.address_data result_bind]. intros Hh.
  pose proof (formatAddress_humanAddress _ _ _ (chain_entry_nonempty _ _ _ Hp) Hh) as Hf.
  split; [exact Hf|].
  intros Hlen. rewrite Hf. apply zeroPad_32, Hlen.
Qed.

Lemma formatAddress_parseAddress_witness :
  Context.formatAddress "osmo1qypqxpq9qcrsszg2pvxq6rs0zqg3yyc5helwsw"
  = Ok (repeat x00 12 ++
        [x01; x02; x03; x04; x05; x06; x07; x08; x09; x0a;
         x0b; x0c; x0d; x0e; x0f; x10; x11; x12; x13; x14]).
Proof.
  refine (proj1 (formatAddress_parseAddress Sample.osmosis
            [x01; x02; x03; x04; x05; x06; x07; x08; x09; x0a;
             x0b; x0c; x0d; x0e; x0f; x10; x11; x12; x13; x14] _ _)).
  vm_compute. reflexivity.
Defined.

(** X27. The recipient of a redeem, formatted back: with no payer given,
    the sender of the one message is the human address of the last 20 bytes
    of the 32-byte [to] of the transfer, and [formatAddress] makes of it
    these 20 bytes behind 12 zero bytes. This is [to] itself exactly when the
    first 12 bytes of [to] are zero. *)
Theorem redeem_recipient_formatted (this : CosmosContext) (destChain : Chain)
        (signedVAA : list byte) (w w' : World) (vaa : ParsedVaa)
        (transfer : TokenTransfer) (tx : CosmosTransaction) :
  parseVaa (context this) signedVAA = Ok vaa ->
  parseTokenTransferPayload (context this) (payload vaa) = Ok transfer ->
  length (to transfer) = 32%nat ->
  Context.redeem this destChain signedVAA None w = (Ok tx, w') ->
  exists m,
    msgs tx = [m]
    /\ Context.formatAddress (sender (encoded m))
       = Ok (repeat x00 12 ++ Bytes.slice_from 12 (to transfer))
    /\ (Context.formatAddress (sender (encoded m)) = Ok (to transfer)
        <-> firstn 12 (to transfer) = repeat x00 12).
Proof.
  intros Hvaa Htransfer Hlen. unfold Context.redeem, await, lift, resolve.
  destruct (toChainName (context this) destChain) as [chainName|e]; [|discriminate].
  rewrite Hvaa, Htransfer.
  destruct (Context.getNativeDenom this (ChainName chainName)) as [denom|e];
    [|discriminate].
  destruct (Context.getPrefix this (ChainName chainName)) as [prefix|e] eqn:Hp;
    [|discriminate].
  destruct (cosmos.humanAddress prefix _) as [recipient|e] eqn:Hr; [|discriminate].
  destruct (Context.getTokenBridgeAddress this chainName) as [bridge|e]; [|discriminate].
  destruct (calculateFee (context this) 1000000 _) as [fee|e]; [|discriminate].
  intros H. injection H as <- _. eexists. split; [reflexivity|].
  assert (Hne : prefix <> "").
  { unfold Context.getPrefix in Hp.
    destruct (toChainName (context this) (ChainName chainName)) as [name|e];
      cbn [result_bind] in Hp; [|discriminate].
    destruct (chain_entry PREFIXES (ChainName name)) as [p|] eqn:Hentry; [|discriminate].
    injection Hp as <-. exact (chain_entry_nonempty _ _ _ Hentry). }
  assert (Hf : Context.formatAddress recipient
               = Ok (repeat x00 12 ++ Bytes.slice_from 12 (to transfer))).
  { rewrite (formatAddress_humanAddress _ _ _ Hne Hr). unfold Ethers.zeroPad.
    unfold Bytes.slice_from. rewrite length_skipn, Hlen. reflexivity. }
  cbn [msgs encoded buildExecuteMsg sender Context.payer_or].
  split; [exact Hf|].
  rewrite Hf. unfold Bytes.slice_from.
  rewrite <- (firstn_skipn 12 (to transfer)) at 2.
  split.
  - intros H. apply DecodeFacts.Ok_eq, app_inv_tail in H. symmetry. exact H.
  - intros ->. reflexivity.
Qed.

Lemma redeem_recipient_formatted_witness :
  let signedVAA := repeat x07 101 in
  let tx :=
    {| fee := {| fee_amount := [{| denom := "uosmo"; coin_amount := "100000" |}];
                 gas := "1000000" |};
       msgs := [buildExecuteMsg "osmo1qurswpc8qurswpc8qurswpc8qurswpc8mg52kn"
                  Sample.osmosis_bridge
                  (submit_vaa_json (Base64.encode signedVAA))];
       memo := "Wormhole - Complete Transfer" |} in
  exists m,
    msgs tx = [m]
    /\ Context.formatAddress (sender (encoded m))
       = Ok (repeat x00 12 ++ repeat x07 20)
    /\ (Context.formatAddress (sender (encoded m)) = Ok (repeat x07 32)
        <-> repeat x07 12 = repeat x00 12).
Proof.
  intros signedVAA tx.
  apply (redeem_recipient_formatted Sample.osmosis (ChainId 20) signedVAA
           initial initial
           {| emitterChain := 20%N; emitterAddress := []; sequence := 42;
              payload := signedVAA |}
           {| payloadType := 1; amount := 0; toChain := 20%N; to := repeat x07 32 |}
           tx);
    vm_compute; reflexivity.
Defined.

(** X28. A 32-byte universal address given to [parseAddress] as a [0x]
    string, then formatted back. When its first byte that is not zero is at
    least 0x10 it comes back as it was: the zero bytes that were stripped are
    padded back. When that byte is below 0x10 it does not come back: the bytes
    formatted back have a zero byte where this byte was. *)
Theorem formatAddress_parseAddress_hex (this : CosmosContext) (n : nat) (b : byte)
        (rest : list byte) (human : string) :
  let universal := repeat x00 n ++ b :: rest in
  length universal = 32%nat ->
  Context.parseAddress this (AddrString ("0x" +:+ Hex.encode universal)) = Ok human ->
  (16 <= Bytes.to_Z b -> Context.formatAddress human = Ok universal)
  /\ (0 < Bytes.to_Z b < 16 ->
      exists back,
        Context.formatAddress human = Ok back
        /\ length back = 32%nat
        /\ nth n back x01 = x00
        /\ nth n universal x01 = b
        /\ back <> universal).
Proof.
  intros universal Hlen. unfold Context.parseAddress.
  destruct (chain_entry PREFIXES (chain this)) as [prefix|] eqn:Hp; [|discriminate].
  pose proof (chain_entry_nonempty _ _ _ Hp) as Hne.
  unfold universal. rewrite hex_string_data. cbn [result_bind].
  rewrite strip_zeros_zero_bytes.
  unfold universal in Hlen. rewrite length_app, repeat_length in Hlen.
  cbn [length] in Hlen.
  split.
  - intros Hhigh. rewrite (strip_zeros_high_byte b rest Hhigh), HexFacts.decode_encode in H.
    rewrite (formatAddress_humanAddress _ _ _ Hne H). unfold Ethers.zeroPad.
    cbn [length].
    destruct (Nat.ltb_spec 32 (S (length rest))) as [|_]; [lia|].
    replace (32 - S (length rest))%nat with n by lia. reflexivity.
  - intros Hlow. rewrite (strip_zeros_low_byte b rest Hlow) in H.
    assert (Hd : length (Hex.decode (String (Hex.digit (Bytes.to_Z b)) (Hex.encode rest)))
                 = length rest).
    { apply decode_odd_length. destruct Hlow as [Hlo Hhi].
      destruct b; first [discriminate | vm_compute in Hhi; discriminate Hhi
                         | vm_compute in Hlo; discriminate Hlo]. }
    set (data := Hex.decode _) in *.
    rewrite (formatAddress_humanAddress _ _ _ Hne H). unfold Ethers.zeroPad.
    rewrite Hd.
    destruct (Nat.ltb_spec 32 (length rest)) as [|_]; [lia|].
    replace (32 - length rest)%nat with (S n) by lia.
    eexists. split; [reflexivity|].
    assert (Hback : nth n (repeat x00 (S n) ++ data) x01 = x00).
    { rewrite app_nth1 by (rewrite repeat_length; lia).
      apply nth_repeat_lt. lia. }
    assert (Huniv : nth n (repeat x00 n ++ b :: rest) x01 = b).
    { rewrite app_nth2 by (rewrite repeat_length; lia).
      rewrite repeat_length, Nat.sub_diag. reflexivity. }
    split; [rewrite length_app, repeat_length, Hd; lia|].
    split; [exact Hback|]. split; [exact Huniv|].
    intros Heq. rewrite Heq, Huniv in Hback. subst b.
    destruct Hlow as [Hlo _]. vm_compute in Hlo. discriminate Hlo.
Qed.

Lemma formatAddress_parseAddress_hex_witness :
  Context.formatAddress "osmo1zsrswpc8qurswpc8qurswpc8qurswpc8wss5fc"
  = Ok (repeat x00 12 ++ x14 :: repeat x07 19)
  /\ exists back,
       Context.formatAddress "osmo1gpc8qurswpc8qurswpc8qurswpc8quqxvp3ww" = Ok back
       /\ length back = 32%nat
       /\ nth 12 back x01 = x00
       /\ nth 12 (repeat x00 12 ++ x04 :: repeat x07 19) x01 = x04
       /\ back <> repeat x00 12 ++ x04 :: repeat x07 19.
Proof.
  split.
  - refine (proj1 (formatAddress_parseAddress_hex Sample.osmosis 12 x14
                     (repeat x07 19) _ _ _) _);
      vm_compute; first [reflexivity | discriminate].
  - refine (proj2 (formatAddress_parseAddress_hex Sample.osmosis 12 x04
                     (repeat x07 19) _ _ _) _);
      vm_compute; first [reflexivity | split; reflexivity].
Defined.

(** ** Redeeming: the recipient *)

(** What [encode] returns: the prefix in lower case, the separator, a
    character a word, and six characters of checksum. *)
Lemma encode_shape (prefix : string) (words : list Z) (str : string) :
  Bech32.encode prefix words = Ok str ->
  exists body,
    str = Bech32.toLowerCase prefix +:+ String "1" body
    /\ String.length body = (length words + 6)%nat.
Proof.
  unfold Bech32.encode.
  destruct (Nat.ltb_spec Bech32.LIMIT (String.length prefix + 7 + length words))
    as [|Hlimit]; [discriminate|].
  cbv zeta.
  destruct (Bech32.prefixChk (Bech32.toLowerCase prefix)) as [chk0|e] eqn:Hchk;
    cbn [result_bind]; [|discriminate].
  destruct (Bech32.encode_words words chk0 (Bech32.toLowerCase prefix +:+ "1"))
    as [[chk1 out]|e] eqn:Hwords; cbn [result_bind]; [|discriminate].
  apply DecodeFacts.encode_words_ok in Hwords as (Hrange & Hr).
  apply pair_equal_spec in Hr as (-> & ->).
  match goal with |- context [Bech32.checksum_chars ?c] => generalize c end.
  intros C H. apply DecodeFacts.Ok_eq in H. subst str.
  destruct (DecodeFacts.checksum_words_range C) as (HCr & HCl).
  destruct (DecodeFacts.word_chars_letters words Hrange) as (cs & Ecs & Hcs).
  destruct (DecodeFacts.word_chars_letters _ HCr) as (tcs & Etcs & Htcs).
  exists (word_chars words +:+ Bech32.checksum_chars C). split.
  - rewrite !StringFacts.append_assoc. reflexivity.
  - rewrite StringFacts.length_append, DecodeFacts.checksum_chars_words, Ecs, Etcs,
      !StringFacts.length_string_of_list_ascii.
    rewrite (Forall2_length _ _ _ Hcs), (Forall2_length _ _ _ Htcs), HCl. reflexivity.
Qed.

Lemma startsWith_append (a b : string) : Js.startsWith a (a +:+ b) = true.
Proof.
  unfold Js.startsWith.
  induction a as [|x a IH]; [destruct b; reflexivity|].
  rewrite StringFacts.append_cons. cbn [String.prefix].
  destruct (ascii_dec x x); [exact IH|congruence].
Qed.

(** C5. When the attestation parses to a transfer whose recipient [to] is
    32 bytes and the destination chain is configured, [redeem] returns a
    transaction of one message, an execution of the chain's token bridge
    with the attestation in base64. Its sender is the payer when one is
    given and is not empty, and otherwise the recipient: the bech32 address,
    under the chain's prefix, of the last 20 bytes of [to]. This address is
    the prefix, the separator and 38 characters; it decodes to the prefix
    and to the words of those 20 bytes, and its canonical bytes are those 20
    bytes. *)
Theorem redeem_recipient (this : CosmosContext) (destChain : Chain)
        (signedVAA : list byte) (payerAddr : option string) (w : World)
        (chainName denom prefix bridge : string) (vaa : ParsedVaa)
        (transfer : TokenTransfer) (fee : StdFee) :
  toChainName (context this) destChain = Ok chainName ->
  toChainName (context this) (ChainName chainName) = Ok chainName ->
  parseVaa (context this) signedVAA = Ok vaa ->
  parseTokenTransferPayload (context this) (payload vaa) = Ok transfer ->
  length (to transfer) = 32%nat ->
  NATIVE_DENOMS !! chainName = Some denom ->
  PREFIXES !! chainName = Some prefix ->
  Context.getTokenBridgeAddress this chainName = Ok bridge ->
  calculateFee (context this) 1000000 ("0.1" +:+ denom) = Ok fee ->
  exists (recipient : string) (words : list Z) (m : EncodeObject),
    Bech32.toWords (map Bytes.to_Z (last_bytes 20 (to transfer))) = Ok words
    /\ Bech32.encode prefix words = Ok recipient
    /\ Bech32.decode recipient = Ok (prefix, words)
    /\ cosmos.canonicalAddress recipient = Ok (last_bytes 20 (to transfer))
    /\ Js.startsWith (prefix +:+ "1") recipient = true
    /\ String.length recipient = (String.length prefix + 39)%nat
    /\ Context.redeem this destChain signedVAA payerAddr w =
       (Ok {| fee := fee; msgs := [m]; memo := "Wormhole - Complete Transfer" |}, w)
    /\ typeUrl m = "/cosmwasm.wasm.v1.MsgExecuteContract"
    /\ contract (encoded m) = bridge
    /\ msg (encoded m) = Bytes.of_string (submit_vaa_json (Base64.encode signedVAA))
    /\ funds (encoded m) = []
    /\ sender (encoded m) =
       match payerAddr with
       | Some payer => if String.eqb payer "" then recipient else payer
       | None => recipient
       end
    /\ (payerAddr = None -> sender (encoded m) = recipient).
Proof.
  intros Hname Hidem Hvaa Htransfer Hlen Hdenom Hprefix Hbridge Hfee.
  pose proof (NATIVE_DENOMS_entry _ _ Hdenom) as Hd.
  pose proof (PREFIXES_entry _ _ Hprefix) as Hp.
  pose proof (chain_entry_nonempty _ _ _ Hp) as Hne.
  destruct (last_bytes_32 _ Hlen) as [Hlast Hlast_len].
  destruct (humanAddress_total prefix (last_bytes 20 (to transfer))
              (PREFIXES_values _ _ Hprefix) Hlast_len) as [recipient Hrecipient].
  pose proof (canonicalAddress_humanAddress _ _ _ Hne Hrecipient) as Hcanonical.
  assert (Hrun : Context.redeem this destChain signedVAA payerAddr w =
            (Ok {| fee := fee;
                   msgs := [buildExecuteMsg (Context.payer_or payerAddr recipient) bridge
                              (submit_vaa_json (Base64.encode signedVAA))];
                   memo := "Wormhole - Complete Transfer" |}, w)).
  { unfold Context.redeem.
    rewrite (await_lift_ok _ _ _ _ Hname), (await_lift_ok _ _ _ _ Hvaa),
      (await_lift_ok _ _ _ _ Htransfer).
    rewrite (await_lift_ok _ denom).
    2:{ unfold Context.getNativeDenom. rewrite Hidem. cbn [result_bind].
        rewrite Hd. reflexivity. }
    rewrite (await_lift_ok _ prefix).
    2:{ unfold Context.getPrefix. rewrite Hidem. cbn [result_bind].
        rewrite Hp. reflexivity. }
    rewrite <- Hlast, (await_lift_ok _ _ _ _ Hrecipient),
      (await_lift_ok _ _ _ _ Hbridge), (await_lift_ok _ _ _ _ Hfee).
    reflexivity. }
  unfold cosmos.humanAddress in Hrecipient.
  destruct (Bech32.toWords (map Bytes.to_Z (last_bytes 20 (to transfer))))
    as [words|e] eqn:Hwords; cbn [result_bind] in Hrecipient; [|discriminate].
  assert (Hcount : length words = 32%nat).
  { apply (Bech32Facts.toWords_length_20 _ _ ltac:(rewrite length_map; exact Hlast_len)
             Hwords). }
  assert (Hlower : Bech32.toLowerCase prefix = prefix)
    by (destruct (PREFIXES_values _ _ Hprefix) as [-> | ->]; reflexivity).
  pose proof (DecodeFacts.bech32_decode_encode _ _ _ Hne Hrecipient) as Hdecode.
  destruct (encode_shape _ _ _ Hrecipient) as (body & Hshape & Hbody).
  rewrite Hlower in Hdecode, Hshape.
  exists recipient, words, (buildExecuteMsg (Context.payer_or payerAddr recipient) bridge
                              (submit_vaa_json (Base64.encode signedVAA))).
  split; [reflexivity|]. split; [exact Hrecipient|]. split; [exact Hdecode|].
  split; [exact Hcanonical|]. split.
  { rewrite Hshape.
    change (String "1" body) with ("1" +:+ body).
    rewrite <- StringFacts.append_assoc. apply startsWith_append. }
  split.
  { rewrite Hshape, StringFacts.length_append. cbn [String.length].
    rewrite Hbody, Hcount. lia. }
  split; [exact Hrun|].
  cbn [buildExecuteMsg typeUrl encoded contract msg funds sender].
  repeat (split; [reflexivity|]). split; [|intros ->; reflexivity].
  destruct payerAddr as [payer|]; [|reflexivity].
  cbn [Context.payer_or]. unfold Js.truthy. destruct (String.eqb payer ""); reflexivity.
Qed.

Lemma redeem_recipient_witness :
  let signedVAA := repeat x07 101 in
  let recipient := "osmo1qurswpc8qurswpc8qurswpc8qurswpc8mg52kn" in
  exists (words : list Z) (m : EncodeObject),
    Bech32.decode recipient = Ok ("osmo", words)
    /\ cosmos.canonicalAddress recipient = Ok (repeat x07 20)
    /\ Context.redeem Sample.osmosis (ChainId 20) signedVAA None initial =
       (Ok {| fee := {| fee_amount := [{| denom := "uosmo"; coin_amount := "100000" |}];
                        gas := "1000000" |};
              msgs := [m];
              memo := "Wormhole - Complete Transfer" |}, initial)
    /\ contract (encoded m) = Sample.osmosis_bridge
    /\ sender (encoded m) = recipient.
Proof.
  intros signedVAA recipient.
  destruct (redeem_recipient Sample.osmosis (ChainId 20) signedVAA None initial
              "osmosis" "uosmo" "osmo" Sample.osmosis_bridge
              {| emitterChain := 20%N; emitterAddress := []; sequence := 42;
                 payload := signedVAA |}
              {| payloadType := 1; amount := 0; toChain := 20%N; to := repeat x07 32 |}
              {| fee_amount := [{| denom := "uosmo"; coin_amount := "100000" |}];
                 gas := "1000000" |}
              eq_refl eq_refl eq_refl eq_refl eq_refl eq_refl eq_refl eq_refl eq_refl)
    as (r & words & m & Hwords & Hencode & Hdecode & Hcanonical & _ & _ & Hrun
        & _ & Hcontract & _ & _ & _ & Hsender).
  assert (Hr : r = recipient).
  { vm_compute in Hwords. injection Hwords as <-.
    vm_compute in Hencode. injection Hencode as <-. reflexivity. }
  subst r. exists words, m.
  split; [exact Hdecode|]. split; [exact Hcanonical|]. split; [exact Hrun|].
  split; [exact Hcontract|]. apply Hsender. reflexivity.
Defined.
